(** * The module specifier resolver of [packages/vite/src/node/plugins/resolve.ts]

    A shallow embedding of the resolver plugin: JavaScript strings, the POSIX
    flavour of Node's [path] module, the package handle and its caches, the
    filesystem probe, the entry-point and deep-import resolvers, the
    bare-import resolver and the dispatch orchestrator [resolveId]; followed
    by the properties established about them. *)

From Stdlib Require Import ZArith Lia Bool List Ascii String.
From stdpp Require Import base option gmap strings.

Local Open Scope Z_scope.
Local Open Scope list_scope.

(** ** JavaScript strings

    Strings are sequences of 8-bit characters; indices are [Z] because the
    source works with [-1] as "not found" and with negative slice bounds. *)

Module Js.

Definition len (s : string) : Z := Z.of_nat (String.length s).

Fixpoint take (n : nat) (s : string) : string :=
  match n, s with
  | S n', String c s' => String c (take n' s')
  | _, _ => EmptyString
  end.

Fixpoint drop (n : nat) (s : string) : string :=
  match n, s with
  | S n', String _ s' => drop n' s'
  | _, _ => s
  end.

(** [s.startsWith(p)] *)
Fixpoint startsWith (s p : string) {struct p} : bool :=
  match p, s with
  | EmptyString, _ => true
  | String c p', String d s' => Ascii.eqb c d && startsWith s' p'
  | String _ _, EmptyString => false
  end.

(** [s.endsWith(p)] *)
Definition endsWith (s p : string) : bool :=
  (String.length p <=? String.length s)%nat
  && String.eqb (drop (String.length s - String.length p) s) p.

(** Relative index of [String.prototype.slice]. *)
Definition relIndex (l i : Z) : Z :=
  if i <? 0 then Z.max (l + i) 0 else Z.min i l.

(** [s.slice(start, end)]; [None] is an omitted [end]. *)
Definition slice (s : string) (start : Z) (end_ : option Z) : string :=
  let l := len s in
  let a := relIndex l start in
  let b := match end_ with Some e => relIndex l e | None => l end in
  take (Z.to_nat (b - a)) (drop (Z.to_nat a) s).

(** [s.substring(start, end)]: bounds are clamped and swapped. *)
Definition substring (s : string) (start end_ : Z) : string :=
  let l := len s in
  let a := Z.min (Z.max start 0) l in
  let b := Z.min (Z.max end_ 0) l in
  take (Z.to_nat (Z.max a b - Z.min a b)) (drop (Z.to_nat (Z.min a b)) s).

Fixpoint indexOfAux (s p : string) (i : Z) : Z :=
  if startsWith s p then i
  else match s with
       | EmptyString => -1
       | String _ s' => indexOfAux s' p (i + 1)
       end.

(** [s.indexOf(p, from)] *)
Definition indexOfFrom (s p : string) (from : Z) : Z :=
  let k := Z.min (Z.max from 0) (len s) in
  indexOfAux (drop (Z.to_nat k) s) p k.

(** [s.indexOf(p)] *)
Definition indexOf (s p : string) : Z := indexOfFrom s p 0.

Fixpoint lastIndexOfAux (s p : string) (i acc : Z) : Z :=
  let acc' := if startsWith s p then i else acc in
  match s with
  | EmptyString => acc'
  | String _ s' => lastIndexOfAux s' p (i + 1) acc'
  end.

(** [s.lastIndexOf(p)] *)
Definition lastIndexOf (s p : string) : Z := lastIndexOfAux s p 0 (-1).

(** [s.includes(p)] *)
Definition includes (s p : string) : bool := 0 <=? indexOf s p.

(** [s[0] === c] *)
Definition firstCharIs (s : string) (c : ascii) : bool :=
  match s with
  | String d _ => Ascii.eqb d c
  | EmptyString => false
  end.

Fixpoint rev_append (s acc : string) : string :=
  match s with
  | EmptyString => acc
  | String c s' => rev_append s' (String c acc)
  end.

Definition rev (s : string) : string := rev_append s EmptyString.

(** The white space of [\s] and of [trim], restricted to one-byte
    characters: TAB, LF, VT, FF, CR and SPACE. *)
Definition isSpace (c : ascii) : bool :=
  let n := nat_of_ascii c in
  ((9 <=? n) && (n <=? 13) || (n =? 32))%nat.

Fixpoint trimStart (s : string) : string :=
  match s with
  | String c s' => if isSpace c then trimStart s' else s
  | EmptyString => EmptyString
  end.

Definition trim (s : string) : string := rev (trimStart (rev (trimStart s))).

(** The class [\w]: letters, digits and the underscore. *)
Definition isWordChar (c : ascii) : bool :=
  let n := nat_of_ascii c in
  ((48 <=? n) && (n <=? 57) || (65 <=? n) && (n <=? 90)
   || (97 <=? n) && (n <=? 122) || (n =? 95))%nat.

(** [/^\w/.test(s)] *)
Definition startsWithWordChar (s : string) : bool :=
  match s with
  | String c _ => isWordChar c
  | EmptyString => false
  end.

(** Truthiness of a string value: every string but the empty one. *)
Definition nonEmpty (s : string) : bool :=
  match s with
  | EmptyString => false
  | String _ _ => true
  end.

(** Truthiness of [string | undefined]. *)
Definition truthy (o : option string) : bool :=
  match o with
  | Some s => nonEmpty s
  | None => false
  end.

(** The double quote, for the messages that contain one. *)
Definition dquote : string := String (ascii_of_nat 34) EmptyString.

(** A template literal's rendering of [string | undefined]. *)
Definition display (o : option string) : string :=
  match o with
  | Some s => s
  | None => "undefined"
  end.

(** [re.test(s)] for a pattern [<lit>\s*<tail>]: an occurrence of [lit],
    any run of white space, then [tail]. *)
Fixpoint matchLitSpacesAt (s tail : string) : bool :=
  startsWith s tail
  || match s with
     | String c s' => isSpace c && matchLitSpacesAt s' tail
     | EmptyString => false
     end.

Fixpoint testLitSpaces (lit tail s : string) : bool :=
  (startsWith s lit && matchLitSpacesAt (drop (String.length lit) s) tail)
  || match s with
     | String _ s' => testLitSpaces lit tail s'
     | EmptyString => false
     end.

End Js.

(** ** Node's [path] module, POSIX flavour *)

Module Path.

Definition slashChar : ascii := "/"%char.
Definition dotChar : ascii := "."%char.

(** [s.split('/')] *)
Fixpoint splitSlash (s : string) : list string :=
  match s with
  | EmptyString => [EmptyString]
  | String c s' =>
      if Ascii.eqb c slashChar then EmptyString :: splitSlash s'
      else match splitSlash s' with
           | x :: xs => String c x :: xs
           | [] => [String c EmptyString]
           end
  end.

(** [segs.join('/')] *)
Fixpoint joinSlash (segs : list string) : string :=
  match segs with
  | [] => EmptyString
  | [x] => x
  | x :: xs => x +:+ "/" +:+ joinSlash xs
  end.

(** One segment of [normalizeString]; the stack holds the segments kept so
    far, the last one first. *)
Definition normStep (allowAboveRoot : bool) (stack : list string)
    (seg : string) : list string :=
  if String.eqb seg "" || String.eqb seg "." then stack
  else if String.eqb seg ".." then
    match stack with
    | top :: rest =>
        if String.eqb top ".."
        then (if allowAboveRoot then ".." :: stack else stack)
        else rest
    | [] => if allowAboveRoot then [".."] else []
    end
  else seg :: stack.

Definition normSegs (allowAboveRoot : bool) (segs : list string)
    : list string :=
  List.rev (fold_left (normStep allowAboveRoot) segs []).

Definition normalizeString (p : string) (allowAboveRoot : bool) : string :=
  joinSlash (normSegs allowAboveRoot (splitSlash p)).

(** [path.isAbsolute(p)] *)
Definition isAbsolute (p : string) : bool := Js.startsWith p "/".

(** [path.posix.normalize(p)] *)
Definition normalize (p : string) : string :=
  if String.eqb p "" then "."
  else
    let abs := isAbsolute p in
    let trailing := Js.endsWith p "/" in
    let q := normalizeString p (negb abs) in
    if String.eqb q "" then
      (if abs then "/" else if trailing then "./" else ".")
    else
      let q' := if trailing then q +:+ "/" else q in
      if abs then "/" +:+ q' else q'.

(** [path.join(...parts)] *)
Definition join (parts : list string) : string :=
  match List.filter Js.nonEmpty parts with
  | [] => "."
  | ps => normalize (joinSlash ps)
  end.

Fixpoint resolveAux (rparts : list string) (acc : string) : string * bool :=
  match rparts with
  | [] => (acc, false)
  | p :: ps =>
      if Js.nonEmpty p then
        let acc' := p +:+ "/" +:+ acc in
        if isAbsolute p then (acc', true) else resolveAux ps acc'
      else resolveAux ps acc
  end.

(** [path.resolve(...parts)], with the process's working directory. *)
Definition resolve (cwd : string) (parts : list string) : string :=
  let '(acc, abs) := resolveAux (List.rev parts) "" in
  let '(acc, abs) :=
    if abs then (acc, true) else (cwd +:+ "/" +:+ acc, isAbsolute cwd) in
  let q := normalizeString acc (negb abs) in
  if abs then "/" +:+ q
  else if Js.nonEmpty q then q else ".".

(** The last segment of a path, trailing slashes ignored:
    [path.basename(p)]. *)
Fixpoint lastSegment (segs : list string) : string :=
  match segs with
  | [] => EmptyString
  | x :: xs =>
      let r := lastSegment xs in
      if Js.nonEmpty r then r else x
  end.

Definition basename (p : string) : string := lastSegment (splitSlash p).

(** The loop of [path.dirname]: from index [i] down to 1, the index of the
    slash that ends the directory part, or [-1]. *)
Fixpoint dirnameEnd (rp : string) (i : nat) (matchedSlash : bool) : Z :=
  match i, rp with
  | S i', String c rp' =>
      if Ascii.eqb c slashChar then
        (if matchedSlash then dirnameEnd rp' i' matchedSlash else Z.of_nat i)
      else dirnameEnd rp' i' false
  | _, _ => -1
  end.

(** [path.dirname(p)] *)
Definition dirname (p : string) : string :=
  if String.eqb p "" then "."
  else
    let hasRoot := isAbsolute p in
    let e := dirnameEnd (Js.rev p) (String.length p - 1) true in
    if e =? -1 then (if hasRoot then "/" else ".")
    else if hasRoot && (e =? 1) then "//"
    else Js.slice p 0 (Some e).

(** [path.extname(p)]: from the last dot of the base name on; empty when
    there is no dot, when the dot opens the base name, or for [..]. *)
Definition extname (p : string) : string :=
  let b := basename p in
  let i := Js.lastIndexOf b "." in
  if (i <=? 0) || String.eqb b ".." then "" else Js.slice b i None.

(** A segment: a string without a slash. *)
Fixpoint noSlash (s : string) : bool :=
  match s with
  | EmptyString => true
  | String c s' => negb (Ascii.eqb c slashChar) && noSlash s'
  end.

(** A segment that [normalizeString] keeps as it is. *)
Definition isName (seg : string) : bool :=
  negb (String.eqb seg "" || String.eqb seg "." || String.eqb seg "..").

(** The stack of [normalizeString]: names on top of a run of [..] that is
    only there above the root. *)
Definition stackOK (allowAboveRoot : bool) (stack : list string) : Prop :=
  exists names k,
    stack = names ++ repeat ".." k
    /\ Forall (fun s => isName s = true) names
    /\ (allowAboveRoot = false -> k = 0%nat).

End Path.

(** ** Constants *)

(** special id for paths marked with [browser: false] *)
Definition browserExternalId : string := "__vite-browser-external".

(** Modelled from the spec: the constant [FS_PREFIX] of [../constants], the
    reserved prefix of explicit filesystem paths. *)
Definition FS_PREFIX : string := "/@fs/".

(** Modelled from the spec: the constant [DEFAULT_MAIN_FIELDS] of
    [../constants], the default of the [mainFields] option. *)
Definition DEFAULT_MAIN_FIELDS : list string :=
  ["module"; "jsnext:main"; "jsnext"].

(** Modelled from the spec: the constant [DEFAULT_EXTENSIONS] of
    [../constants], the default of the [extensions] option. *)
Definition DEFAULT_EXTENSIONS : list string :=
  [".mjs"; ".js"; ".mts"; ".ts"; ".jsx"; ".tsx"; ".json"].

(** ** Path utilities of the resolver *)

Definition splitFileAndPostfix (path : string) : string * string :=
  let postfixIndex := Js.indexOf path "?" in
  let postfixIndex :=
    if postfixIndex <? 0 then Js.indexOf path "#" else postfixIndex in
  if 0 <? postfixIndex
  then (Js.slice path 0 (Some postfixIndex), Js.slice path postfixIndex None)
  else (path, EmptyString).

(** The loop of [tryNodeResolve] that collects [possiblePkgIds]. Every turn
    either stops or moves [prevSlashIndex] forward, so the length of the path
    bounds the number of turns. *)
Fixpoint possiblePkgIdsLoop (fuel : nat) (nestedPath : string)
    (prevSlashIndex : Z) (possiblePkgIds : list string) : list string :=
  match fuel with
  | O => possiblePkgIds
  | S fuel' =>
      let slashIndex := Js.indexOfFrom nestedPath "/" (prevSlashIndex + 1) in
      let slashIndex :=
        if slashIndex <? 0 then Js.len nestedPath else slashIndex in
      let part := Js.slice nestedPath (prevSlashIndex + 1) (Some slashIndex) in
      if negb (Js.nonEmpty part) then possiblePkgIds
      else if (match possiblePkgIds with
               | [] => Js.firstCharIs part "@"
               | _ :: _ => Js.nonEmpty (Path.extname part)
               end)
      then possiblePkgIdsLoop fuel' nestedPath slashIndex possiblePkgIds
      else possiblePkgIdsLoop fuel' nestedPath slashIndex
             (possiblePkgIds ++ [Js.slice nestedPath 0 (Some slashIndex)])
  end.

Definition possiblePkgIdsOf (nestedPath : string) : list string :=
  possiblePkgIdsLoop (S (String.length nestedPath)) nestedPath (-1) [].

(** The split of a bare specifier at its last [>]. *)
Definition nestedRootOf (id : string) : string :=
  Js.trim (Js.substring id 0 (Js.lastIndexOf id ">")).

Definition nestedPathOf (id : string) : string :=
  Js.trim (Js.substring id (Js.lastIndexOf id ">" + 1) (Js.len id)).

(** ** Data model *)

(** An error value: its [code] property, when it has one, and its message. *)
Record JsError := mkError { err_code : option string; err_message : string }.

(** What a call of a collaborator amounts to: a value or a thrown error. *)
Inductive Completion (A : Type) : Type :=
| Returns (a : A)
| Raises (e : JsError).
Arguments Returns {A} a.
Arguments Raises {A} e.

(** A JSON value, for the payload of an [exports] object. *)
#[warnings="-register-all"]
Inductive Json : Type :=
| JNull
| JBool (b : bool)
| JNum (n : Z)
| JStr (s : string)
| JArr (xs : list Json)
| JObj (kvs : list (string * Json)).

(** The [browser] field: [string | Record<string, string | false>]. *)
Inductive BrowserVal : Type :=
| BrStr (s : string)
| BrFalse.

Inductive BrowserField : Type :=
| BrowserAbsent
| BrowserString (s : string)
| BrowserMap (m : list (string * BrowserVal)).

(** The [exports] field: [string | Record<string, any> | string[]]. *)
Inductive ExportsField : Type :=
| ExportsAbsent
| ExportsString (s : string)
| ExportsObject (o : list (string * Json))
| ExportsArray (xs : list string).

(** The parsed manifest, [PackageData['data']]: the two structured fields and
    the string-valued ones ([main], [module], [jsnext:main], ...). *)
Record PkgJson := mkPkgJson {
  pj_exports : ExportsField;
  pj_browser : BrowserField;
  pj_fields : list (string * string)
}.

Fixpoint assocString (k : string) (kvs : list (string * string))
    : option string :=
  match kvs with
  | [] => None
  | (k', v) :: rest => if String.eqb k' k then Some v else assocString k rest
  end.

(** [data[field]] when [typeof data[field] === 'string']. *)
Definition dataString (d : PkgJson) (field : string) : option string :=
  if String.eqb field "browser" then
    match pj_browser d with BrowserString s => Some s | _ => None end
  else if String.eqb field "exports" then
    match pj_exports d with ExportsString s => Some s | _ => None end
  else assocString field (pj_fields d).

(** Truthiness of [data.exports]. *)
Definition exportsTruthy (e : ExportsField) : bool :=
  match e with
  | ExportsAbsent => false
  | ExportsString s => Js.nonEmpty s
  | ExportsObject _ | ExportsArray _ => true
  end.

(** [isObject(exportsField) && !Array.isArray(exportsField)] *)
Definition exportsIsPlainObject (e : ExportsField) : bool :=
  match e with ExportsObject _ => true | _ => false end.

(** [isObject(data.browser)] *)
Definition browserIsObject (b : BrowserField) : bool :=
  match b with BrowserMap _ => true | _ => false end.

(** The package handle. [pkg_handle] is the identity of the JavaScript object:
    two handles with the same identity share their resolved caches. *)
Record PackageData := mkPackageData {
  pkg_handle : nat;
  pkg_dir : string;
  pkg_data : PkgJson;
  pkg_hasSideEffects : string -> bool
}.

(** [PartialResolvedId], with the properties the resolver sets. *)
Record PartialResolvedId := mkResolved {
  pr_id : string;
  pr_external : option bool;
  pr_moduleSideEffects : option bool
}.

(** What [resolveId] hands to the plugin host. *)
Inductive ResolutionResult : Type :=
| ResUndefined
| ResNull
| ResString (s : string)
| ResRecord (r : PartialResolvedId).

(** The optimizer's views. *)
Record DepInfo := mkDepInfo {
  di_id : string;
  di_file : string;
  di_src : option string;
  di_browserHash : option string
}.

Record DepMetadata := mkDepMetadata {
  md_browserHash : option string;
  md_depInfoList : list DepInfo
}.

Record DepsOptimizer := mkDepsOptimizer {
  isOptimizedDepUrl : string -> bool;
  isOptimizedDepFile : string -> bool;
  metadata : bool -> option DepMetadata;
  optimizer_exclude : option (list string);
  registerMissingImport : string -> string -> bool -> DepInfo;
  getOptimizedDepId : DepInfo -> string
}.

(** [ssr.noExternal]: unset, [true], or a list of patterns. *)
Inductive NoExternal : Type :=
| NoExternalUnset
| NoExternalTrue
| NoExternalList (patterns : list string).

Record SSROptions := mkSSROptions {
  ssr_target : option string;
  ssr_noExternal : NoExternal
}.

(** [InternalResolveOptions]. The one property the resolver assigns to after
    the object is built, [skipPackageJson], lives in the state; the record
    holds the value the object is created with. *)
Record InternalResolveOptions := mkOptions {
  o_root : string;
  o_isBuild : bool;
  o_isProduction : bool;
  o_ssrConfig : option SSROptions;
  o_asSrc : bool;
  o_tryPrefix : option string;
  o_skipPackageJson : bool;
  o_preferRelative : bool;
  o_preserveSymlinks : bool;
  o_isRequire : option bool;
  o_isFromTsImporter : bool;
  o_tryEsmOnly : bool;
  o_scan : option bool;
  o_mainFields : option (list string);
  o_conditions : option (list string);
  o_extensions : option (list string);
  o_dedupe : option (list string);
  o_getDepsOptimizer : option DepsOptimizer;
  o_shouldExternalize : option (string -> option bool)
}.

(** The third argument of the [resolveId] hook. *)
Record ResolveIdOptions := mkResolveIdOptions {
  ro_ssr : option bool;
  ro_scan : option bool;
  ro_isRequire : option bool
}.

(** ** Collaborators

    Everything the resolver imports and this file does not define: the
    working directory, [node:fs], [path.relative], the helpers of [../utils],
    the regular expressions of [../constants], the manifest loader of
    [../packages], the lookups of [../optimizer], the [resolve.exports]
    library and the plugin context. *)
Record Env := mkEnv {
  cwd : string;
  existsSync : string -> bool;
  isDirectory : string -> bool;
  realpathSync : string -> string;
  readFileSync : string -> Completion string;
  path_relative : string -> string -> string;
  isFileReadable : string -> bool;
  cleanUrl : string -> string;
  isTsRequest : string -> bool;
  isPossibleTsOutput : string -> bool;
  getPotentialTsSrcPaths : string -> list string;
  injectQuery : string -> string -> string;
  fsPathFromId : string -> string;
  isBuiltin : string -> bool;
  isExternalUrl : string -> bool;
  isDataUrl : string -> bool;
  bareImportRE : string -> bool;
  slash : string -> string;
  nestedResolveFrom : string -> string -> bool -> string;
  resolveFrom : string -> string -> Completion string;
  DEP_VERSION_RE : string -> bool;
  OPTIMIZABLE_ENTRY_RE : string -> bool;
  SPECIAL_QUERY_RE : string -> bool;
  loadPackageData : string -> bool -> Completion PackageData;
  resolvePackageData : string -> string -> bool -> option PackageData;
  optimizedDepInfoFromFile : option DepMetadata -> string -> option DepInfo;
  optimizedDepInfoFromId : DepMetadata -> string -> option DepInfo;
  _resolveExports :
    PkgJson -> string -> bool -> option bool -> list string ->
    Completion (option string);
  getModuleLang : string -> option string
}.

(** [normalizePath] and [ensureVolumeInPath] of [../utils], off Windows. *)
Definition normalizePath (p : string) : string := Path.normalize p.
Definition ensureVolumeInPath (p : string) : string := p.

(** ** State and effects *)

(** The mutable state the resolver works on: the resolved caches of the
    package handles, [idToPkgMap], and the [skipPackageJson] property of the
    options object in use. *)
Record State := mkState {
  webResolvedImports : gmap (nat * string) string;
  nodeResolvedImports : gmap (nat * string) string;
  idToPkgMap : gmap string PackageData;
  skipPackageJson : bool
}.

Definition emptyState : State :=
  {| webResolvedImports := ∅; nodeResolvedImports := ∅;
     idToPkgMap := ∅; skipPackageJson := false |}.

(** How a run ends: with a value, with a thrown error, or because the bound
    on the depth of the calls was reached. *)
Inductive Outcome (A : Type) : Type :=
| Ok (a : A)
| Throw (e : JsError)
| OutOfFuel.
Arguments Ok {A} a.
Arguments Throw {A} e.
Arguments OutOfFuel {A}.

Definition M (A : Type) : Type := State -> Outcome A * State.

Definition ret {A} (a : A) : M A := fun st => (Ok a, st).

Definition bind {A B} (m : M A) (k : A -> M B) : M B :=
  fun st =>
    match m st with
    | (Ok a, st') => k a st'
    | (Throw e, st') => (Throw e, st')
    | (OutOfFuel, st') => (OutOfFuel, st')
    end.

Definition throw {A} (e : JsError) : M A := fun st => (Throw e, st).

Definition outOfFuel {A} : M A := fun st => (OutOfFuel, st).

(** [try { m } catch (e) { h e }] *)
Definition tryCatch {A} (m : M A) (h : JsError -> M A) : M A :=
  fun st =>
    match m st with
    | (Throw e, st') => h e st'
    | r => r
    end.

Definition lift {A} (c : Completion A) : M A :=
  match c with
  | Returns a => ret a
  | Raises e => throw e
  end.

Definition gets {A} (f : State -> A) : M A := fun st => (Ok (f st), st).

Definition modify (f : State -> State) : M unit := fun st => (Ok tt, f st).

Notation "'let*' x ':=' m 'in' k" := (bind m (fun x => k))
  (at level 10, x name, m at level 100, k at level 200, only parsing).

(** [new Error(message)] *)
Definition newError (message : string) : JsError :=
  {| err_code := None; err_message := message |}.

(** Modelled from the spec: [getResolvedCache] and [setResolvedCache] of the
    package handle ([../packages]), the per-package mappings from subpath key
    to resolved file, partitioned by [targetWeb]. *)
Definition getResolvedCache (pkg : PackageData) (key : string)
    (targetWeb : bool) : M (option string) :=
  gets (fun st =>
    if targetWeb then webResolvedImports st !! (pkg_handle pkg, key)
    else nodeResolvedImports st !! (pkg_handle pkg, key)).

Definition setWebResolved (pkg : PackageData) (key entry : string)
    (st : State) : State :=
  {| webResolvedImports := <[(pkg_handle pkg, key) := entry]> (webResolvedImports st);
     nodeResolvedImports := nodeResolvedImports st;
     idToPkgMap := idToPkgMap st;
     skipPackageJson := skipPackageJson st |}.

Definition setNodeResolved (pkg : PackageData) (key entry : string)
    (st : State) : State :=
  {| webResolvedImports := webResolvedImports st;
     nodeResolvedImports := <[(pkg_handle pkg, key) := entry]> (nodeResolvedImports st);
     idToPkgMap := idToPkgMap st;
     skipPackageJson := skipPackageJson st |}.

Definition setResolvedCache (pkg : PackageData) (key entry : string)
    (targetWeb : bool) : M unit :=
  modify (if targetWeb then setWebResolved pkg key entry
          else setNodeResolved pkg key entry).

(** [idToPkgMap.set(file, pkg)] *)
Definition idToPkgMap_set (file : string) (pkg : PackageData) : M unit :=
  modify (fun st =>
    {| webResolvedImports := webResolvedImports st;
       nodeResolvedImports := nodeResolvedImports st;
       idToPkgMap := <[file := pkg]> (idToPkgMap st);
       skipPackageJson := skipPackageJson st |}).

(** [options.skipPackageJson = b] *)
Definition setSkipPackageJson (b : bool) : M unit :=
  modify (fun st =>
    {| webResolvedImports := webResolvedImports st;
       nodeResolvedImports := nodeResolvedImports st;
       idToPkgMap := idToPkgMap st;
       skipPackageJson := b |}).

(** A call that is handed a copy of the options object: what the callee
    assigns to the copy is gone when the call is over. *)
Definition withOptionsCopy {A} (m : M A) : M A :=
  fun st =>
    let '(r, st') := m st in
    (r, {| webResolvedImports := webResolvedImports st';
           nodeResolvedImports := nodeResolvedImports st';
           idToPkgMap := idToPkgMap st';
           skipPackageJson := skipPackageJson st |}).

(** ** The resolver *)

(** A [for ... of] loop whose body returns from the function as soon as it
    has a truthy result. *)
Fixpoint firstTruthy {A} (f : A -> M (option string)) (l : list A)
    : M (option string) :=
  match l with
  | [] => ret None
  | x :: xs =>
      let* res := f x in
      if Js.truthy res then ret res else firstTruthy f xs
  end.

Definition isTrue (o : option bool) : bool :=
  match o with Some true => true | _ => false end.

Definition isENOENT (e : JsError) : bool :=
  match err_code e with
  | Some c => String.eqb c "ENOENT"
  | None => false
  end.

Definition equalWithoutSuffix (path key suffix : string) : bool :=
  Js.endsWith key suffix
  && String.eqb (Js.slice key 0 (Some (- Js.len suffix))) path.

Fixpoint mapWithBrowserFieldLoop (normalizedPath : string)
    (map : list (string * BrowserVal)) : option BrowserVal :=
  match map with
  | [] => None
  | (key, v) :: rest =>
      let normalizedKey := Path.normalize key in
      if String.eqb normalizedPath normalizedKey
         || equalWithoutSuffix normalizedPath normalizedKey ".js"
         || equalWithoutSuffix normalizedPath normalizedKey "/index.js"
      then Some v
      else mapWithBrowserFieldLoop normalizedPath rest
  end.

(** [None]: no browser mapping for this id; [Some BrFalse]: the id is
    explicitly externalized for the browser. *)
Definition mapWithBrowserField (relativePathInPkgDir : string)
    (map : list (string * BrowserVal)) : option BrowserVal :=
  mapWithBrowserFieldLoop (Path.normalize relativePathInPkgDir) map.

(** [map[key]] *)
Fixpoint browserLookup (key : string) (map : list (string * BrowserVal))
    : option BrowserVal :=
  match map with
  | [] => None
  | (k, v) :: rest => if String.eqb k key then Some v else browserLookup key rest
  end.

(** The string a browser mapping gives, when it is a truthy one. *)
Definition mappedString (v : option BrowserVal) : option string :=
  match v with
  | Some (BrStr s) => if Js.nonEmpty s then Some s else None
  | _ => None
  end.

(** [/typeof exports\s*==/.test(c) && /typeof module\s*==/.test(c)
    || /module\.exports\s*=/.test(c)] *)
Definition looksLikeUmdOrCjs (content : string) : bool :=
  (Js.testLitSpaces "typeof exports" "==" content
   && Js.testLitSpaces "typeof module" "==" content)
  || Js.testLitSpaces "module.exports" "=" content.

(** [for (const field of fields) if (typeof data[field] === 'string') ...] *)
Fixpoint firstStringField (data : PkgJson) (fields : list string)
    : option string :=
  match fields with
  | [] => None
  | field :: rest =>
      match dataString data field with
      | Some v => Some v
      | None => firstStringField data rest
      end
  end.

Definition endsWithMjs (entryPoint : option string) : bool :=
  match entryPoint with
  | Some s => Js.endsWith s ".mjs"
  | None => false
  end.

Definition packageEntryFailure {A} (id : string) (details : option string)
    : M A :=
  throw (newError
    ("Failed to resolve entry for package " +:+ Js.dquote +:+ id
     +:+ Js.dquote +:+ ". "
     +:+ "The package may have incorrect main/module/exports specified in its package.json"
     +:+ match details with
         | Some d => if Js.nonEmpty d then ": " +:+ d else "."
         | None => "."
         end)).

(** The options of the retry of [tryNodeResolve] under [tryEsmOnly]. *)
Definition esmOnlyOptions (o : InternalResolveOptions)
    : InternalResolveOptions :=
  {| o_root := o_root o; o_isBuild := o_isBuild o;
     o_isProduction := o_isProduction o; o_ssrConfig := o_ssrConfig o;
     o_asSrc := o_asSrc o; o_tryPrefix := o_tryPrefix o;
     o_skipPackageJson := o_skipPackageJson o;
     o_preferRelative := o_preferRelative o;
     o_preserveSymlinks := o_preserveSymlinks o;
     o_isRequire := Some false;
     o_isFromTsImporter := o_isFromTsImporter o;
     o_tryEsmOnly := o_tryEsmOnly o; o_scan := o_scan o;
     o_mainFields := Some DEFAULT_MAIN_FIELDS;
     o_conditions := o_conditions o;
     o_extensions := Some DEFAULT_EXTENSIONS;
     o_dedupe := o_dedupe o; o_getDepsOptimizer := o_getDepsOptimizer o;
     o_shouldExternalize := o_shouldExternalize o |}.

(** The options object [resolveId] builds for one call. *)
Definition callOptions (o : InternalResolveOptions) (isRequire : bool)
    (scan : option bool) (isFromTsImporter : bool) : InternalResolveOptions :=
  {| o_root := o_root o; o_isBuild := o_isBuild o;
     o_isProduction := o_isProduction o; o_ssrConfig := o_ssrConfig o;
     o_asSrc := o_asSrc o; o_tryPrefix := o_tryPrefix o;
     o_skipPackageJson := o_skipPackageJson o;
     o_preferRelative := o_preferRelative o;
     o_preserveSymlinks := o_preserveSymlinks o;
     o_isRequire :=
       match o_isRequire o with Some b => Some b | None => Some isRequire end;
     o_isFromTsImporter := isFromTsImporter;
     o_tryEsmOnly := o_tryEsmOnly o; o_scan := scan;
     o_mainFields := o_mainFields o; o_conditions := o_conditions o;
     o_extensions := o_extensions o; o_dedupe := o_dedupe o;
     o_getDepsOptimizer := o_getDepsOptimizer o;
     o_shouldExternalize := o_shouldExternalize o |}.

Section Resolver.

Context (E : Env).

Definition getRealPath (resolved : string) (preserveSymlinks : bool)
    : string :=
  let resolved := ensureVolumeInPath resolved in
  let resolved :=
    if negb preserveSymlinks && negb (String.eqb browserExternalId resolved)
    then realpathSync E resolved else resolved in
  normalizePath resolved.

Definition resolveExports (pkg : PkgJson) (key : string)
    (options : InternalResolveOptions) (targetWeb : bool)
    : M (option string) :=
  let conditions :=
    [if o_isProduction options then "production" else "development"] in
  let conditions :=
    if negb (isTrue (o_isRequire options))
    then conditions ++ ["module"] else conditions in
  let conditions :=
    match o_conditions options with
    | Some cs => conditions ++ cs
    | None => conditions
    end in
  lift (_resolveExports E pkg key targetWeb (o_isRequire options) conditions).

(** *** The filesystem probe and the entry-point resolver

    [tryFsResolve], [tryResolveFile] and [resolvePackageEntry] call one
    another; each body takes the functions it calls, and the three are tied
    together below by recursion on a bound on the depth of the calls. *)

Definition FsResolve : Type :=
  string -> InternalResolveOptions -> bool -> bool -> M (option string).
Definition ResolveFile : Type :=
  string -> string -> InternalResolveOptions -> bool -> bool ->
  option string -> bool -> M (option string).
Definition PkgResolve : Type :=
  string -> PackageData -> bool -> InternalResolveOptions ->
  M (option string).

Definition tryFsResolve_body (tryResolveFile : ResolveFile)
    (fsPath : string) (options : InternalResolveOptions)
    (tryIndex targetWeb : bool) : M (option string) :=
  let '(file, postfix) := splitFileAndPostfix fsPath in
  let probe (file postfix : string) (tryIndex : bool) : M (option string) :=
    let* skip := gets skipPackageJson in
    tryResolveFile file postfix options tryIndex targetWeb
      (o_tryPrefix options) skip in
  let* res :=
    if Js.nonEmpty postfix then probe fsPath "" false else ret None in
  if Js.truthy res then ret res else
  let* res := probe file postfix false in
  if Js.truthy res then ret res else
  let* res :=
    firstTruthy (fun ext =>
      let* res :=
        if Js.nonEmpty postfix then probe (fsPath +:+ ext) "" false
        else ret None in
      if Js.truthy res then ret res else
      probe (file +:+ ext) postfix false)
      (default DEFAULT_EXTENSIONS (o_extensions options)) in
  if Js.truthy res then ret res else
  let* res :=
    if Js.nonEmpty postfix then probe fsPath "" tryIndex else ret None in
  if Js.truthy res then ret res else
  let* res := probe file postfix tryIndex in
  if Js.truthy res then ret res else ret None.

(** The first block of [tryResolveFile]: what the function returns when
    [file] is readable, [None] when it goes on to the fallbacks. *)
Definition tryResolveFile_readable (tryFsResolve : FsResolve)
    (resolvePackageEntry : PkgResolve)
    (file postfix : string) (options : InternalResolveOptions)
    (tryIndex targetWeb : bool) (skipPackageJson : bool)
    : M (option (option string)) :=
  if isFileReadable E file then
    if negb (isDirectory E file) then
      ret (Some (Some
        (getRealPath file (o_preserveSymlinks options) +:+ postfix)))
    else if tryIndex then
      let* viaPackage :=
        if negb skipPackageJson then
          let pkgPath := file +:+ "/package.json" in
          tryCatch
            ((* path points to a node package *)
             let* pkg :=
               lift (loadPackageData E pkgPath (o_preserveSymlinks options)) in
             let* resolved :=
               resolvePackageEntry file pkg targetWeb options in
             ret (Some resolved))
            (fun e => if negb (isENOENT e) then throw e else ret None)
        else ret None in
      match viaPackage with
      | Some resolved => ret (Some resolved)
      | None =>
          let* index := tryFsResolve (file +:+ "/index") options true true in
          match index with
          | Some i =>
              if Js.nonEmpty i then ret (Some (Some (i +:+ postfix)))
              else ret None
          | None => ret None
          end
      end
    else ret None
  else ret None.

Definition tryResolveFile_body (tryFsResolve : FsResolve)
    (resolvePackageEntry : PkgResolve) (tryResolveFile : ResolveFile)
    (file postfix : string) (options : InternalResolveOptions)
    (tryIndex targetWeb : bool) (tryPrefix : option string)
    (skipPackageJson : bool) : M (option string) :=
  let* returned :=
    tryResolveFile_readable tryFsResolve resolvePackageEntry file postfix
      options tryIndex targetWeb skipPackageJson in
  match returned with
  | Some r => ret r
  | None =>
      let tryTsExtension :=
        o_isFromTsImporter options && isPossibleTsOutput E file in
      if tryTsExtension then
        let tsSrcPaths := getPotentialTsSrcPaths E file in
        firstTruthy (fun srcPath =>
          tryResolveFile srcPath postfix options tryIndex targetWeb
            tryPrefix skipPackageJson) tsSrcPaths
      else
        match tryPrefix with
        | Some prefix =>
            if Js.nonEmpty prefix then
              let prefixed :=
                Path.dirname file +:+ "/" +:+ prefix +:+ Path.basename file in
              tryResolveFile prefixed postfix options tryIndex targetWeb
                None false
            else ret None
        | None => ret None
        end
  end.

Definition resolvePackageEntry_body (tryFsResolve : FsResolve)
    (id : string) (pkg : PackageData) (targetWeb : bool)
    (options : InternalResolveOptions) : M (option string) :=
  let dir := pkg_dir pkg in
  let data := pkg_data pkg in
  let* cached := getResolvedCache pkg "." targetWeb in
  if Js.truthy cached then ret cached else
  let* returned :=
    tryCatch
      (let* entryPoint :=
         (* resolve exports field with highest priority *)
         if exportsTruthy (pj_exports data)
         then resolveExports data "." options targetWeb
         else ret None in
       let* entryPoint :=
         if targetWeb && (negb (Js.truthy entryPoint) || endsWithMjs entryPoint)
         then
           (* check browser field *)
           let browserEntry :=
             match pj_browser data with
             | BrowserString s => Some s
             | BrowserMap m => mappedString (browserLookup "." m)
             | BrowserAbsent => None
             end in
           match browserEntry with
           | Some b =>
               if Js.nonEmpty b then
                 if negb (isTrue (o_isRequire options))
                    && match dataString data "module" with
                       | Some m => negb (String.eqb m b)
                       | None => false
                       end
                 then
                   let* resolvedBrowserEntry :=
                     tryFsResolve (Path.join [dir; b]) options true true in
                   match resolvedBrowserEntry with
                   | Some rb =>
                       if Js.nonEmpty rb then
                         let* content := lift (readFileSync E rb) in
                         if looksLikeUmdOrCjs content
                         then ret (dataString data "module")
                         else ret entryPoint
                       else ret entryPoint
                   | None => ret entryPoint
                   end
                 else ret (Some b)
               else ret entryPoint
           | None => ret entryPoint
           end
         else ret entryPoint in
       let entryPoint :=
         if negb (Js.truthy entryPoint) || endsWithMjs entryPoint then
           match firstStringField data
                   (default DEFAULT_MAIN_FIELDS (o_mainFields options)) with
           | Some v => Some v
           | None => entryPoint
           end
         else entryPoint in
       let entryPoint :=
         if Js.truthy entryPoint then entryPoint else dataString data "main" in
       (* try default entry when entry is not define *)
       let entryPoints :=
         match entryPoint with
         | Some e =>
             if Js.nonEmpty e then [e]
             else ["index.js"; "index.json"; "index.node"]
         | None => ["index.js"; "index.json"; "index.node"]
         end in
       firstTruthy (fun entry =>
         (* make sure we don't get scripts when looking for sass *)
         let sass :=
           match o_mainFields options with
           | Some (f :: _) => String.eqb f "sass"
           | _ => false
           end
           && negb match o_extensions options with
                   | Some exts =>
                       existsb (String.eqb (Path.extname entry)) exts
                   | None => false
                   end in
         let* _ := if sass then setSkipPackageJson true else ret tt in
         let entry := if sass then "" else entry in
         (* resolve object browser field in package.json *)
         let entry :=
           match pj_browser data with
           | BrowserMap browserField =>
               if targetWeb then
                 default entry
                   (mappedString (mapWithBrowserField entry browserField))
               else entry
           | _ => entry
           end in
         let entryPointPath := Path.join [dir; entry] in
         let* resolvedEntryPoint :=
           tryFsResolve entryPointPath options true true in
         match resolvedEntryPoint with
         | Some r =>
             if Js.nonEmpty r then
               let* _ := setResolvedCache pkg "." r targetWeb in
               ret (Some r)
             else ret None
         | None => ret None
         end) entryPoints)
      (fun e => packageEntryFailure id (Some (err_message e))) in
  if Js.truthy returned then ret returned
  else packageEntryFailure id None.

Fixpoint tryFsResolve (fuel : nat) : FsResolve :=
  match fuel with
  | O => fun _ _ _ _ => outOfFuel
  | S fuel' => tryFsResolve_body (tryResolveFile fuel')
  end
with tryResolveFile (fuel : nat) : ResolveFile :=
  match fuel with
  | O => fun _ _ _ _ _ _ _ => outOfFuel
  | S fuel' =>
      tryResolveFile_body (tryFsResolve fuel') (resolvePackageEntry fuel')
        (tryResolveFile fuel')
  end
with resolvePackageEntry (fuel : nat) : PkgResolve :=
  match fuel with
  | O => fun _ _ _ _ => outOfFuel
  | S fuel' => resolvePackageEntry_body (tryFsResolve fuel')
  end.

(** *** The deep-import resolver *)

Definition subpathNotDefined {A} (relativeId : option string) (dir : string)
    : M A :=
  throw (newError
    ("Package subpath '" +:+ Js.display relativeId
     +:+ "' is not defined by " +:+ Js.dquote +:+ "exports" +:+ Js.dquote
     +:+ " in " +:+ Path.join [dir; "package.json"] +:+ ".")).

Definition resolveDeepImport (fuel : nat) (id : string) (pkg : PackageData)
    (targetWeb : bool) (options : InternalResolveOptions)
    : M (option string) :=
  let dir := pkg_dir pkg in
  let data := pkg_data pkg in
  let* cache := getResolvedCache pkg id targetWeb in
  if Js.truthy cache then ret cache else
  let relativeId := Some id in
  let exportsField := pj_exports data in
  let browserField := pj_browser data in
  (* [inl r]: the function returns [r]; [inr relativeId]: it goes on *)
  let* mapped :=
    if exportsTruthy exportsField then
      (* map relative based on exports data *)
      let* relativeId :=
        if exportsIsPlainObject exportsField then
          (* resolve without postfix (see #7098) *)
          let '(file, postfix) := splitFileAndPostfix id in
          let* exportsId := resolveExports data file options targetWeb in
          match exportsId with
          | Some e => ret (Some (e +:+ postfix))
          | None => ret None
          end
        else
          (* not exposed *)
          ret None in
      if negb (Js.truthy relativeId) then subpathNotDefined relativeId dir
      else ret (inr relativeId)
    else
      match browserField with
      | BrowserMap m =>
          if targetWeb then
            (* resolve without postfix (see #7098) *)
            let '(file, postfix) := splitFileAndPostfix id in
            match mapWithBrowserField file m with
            | Some (BrStr s) =>
                if Js.nonEmpty s then ret (inr (Some (s +:+ postfix)))
                else ret (inr relativeId)
            | Some BrFalse =>
                let* _ := modify (setWebResolved pkg id browserExternalId) in
                ret (inl (Some browserExternalId))
            | None => ret (inr relativeId)
            end
          else ret (inr relativeId)
      | _ => ret (inr relativeId)
      end in
  match mapped with
  | inl r => ret r
  | inr relativeId =>
      match relativeId with
      | Some rel =>
          if Js.nonEmpty rel then
            let* resolved :=
              tryFsResolve fuel (Path.join [dir; rel]) options
                (negb (exportsTruthy exportsField)) (* try index only if no exports field *)
                targetWeb in
            match resolved with
            | Some r =>
                if Js.nonEmpty r then
                  let* _ := setResolvedCache pkg id r targetWeb in
                  ret (Some r)
                else ret None
            | None => ret None
            end
          else ret None
      | None => ret None
      end
  end.

(** *** The browser-field mapping of an importer's package *)

Definition tryResolveBrowserMapping (fuel : nat) (id : string)
    (importer : option string) (options : InternalResolveOptions)
    (isFilePath : bool) (externalize : option bool) : M ResolutionResult :=
  let* pkg :=
    match importer with
    | Some i =>
        if Js.nonEmpty i then gets (fun st => idToPkgMap st !! i)
        else ret None
    | None => ret None
    end in
  match pkg with
  | Some pkg =>
      match pj_browser (pkg_data pkg) with
      | BrowserMap browser =>
          let mapId :=
            if isFilePath
            then "./" +:+ slash E (path_relative E (pkg_dir pkg) id)
            else id in
          match mapWithBrowserField mapId browser with
          | Some (BrStr browserMappedPath) =>
              if Js.nonEmpty browserMappedPath then
                let fsPath := Path.join [pkg_dir pkg; browserMappedPath] in
                let* res := tryFsResolve fuel fsPath options true true in
                match res with
                | Some r =>
                    if Js.nonEmpty r then
                      let* _ := idToPkgMap_set r pkg in
                      let result :=
                        {| pr_id := r; pr_external := None;
                           pr_moduleSideEffects :=
                             Some (pkg_hasSideEffects pkg r) |} in
                      ret (ResRecord
                        (if isTrue externalize
                         then {| pr_id := r; pr_external := Some true;
                                 pr_moduleSideEffects :=
                                   Some (pkg_hasSideEffects pkg r) |}
                         else result))
                    else ret ResUndefined
                | None => ret ResUndefined
                end
              else ret ResUndefined
          | Some BrFalse => ret (ResString browserExternalId)
          | None => ret ResUndefined
          end
      | _ => ret ResUndefined
      end
  | None => ret ResUndefined
  end.

(** *** The bare-import resolver *)

(** [possiblePkgIds.reverse().find(pkgId => (pkg = resolvePackageData(...)))] *)
Fixpoint findPackage (pkgIds : list string) (basedir : string)
    (preserveSymlinks : bool) : option (string * PackageData) :=
  match pkgIds with
  | [] => None
  | pkgId :: rest =>
      match resolvePackageData E pkgId basedir preserveSymlinks with
      | Some pkg => Some (pkgId, pkg)
      | None => findPackage rest basedir preserveSymlinks
      end
  end.

(** [/(.js|.mjs|.cjs)$/]: the dots stand for any character but a line
    terminator. *)
Definition notLineTerminator (s : string) : bool :=
  match s with
  | String c _ =>
      negb ((nat_of_ascii c =? 10)%nat || (nat_of_ascii c =? 13)%nat)
  | EmptyString => false
  end.

Definition matchesJsLikeEnding (s : string) : bool :=
  let n := String.length s in
  let tailFrom (k : nat) := Js.drop (n - k) s in
  ((3 <=? n) && notLineTerminator (tailFrom 3)
   && String.eqb (tailFrom 2) "js")%nat
  || ((4 <=? n) && notLineTerminator (tailFrom 4)
      && (String.eqb (tailFrom 3) "mjs" || String.eqb (tailFrom 3) "cjs"))%nat.

Definition listIncludes (l : option (list string)) (x : string) : bool :=
  match l with
  | Some xs => existsb (String.eqb x) xs
  | None => false
  end.

Definition typeError {A} (message : string) : M A :=
  throw (newError message).

Definition tryNodeResolve (fuel : nat) (id : string)
    (importer : option string) (options : InternalResolveOptions)
    (targetWeb : bool) (depsOptimizer : option DepsOptimizer)
    (ssr : option bool) (externalize : option bool)
    : M (option PartialResolvedId) :=
  let root := o_root options in
  let isBuild := o_isBuild options in
  let preserveSymlinks := o_preserveSymlinks options in
  let ssr := default false ssr in
  (* split id by last '>' for nested selected packages *)
  let nestedRoot := nestedRootOf id in
  let nestedPath := nestedPathOf id in
  let possiblePkgIds := possiblePkgIdsOf nestedPath in
  let basedir :=
    if match o_dedupe options with
       | Some dedupe =>
           existsb (fun d => existsb (String.eqb d) possiblePkgIds) dedupe
       | None => false
       end
    then root
    else
      match importer with
      | Some i =>
          if Js.nonEmpty i && Path.isAbsolute i && existsSync E (cleanUrl E i)
          then Path.dirname i else root
      | None => root
      end in
  (* nested node module, step-by-step resolve to the basedir of the nestedPath *)
  let basedir :=
    if Js.nonEmpty nestedRoot
    then nestedResolveFrom E nestedRoot basedir preserveSymlinks
    else basedir in
  match findPackage (List.rev possiblePkgIds) basedir preserveSymlinks with
  | None => ret None
  | Some (pkgId, pkg) =>
      let isDeepImport := negb (String.eqb pkgId nestedPath) in
      let resolveId :=
        if isDeepImport then resolveDeepImport fuel
        else resolvePackageEntry fuel in
      let unresolvedId :=
        if isDeepImport
        then "." +:+ Js.slice nestedPath (Js.len pkgId) None
        else pkgId in
      let* resolved :=
        tryCatch (resolveId unresolvedId pkg targetWeb options)
          (fun err =>
             if negb (o_tryEsmOnly options) then throw err else ret None) in
      let* resolved :=
        if negb (Js.truthy resolved) && o_tryEsmOnly options then
          withOptionsCopy
            (resolveId unresolvedId pkg targetWeb (esmOnlyOptions options))
        else ret resolved in
      match resolved with
      | None => ret None
      | Some resolved =>
      if negb (Js.nonEmpty resolved) then ret None else
      let processResult (resolved : PartialResolvedId)
          : option PartialResolvedId :=
        if negb (isTrue externalize) then Some resolved
        else
          let resolvedExt := Path.extname (pr_id resolved) in
          let external (resolvedId : string) :=
            Some {| pr_id := resolvedId; pr_external := Some true;
                    pr_moduleSideEffects := pr_moduleSideEffects resolved |} in
          if isDeepImport then
            (* check ext before externalizing - only externalize
               extension-less imports and explicit .js imports *)
            if Js.nonEmpty resolvedExt
               && negb (matchesJsLikeEnding (pr_id resolved))
            then None
            else if negb (exportsTruthy (pj_exports (pkg_data pkg)))
                    && negb (String.eqb (Path.extname id) resolvedExt)
            then external (id +:+ resolvedExt)
            else external id
          else external id in
      (* link id to pkg for browser field mapping check *)
      let* _ := idToPkgMap_set resolved pkg in
      if (isBuild && negb (bool_decide (is_Some depsOptimizer)))
         || isTrue externalize
      then
        (* Resolve package side effects for build so that rollup can better
           perform tree-shaking *)
        ret (processResult
               {| pr_id := resolved; pr_external := None;
                  pr_moduleSideEffects :=
                    Some (pkg_hasSideEffects pkg resolved) |})
      else
        match depsOptimizer with
        | None =>
            ret (Some {| pr_id := resolved; pr_external := None;
                         pr_moduleSideEffects := None |})
        | Some optimizer =>
            if negb (Js.includes resolved "node_modules") (* linked *)
               || isTrue (o_scan options) (* initial esbuild scan phase *)
            then ret (Some {| pr_id := resolved; pr_external := None;
                              pr_moduleSideEffects := None |})
            else
              (* a valid dep import that hasn't been optimized *)
              let isJsType := OPTIMIZABLE_ENTRY_RE E resolved in
              let exclude := optimizer_exclude optimizer in
              let* resolved :=
                if negb isJsType
                   || match importer with
                      | Some i => Js.includes i "node_modules"
                      | None => false
                      end
                   || listIncludes exclude pkgId
                   || listIncludes exclude nestedPath
                   || SPECIAL_QUERY_RE E resolved
                   || (negb isBuild && ssr)
                then
                  (* excluded from optimization *)
                  if negb isBuild then
                    match metadata optimizer ssr with
                    | Some md =>
                        match md_browserHash md with
                        | Some versionHash =>
                            if Js.nonEmpty versionHash && isJsType
                            then ret (injectQuery E resolved
                                        ("v=" +:+ versionHash))
                            else ret resolved
                        | None => ret resolved
                        end
                    | None =>
                        typeError
                          "Cannot read properties of undefined (reading 'browserHash')"
                    end
                  else ret resolved
                else
                  (* this is a missing import, queue optimize-deps re-run *)
                  let optimizedInfo :=
                    registerMissingImport optimizer id resolved ssr in
                  ret (getOptimizedDepId optimizer optimizedInfo) in
              if isBuild then
                ret (Some {| pr_id := resolved; pr_external := None;
                             pr_moduleSideEffects :=
                               Some (pkg_hasSideEffects pkg resolved) |})
              else
                ret (Some {| pr_id := resolved; pr_external := None;
                             pr_moduleSideEffects := None |})
        end
      end
  end.

(** *** Resolution against the optimizer's metadata *)

(** The loop over [metadata.depInfoList]: the check whether [id] is
    imported by a nested dependency. *)
Fixpoint nestedDependencyLoop (depsOptimizer : DepsOptimizer)
    (id importer : string) (resolvedSrc : option string)
    (depInfoList : list DepInfo) : option string :=
  match depInfoList with
  | [] => None
  | optimizedData :: rest =>
      if negb (Js.truthy (di_src optimizedData)) (* Ignore chunks *)
      then nestedDependencyLoop depsOptimizer id importer resolvedSrc rest
      else
        let pkgPath := di_id optimizedData in
        if negb (Js.endsWith pkgPath id)
        then nestedDependencyLoop depsOptimizer id importer resolvedSrc rest
        else
          (* lazily initialize resolvedSrc *)
          let initialized :=
            match resolvedSrc with
            | Some r => Returns r
            | None =>
                match resolveFrom E id (Path.dirname importer) with
                | Returns r => Returns (normalizePath r)
                | Raises e => Raises e
                end
            end in
          match initialized with
          | Raises _ => None (* this is best-effort only so swallow errors *)
          | Returns r =>
              (* match by src to correctly identify if id belongs to
                 nested dependency *)
              if bool_decide (di_src optimizedData = Some r)
              then Some (getOptimizedDepId depsOptimizer optimizedData)
              else nestedDependencyLoop depsOptimizer id importer (Some r) rest
          end
  end.

(** The [await] of [depsOptimizer.scanProcessing] has no counterpart: the
    metadata are read as they are once the scan is over. *)
Definition tryOptimizedResolve (depsOptimizer : DepsOptimizer) (ssr : bool)
    (id : string) (importer : option string) : M (option string) :=
  match metadata depsOptimizer ssr with
  | None => ret None
  | Some md =>
      match optimizedDepInfoFromId E md id with
      | Some depInfo => ret (Some (getOptimizedDepId depsOptimizer depInfo))
      | None =>
          if negb (Js.truthy importer) then ret None
          else
            (* further check if id is imported by nested dependency *)
            ret (nestedDependencyLoop depsOptimizer id
                   (default EmptyString importer) None (md_depInfoList md))
      end
  end.

(** *** The dispatch orchestrator *)

(** A step of [resolveId] that either returns from the hook or lets the
    next step run. *)
Definition orElse (step : M (option ResolutionResult))
    (next : M ResolutionResult) : M ResolutionResult :=
  let* r := step in
  match r with
  | Some x => ret x
  | None => next
  end.

(** A truthy result of [tryResolveBrowserMapping]. *)
Definition definedResult (r : ResolutionResult) : option ResolutionResult :=
  match r with
  | ResUndefined => None
  | _ => Some r
  end.

Definition builtinMessage (id : string) (importer : option string)
    : string :=
  "Cannot bundle Node.js built-in " +:+ Js.dquote +:+ id +:+ Js.dquote
  +:+ (if Js.truthy importer
       then " imported from " +:+ Js.dquote
            +:+ path_relative E (cwd E) (default EmptyString importer)
            +:+ Js.dquote
       else "")
  +:+ ". Consider disabling ssr.noExternal or remove the built-in dependency.".

(** [resolveOpts?.ssr === true] *)
Definition ssrOf (resolveOpts : option ResolveIdOptions) : bool :=
  isTrue (resolveOpts ≫= ro_ssr).

(** [!ssr || ssrTarget === 'webworker'] *)
Definition targetWebOf (resolveOptions : InternalResolveOptions)
    (resolveOpts : option ResolveIdOptions) : bool :=
  negb (ssrOf resolveOpts)
  || bool_decide (o_ssrConfig resolveOptions ≫= ssr_target = Some "webworker").

(** The options object of one call of [resolveId]: [isRequire] from the
    hint of @rollup/plugin-commonjs, [scan], and [isFromTsImporter] from the
    importer. *)
Definition optionsFor (resolveOptions : InternalResolveOptions)
    (importer : option string) (resolveOpts : option ResolveIdOptions)
    : InternalResolveOptions :=
  (* this is passed by @rollup/plugin-commonjs *)
  let isRequire := default false (resolveOpts ≫= ro_isRequire) in
  let scan :=
    match resolveOpts ≫= ro_scan with
    | Some b => Some b
    | None => o_scan resolveOptions
    end in
  let isFromTsImporter :=
    if Js.truthy importer then
      let i := default EmptyString importer in
      if isTsRequest E i then true
      else
        match getModuleLang E i with
        | Some moduleLang =>
            Js.nonEmpty moduleLang && isTsRequest E ("." +:+ moduleLang)
        | None => false
        end
    else o_isFromTsImporter resolveOptions in
  callOptions resolveOptions isRequire scan isFromTsImporter.

(** The step for root-absolute URLs: [/foo -> /fs-root/foo]. *)
Definition resolveRootUrl (fuel : nat) (resolveOptions : InternalResolveOptions)
    (options : InternalResolveOptions) (id : string)
    : M (option ResolutionResult) :=
  if o_asSrc resolveOptions && Js.startsWith id "/" then
    let fsPath :=
      Path.resolve (cwd E) [o_root resolveOptions; Js.slice id 1 None] in
    let* res := tryFsResolve fuel fsPath options true true in
    if Js.truthy res then ret (Some (ResString (default EmptyString res)))
    else ret None
  else ret None.

(** The step for relative specifiers. *)
Definition resolveRelative (fuel : nat) (resolveOptions : InternalResolveOptions)
    (options : InternalResolveOptions) (targetWeb ssr : bool)
    (id : string) (importer : option string) : M (option ResolutionResult) :=
  let depsOptimizer := o_getDepsOptimizer resolveOptions in
  if Js.startsWith id "."
     || (o_preferRelative resolveOptions && Js.startsWithWordChar id)
     || match importer with
        | Some i => Js.endsWith i ".html"
        | None => false
        end
  then
    let basedir :=
      if Js.truthy importer
      then Path.dirname (default EmptyString importer) else cwd E in
    let fsPath := Path.resolve (cwd E) [basedir; id] in
    (* handle browser field mapping for relative imports *)
    let normalizedFsPath := normalizePath fsPath in
    match (match depsOptimizer with
           | Some d =>
               if isOptimizedDepFile d normalizedFsPath then Some d else None
           | None => None
           end) with
    | Some d =>
        (* Optimized files could not yet exist in disk, resolve to the full
           path. Inject the current browserHash version if the path doesn't
           have one *)
        let browserHash :=
          optimizedDepInfoFromFile E (metadata d ssr) normalizedFsPath
          ≫= di_browserHash in
        if negb (DEP_VERSION_RE E normalizedFsPath) && Js.truthy browserHash
        then ret (Some (ResString
               (injectQuery E normalizedFsPath
                  ("v=" +:+ default EmptyString browserHash))))
        else ret (Some (ResString normalizedFsPath))
    | None =>
        let pathFromBasedir :=
          Js.slice normalizedFsPath (Js.len basedir) None in
        let* viaNodeModules :=
          if Js.startsWith pathFromBasedir "/node_modules/" then
            (* normalize direct imports from node_modules to bare imports, so
               the hashing logic is shared and we avoid duplicated modules
               #2503 *)
            let bareImport :=
              Js.slice pathFromBasedir (Js.len "/node_modules/") None in
            let* res :=
              tryNodeResolve fuel bareImport importer options targetWeb
                depsOptimizer (Some ssr) None in
            match res with
            | Some r =>
                if Js.startsWith (pr_id r) normalizedFsPath
                then ret (Some (ResRecord r)) else ret None
            | None => ret None
            end
          else ret None in
        match viaNodeModules with
        | Some r => ret (Some r)
        | None =>
            let* viaBrowser :=
              if targetWeb then
                let* res :=
                  tryResolveBrowserMapping fuel fsPath importer options
                    true None in
                ret (definedResult res)
              else ret None in
            match viaBrowser with
            | Some r => ret (Some r)
            | None =>
                let* res := tryFsResolve fuel fsPath options true true in
                if Js.truthy res then
                  let res := default EmptyString res in
                  let* pkg :=
                    match importer with
                    | Some i => gets (fun st => idToPkgMap st !! i)
                    | None => ret None
                    end in
                  match pkg with
                  | Some pkg =>
                      let* _ := idToPkgMap_set res pkg in
                      ret (Some (ResRecord
                        {| pr_id := res; pr_external := None;
                           pr_moduleSideEffects :=
                             Some (pkg_hasSideEffects pkg res) |}))
                  | None => ret (Some (ResString res))
                  end
                else ret None
            end
        end
    end
  else ret None.

(** The step for absolute fs paths. *)
Definition resolveAbsolute (fuel : nat) (options : InternalResolveOptions)
    (id : string) : M (option ResolutionResult) :=
  if Path.isAbsolute id then
    let* res := tryFsResolve fuel id options true true in
    if Js.truthy res then ret (Some (ResString (default EmptyString res)))
    else ret None
  else ret None.

(** [options.shouldExternalize?.(id)] *)
Definition externalOf (options : InternalResolveOptions) (id : string)
    : option bool :=
  match o_shouldExternalize options with
  | Some f => f id
  | None => None
  end.

(** The steps for bare package imports: the optimizer's metadata, the
    browser field of the importer's package, then the node resolve. *)
Definition resolveBareOptimized (resolveOptions : InternalResolveOptions)
    (options : InternalResolveOptions) (ssr : bool) (id : string)
    (importer : option string) : M (option ResolutionResult) :=
  match o_getDepsOptimizer resolveOptions with
  | Some d =>
      if negb (isTrue (externalOf options id)) && o_asSrc resolveOptions
         && negb (isTrue (o_scan options))
      then
        let* res := tryOptimizedResolve d ssr id importer in
        if Js.truthy res
        then ret (Some (ResString (default EmptyString res)))
        else ret None
      else ret None
  | None => ret None
  end.

Definition resolveBareBrowser (fuel : nat) (options : InternalResolveOptions)
    (targetWeb : bool) (id : string) (importer : option string)
    : M (option ResolutionResult) :=
  if targetWeb then
    let* res :=
      tryResolveBrowserMapping fuel id importer options false
        (externalOf options id) in
    ret (definedResult res)
  else ret None.

Definition resolveBareNode (fuel : nat) (resolveOptions : InternalResolveOptions)
    (options : InternalResolveOptions) (targetWeb ssr : bool) (id : string)
    (importer : option string) : M (option ResolutionResult) :=
  let* res :=
    tryNodeResolve fuel id importer options targetWeb
      (o_getDepsOptimizer resolveOptions) (Some ssr) (externalOf options id) in
  ret (ResRecord <$> res).

(** node built-ins: externalize if building for SSR, otherwise redirect to
    empty module. *)
Definition resolveBuiltin (resolveOptions : InternalResolveOptions)
    (ssr : bool) (id : string) (importer : option string)
    : M ResolutionResult :=
  let ssrNoExternal :=
    match o_ssrConfig resolveOptions with
    | Some c => ssr_noExternal c
    | None => NoExternalUnset
    end in
  if ssr then
    match ssrNoExternal with
    | NoExternalTrue => throw (newError (builtinMessage id importer))
    | _ =>
        ret (ResRecord {| pr_id := id; pr_external := Some true;
                          pr_moduleSideEffects := None |})
    end
  else
    ret (ResString (if o_isProduction resolveOptions then browserExternalId
                    else browserExternalId +:+ ":" +:+ id)).

Definition resolveId (fuel : nat) (resolveOptions : InternalResolveOptions)
    (id : string) (importer : option string)
    (resolveOpts : option ResolveIdOptions) : M ResolutionResult :=
  let root := o_root resolveOptions in
  let asSrc := o_asSrc resolveOptions in
  let depsOptimizer := o_getDepsOptimizer resolveOptions in
  let ssr := ssrOf resolveOpts in
  if Js.startsWith id browserExternalId then ret (ResString id) else
  (* fast path for commonjs proxy modules *)
  if Js.includes id "?commonjs" || String.eqb id "commonjsHelpers.js"
  then ret ResUndefined else
  let targetWeb := targetWebOf resolveOptions resolveOpts in
  let options := optionsFor resolveOptions importer resolveOpts in
  let* _ := setSkipPackageJson (o_skipPackageJson resolveOptions) in
  (* resolve pre-bundled deps requests *)
  if asSrc && match depsOptimizer with
              | Some d => isOptimizedDepUrl d id
              | None => false
              end
  then
    let optimizedPath :=
      if Js.startsWith id FS_PREFIX then fsPathFromId E id
      else normalizePath (ensureVolumeInPath
             (Path.resolve (cwd E) [root; Js.slice id 1 None])) in
    ret (ResString optimizedPath)
  else
  (* explicit fs paths that starts with /@fs/* *)
  if asSrc && Js.startsWith id FS_PREFIX then
    let fsPath := fsPathFromId E id in
    let* res := tryFsResolve fuel fsPath options true true in
    (* always return here even if res doesn't exist since /@fs/ is explicit
       if the file doesn't exist it should be a 404 *)
    ret (ResString (if Js.truthy res then default EmptyString res else fsPath))
  else
  orElse (resolveRootUrl fuel resolveOptions options id)
  (orElse (resolveRelative fuel resolveOptions options targetWeb ssr id importer)
  (orElse (resolveAbsolute fuel options id)
  ((* external *)
   if isExternalUrl E id then
     ret (ResRecord {| pr_id := id; pr_external := Some true;
                       pr_moduleSideEffects := None |})
   else
   (* data uri: pass through *)
   if isDataUrl E id then ret ResNull else
   (* bare package imports, perform node resolve *)
   if bareImportRE E id then
     orElse (resolveBareOptimized resolveOptions options ssr id importer)
     (orElse (resolveBareBrowser fuel options targetWeb id importer)
     (orElse (resolveBareNode fuel resolveOptions options targetWeb ssr id importer)
     (if isBuiltin E id then resolveBuiltin resolveOptions ssr id importer
      else ret ResUndefined)))
   else ret ResUndefined))).

End Resolver.

(** *** The load hook *)

(** The module served in development for an id marked external for the
    browser: a proxy whose every property access throws. *)
Definition externalizedModule (id : string) : string :=
  let nl := String (ascii_of_nat 10) EmptyString in
  "export default new Proxy({}, {" +:+ nl
  +:+ "  get(_, key) {" +:+ nl
  +:+ "    throw new Error(`Module " +:+ Js.dquote +:+ id +:+ Js.dquote
  +:+ " has been externalized for browser compatibility. Cannot access "
  +:+ Js.dquote +:+ id +:+ ".${key}" +:+ Js.dquote +:+ " in client code.`)"
  +:+ nl
  +:+ "  }" +:+ nl
  +:+ "})".

Definition load (resolveOptions : InternalResolveOptions) (id : string)
    : option string :=
  if Js.startsWith id browserExternalId then
    if o_isProduction resolveOptions then Some "export default {}"
    else
      let id := Js.slice id (Js.len browserExternalId + 1) None in
      Some (externalizedModule id)
  else None.

(** ** What a resolved id looks like *)

(** A postfix: nothing, or a query or hash with what follows. *)
Definition isPostfix (q : string) : bool :=
  negb (Js.nonEmpty q) || Js.firstCharIs q "?" || Js.firstCharIs q "#".

(** An absolute, normalized path. *)
Definition absoluteNormalized (p : string) : Prop :=
  Path.isAbsolute p = true /\ normalizePath p = p.

(** An absolute, normalized path followed by a postfix. *)
Definition resolvedPath (id : string) : Prop :=
  exists p q, id = p +:+ q /\ absoluteNormalized p /\ isPostfix q = true.

(** The id of a resolution: the browser-external id or a resolved path. *)
Definition resolvedId (id : string) : Prop :=
  id = browserExternalId \/ resolvedPath id.

(** What the resolver relies on from its collaborators: the working
    directory and real paths are absolute, the manifest loader hands out
    packages with absolute directories, the TypeScript candidates of an
    absolute path are absolute, [injectQuery] keeps a resolved path a
    resolved path, and the path of an [/@fs/] id is absolute. *)
Record EnvOK (E : Env) : Prop := {
  cwd_absolute : Path.isAbsolute (cwd E) = true;
  realpath_absolute :
    forall p, Path.isAbsolute p = true ->
              Path.isAbsolute (realpathSync E p) = true;
  loadPackageData_absolute :
    forall pkgPath preserveSymlinks pkg,
      loadPackageData E pkgPath preserveSymlinks = Returns pkg ->
      Path.isAbsolute (pkg_dir pkg) = true;
  resolvePackageData_absolute :
    forall pkgId basedir preserveSymlinks pkg,
      resolvePackageData E pkgId basedir preserveSymlinks = Some pkg ->
      Path.isAbsolute (pkg_dir pkg) = true;
  tsSrcPaths_absolute :
    forall file src,
      Path.isAbsolute file = true -> In src (getPotentialTsSrcPaths E file) ->
      Path.isAbsolute src = true;
  injectQuery_resolved :
    forall url query, resolvedPath url -> resolvedPath (injectQuery E url query);
  fsPathFromId_absolute :
    forall id, Path.isAbsolute (fsPathFromId E id) = true
}.

(** The ids the optimizer hands out are resolved paths. *)
Definition OptimizerOK (depsOptimizer : option DepsOptimizer) : Prop :=
  forall d info, depsOptimizer = Some d -> resolvedPath (getOptimizedDepId d info).

(** What a resolved cache may hold under a key: a resolved path for the
    package entry, a resolved id for a deep import. *)
Definition cacheEntryOK (key value : string) : Prop :=
  if String.eqb key "." then resolvedPath value else resolvedId value.

(** The invariant of the state: the caches hold resolved ids and the
    packages of [idToPkgMap] have absolute directories. *)
Record StateOK (st : State) : Prop := {
  web_ok :
    forall h key v, webResolvedImports st !! (h, key) = Some v ->
                    cacheEntryOK key v;
  node_ok :
    forall h key v, nodeResolvedImports st !! (h, key) = Some v ->
                    cacheEntryOK key v;
  pkgs_ok :
    forall file pkg, idToPkgMap st !! file = Some pkg ->
                     Path.isAbsolute (pkg_dir pkg) = true
}.

(** A run from a state that satisfies the invariant ends in one that does,
    and a value it returns satisfies [Q]. *)
Definition ensures {A} (m : M A) (Q : A -> Prop) : Prop :=
  forall st, StateOK st ->
    match m st with
    | (Ok a, st') => Q a /\ StateOK st'
    | (_, st') => StateOK st'
    end.

(** What a run returns, when it returns, and what it throws, when it
    throws, from any state. *)
Definition yields {A} (m : M A) (Q : A -> Prop) : Prop :=
  forall st a st', m st = (Ok a, st') -> Q a.

Definition raises {A} (m : M A) (Q : JsError -> Prop) : Prop :=
  forall st e st', m st = (Throw e, st') -> Q e.

(** A structured result that is not marked external names a file that
    [idToPkgMap] links to a package. *)
Definition linkedResult (r : ResolutionResult) (st : State) : Prop :=
  match r with
  | ResRecord rec =>
      pr_external rec <> Some true ->
      exists pkg, idToPkgMap st !! pr_id rec = Some pkg
  | _ => True
  end.

(** The results of the probe and of the resolvers. *)
Definition pathOrNothing (r : option string) : Prop :=
  match r with Some s => resolvedPath s | None => True end.

Definition idOrNothing (r : option string) : Prop :=
  match r with Some s => resolvedId s | None => True end.

(** A structured result that is not marked external has a resolved id. *)
Definition structuredOK (r : PartialResolvedId) : Prop :=
  pr_external r <> Some true -> resolvedId (pr_id r).

Definition resultOK (r : ResolutionResult) : Prop :=
  match r with ResRecord rec => structuredOK rec | _ => True end.

(** The result of one step of [resolveId], when the step yields one. *)
Definition stepOK (r : option ResolutionResult) : Prop :=
  forall x, r = Some x -> resultOK x.

(** ** A workspace to run the resolver in

    An instance of the collaborators over a finite table of files,
    directories and installed packages, with the helpers of [../utils]
    written out for plain POSIX paths. It serves the scenarios below. *)

Module Workspace.

Module Utils.

Fixpoint lookupFile (p : string) (files : list (string * string))
    : option string :=
  match files with
  | [] => None
  | (q, content) :: rest =>
      if String.eqb q p then Some content else lookupFile p rest
  end.

Definition memberOf (p : string) (l : list string) : bool :=
  existsb (String.eqb p) l.

Definition dropLast (n : nat) (s : string) : string :=
  Js.take (String.length s - n) s.

(** The name the filesystem looks up: dot segments and repeated slashes
    resolved, no slash at the end. *)
Definition canonical (p : string) : string :=
  let n := Path.normalize p in
  if Js.endsWith n "/" && negb (String.eqb n "/") then dropLast 1 n else n.

Definition isDirectory (dirs : list string) (p : string) : bool :=
  memberOf (canonical p) dirs.

(** A regular file; a slash after its name is an error. *)
Definition isFile (files : list (string * string)) (p : string) : bool :=
  negb (Js.endsWith p "/")
  && bool_decide (is_Some (lookupFile (canonical p) files)).

(** The part of a string before the first occurrence of a character. *)
Definition before (c : string) (s : string) : string :=
  let i := Js.indexOf s c in
  if i <? 0 then s else Js.slice s 0 (Some i).

(** [url.replace(hashRE, '').replace(queryRE, '')] *)
Definition cleanUrl (url : string) : string := before "?" (before "#" url).

Definition endsWithAny (s : string) (exts : list string) : bool :=
  existsb (Js.endsWith s) exts.

Definition isTsRequest (url : string) : bool :=
  endsWithAny (cleanUrl url) [".ts"; ".mts"; ".cts"; ".tsx"].

Definition isPossibleTsOutput (url : string) : bool :=
  endsWithAny (cleanUrl url) [".js"; ".mjs"; ".cjs"; ".jsx"].

(** The TypeScript sources a JavaScript file may have been emitted from:
    [.js] from [.ts] or [.tsx], [.jsx] from [.tsx], [.mjs] from [.mts],
    [.cjs] from [.cts]. *)
Definition getPotentialTsSrcPaths (filePath : string) : list string :=
  if Js.endsWith filePath ".mjs" then [dropLast 4 filePath +:+ ".mts"]
  else if Js.endsWith filePath ".cjs" then [dropLast 4 filePath +:+ ".cts"]
  else if Js.endsWith filePath ".jsx" then [dropLast 4 filePath +:+ ".tsx"]
  else if Js.endsWith filePath ".js"
  then [dropLast 3 filePath +:+ ".ts"; dropLast 3 filePath +:+ ".tsx"]
  else [].

(** The query is put after the URL. *)
Definition injectQuery (url queryToInject : string) : string :=
  url +:+ "?" +:+ queryToInject.

Definition fsPathFromId (id : string) : string :=
  let fsPath :=
    normalizePath
      (if Js.startsWith id FS_PREFIX
       then Js.slice id (Js.len FS_PREFIX) None else id) in
  if Js.startsWith fsPath "/" then fsPath else "/" +:+ fsPath.

Definition isBuiltin (id : string) : bool :=
  memberOf (if Js.startsWith id "node:" then Js.slice id 5 None else id)
    ["assert"; "buffer"; "child_process"; "crypto"; "events"; "fs"; "http";
     "https"; "net"; "os"; "path"; "stream"; "url"; "util"; "zlib"].

Definition isExternalUrl (url : string) : bool :=
  Js.startsWith url "//" || Js.startsWith url "http://"
  || Js.startsWith url "https://".

Definition isDataUrl (url : string) : bool :=
  Js.startsWith (Js.trimStart url) "data:".

(** [/^[\w@][^:]/] *)
Definition bareImportRE (id : string) : bool :=
  match id with
  | String c (String d _) =>
      (Js.isWordChar c || Ascii.eqb c "@") && negb (Ascii.eqb d ":")
  | _ => false
  end.

Definition relative (from to : string) : string :=
  if Js.startsWith to (from +:+ "/")
  then Js.slice to (Js.len from + 1) None else to.

Definition enoent (p : string) : JsError :=
  {| err_code := Some "ENOENT";
     err_message := "ENOENT: no such file or directory, open '" +:+ p +:+ "'" |}.

Fixpoint manifestAt (pkgPath : string) (pkgs : list (string * PackageData))
    : option PackageData :=
  match pkgs with
  | [] => None
  | (_, pkg) :: rest =>
      if String.eqb (pkg_dir pkg +:+ "/package.json") pkgPath
         && Path.isAbsolute (pkg_dir pkg)
      then Some pkg
      else manifestAt pkgPath rest
  end.

Fixpoint installed (pkgId : string) (pkgs : list (string * PackageData))
    : option PackageData :=
  match pkgs with
  | [] => None
  | (name, pkg) :: rest =>
      if String.eqb name pkgId && Path.isAbsolute (pkg_dir pkg) then Some pkg
      else installed pkgId rest
  end.

(** [resolve] of the library resolve.exports (version 1), with its helpers
    [loop], [bail] and [toName]. An object stands for the list of its
    properties in enumeration order. [toName] takes the package name as it
    is written, and [replace] its replacement as plain text. *)
Definition jsonTruthy (j : Json) : bool :=
  match j with
  | JNull => false
  | JBool b => b
  | JNum n => negb (n =? 0)
  | JStr s => Js.nonEmpty s
  | JArr _ | JObj _ => true
  end.

Fixpoint loop (exports : Json) (keys : list string) : option string :=
  match exports with
  | JStr s => Some s
  | JArr xs =>
      (fix first (xs : list Json) : option string :=
         match xs with
         | [] => None
         | x :: rest =>
             match loop x keys with
             | Some tmp => if Js.nonEmpty tmp then Some tmp else first rest
             | None => first rest
             end
         end) xs
  | JObj kvs =>
      (fix first (kvs : list (string * Json)) : option string :=
         match kvs with
         | [] => None
         | (idx, v) :: rest =>
             if memberOf idx keys then loop v keys else first rest
         end) kvs
  | _ => None
  end.

Definition bail {A} (name : option string) (entry : string)
    (condition : bool) : Completion A :=
  Raises (newError
    (if condition
     then "No known conditions for " +:+ Js.dquote +:+ entry +:+ Js.dquote
          +:+ " entry in " +:+ Js.dquote +:+ Js.display name +:+ Js.dquote
          +:+ " package"
     else "Missing " +:+ Js.dquote +:+ entry +:+ Js.dquote
          +:+ " export in " +:+ Js.dquote +:+ Js.display name +:+ Js.dquote
          +:+ " package")).

Definition toName (name : option string) (entry : string) : string :=
  if bool_decide (name = Some entry) then "."
  else if Js.firstCharIs entry "." then entry
  else if Js.startsWith entry (Js.display name +:+ "/")
  then "./" +:+ Js.slice entry (Js.len (Js.display name) + 1) None
  else entry.

(** [loop(tmp, allows) || bail(name, target, 1)] *)
Definition loopOrBail (tmp : Json) (allows : list string)
    (name : option string) (target : string) (rest : string -> string)
    : Completion (option string) :=
  match loop tmp allows with
  | Some found =>
      if Js.nonEmpty found then Returns (Some (rest found))
      else bail name target true
  | None => bail name target true
  end.

(** [s.replace('*', by)] *)
Definition replaceStar (s by_ : string) : string :=
  let i := Js.indexOf s "*" in
  if i <? 0 then s
  else Js.slice s 0 (Some i) +:+ by_ +:+ Js.slice s (i + 1) None.

(** The keys that end in [/] or in [*]. *)
Fixpoint exportsPattern (o : list (string * Json)) (allows : list string)
    (name : option string) (target : string)
    : Completion (option string) :=
  match o with
  | [] => bail name target false
  | (key, v) :: rest =>
      if Js.endsWith key "/" && Js.startsWith target key then
        loopOrBail v allows name target
          (fun found => found +:+ Js.slice target (Js.len key) None)
      else if Js.endsWith key "*"
              && Js.startsWith target (Js.slice key 0 (Some (-1)))
              && (0 <? Js.len (Js.slice target (Js.len key - 1) None))
      then
        loopOrBail v allows name target
          (fun found =>
             replaceStar found (Js.slice target (Js.len key - 1) None))
      else exportsPattern rest allows name target
  end.

Fixpoint jsonLookup (key : string) (o : list (string * Json))
    : option Json :=
  match o with
  | [] => None
  | (k, v) :: rest => if String.eqb k key then Some v else jsonLookup key rest
  end.

Definition resolveExportsLib (pkg : PkgJson) (entry : string) (browser : bool)
    (require : option bool) (conditions : list string)
    : Completion (option string) :=
  let name := assocString "name" (pj_fields pkg) in
  let exports := pj_exports pkg in
  if exportsTruthy exports then
    let target := toName name entry in
    let target :=
      if Js.firstCharIs target "." then target else "./" +:+ target in
    let allows :=
      ("default" :: conditions)
      ++ [if isTrue require then "require" else "import"]
      ++ [if browser then "browser" else "node"] in
    let whole (exports : Json) (isSingle : bool)
        (o : list (string * Json)) : Completion (option string) :=
      if isSingle then
        if String.eqb target "."
        then loopOrBail exports allows name target (fun found => found)
        else bail name target false
      else
        match jsonLookup target o with
        | Some tmp =>
            if jsonTruthy tmp
            then loopOrBail tmp allows name target (fun found => found)
            else exportsPattern o allows name target
        | None => exportsPattern o allows name target
        end in
    match exports with
    | ExportsString s =>
        if String.eqb target "." then Returns (Some s)
        else bail name target false
    | ExportsObject o =>
        whole (JObj o)
          match o with
          | (key, _) :: _ => negb (Js.firstCharIs key ".")
          | [] => false
          end o
    | ExportsArray xs =>
        whole (JArr (List.map JStr xs))
          match xs with _ :: _ => true | [] => false end []
    | ExportsAbsent => Returns None
    end
  else Returns None.

End Utils.

Definition env (files : list (string * string)) (dirs : list string)
    (pkgs : list (string * PackageData)) : Env :=
  {| cwd := "/p";
     existsSync := fun p => Utils.isFile files p || Utils.isDirectory dirs p;
     isDirectory := Utils.isDirectory dirs;
     realpathSync := Utils.canonical;
     readFileSync := fun p =>
       match Utils.lookupFile (Utils.canonical p) files with
       | Some content => Returns content
       | None => Raises (Utils.enoent p)
       end;
     path_relative := Utils.relative;
     isFileReadable := fun p =>
       Utils.isFile files p || Utils.isDirectory dirs p;
     cleanUrl := Utils.cleanUrl;
     isTsRequest := Utils.isTsRequest;
     isPossibleTsOutput := Utils.isPossibleTsOutput;
     getPotentialTsSrcPaths := Utils.getPotentialTsSrcPaths;
     injectQuery := Utils.injectQuery;
     fsPathFromId := Utils.fsPathFromId;
     isBuiltin := Utils.isBuiltin;
     isExternalUrl := Utils.isExternalUrl;
     isDataUrl := Utils.isDataUrl;
     bareImportRE := Utils.bareImportRE;
     slash := fun p => p;
     nestedResolveFrom := fun _ basedir _ => basedir;
     resolveFrom := fun id _ =>
       match Utils.installed id pkgs with
       | Some pkg => Returns (pkg_dir pkg +:+ "/index.js")
       | None => Raises (newError ("Cannot find module '" +:+ id +:+ "'"))
       end;
     DEP_VERSION_RE := fun s => Js.includes s "?v=" || Js.includes s "&v=";
     OPTIMIZABLE_ENTRY_RE := fun s =>
       Utils.endsWithAny s [".js"; ".mjs"; ".ts"];
     SPECIAL_QUERY_RE := fun s =>
       existsb (Js.includes s) ["?worker"; "?sharedworker"; "?raw"; "?url"];
     loadPackageData := fun pkgPath _ =>
       match Utils.manifestAt pkgPath pkgs with
       | Some pkg => Returns pkg
       | None => Raises (Utils.enoent pkgPath)
       end;
     resolvePackageData := fun pkgId _ _ => Utils.installed pkgId pkgs;
     optimizedDepInfoFromFile := fun _ _ => None;
     optimizedDepInfoFromId := fun _ _ => None;
     _resolveExports := Utils.resolveExportsLib;
     getModuleLang := fun _ => None |}.

(** The options of a plain dev-server resolver rooted at [/p]. *)
Definition options : InternalResolveOptions :=
  {| o_root := "/p"; o_isBuild := false; o_isProduction := false;
     o_ssrConfig := None; o_asSrc := true; o_tryPrefix := None;
     o_skipPackageJson := false; o_preferRelative := false;
     o_preserveSymlinks := false; o_isRequire := None;
     o_isFromTsImporter := false; o_tryEsmOnly := false; o_scan := None;
     o_mainFields := None; o_conditions := None; o_extensions := None;
     o_dedupe := None; o_getDepsOptimizer := None;
     o_shouldExternalize := None |}.

(** Package [foo]: [main], [module] and a [browser] build that is CommonJS. *)
Definition foo : PackageData :=
  {| pkg_handle := 1; pkg_dir := "/p/node_modules/foo";
     pkg_data :=
       {| pj_exports := ExportsAbsent;
          pj_browser := BrowserString "foo.browser.js";
          pj_fields := [("main", "foo.cjs"); ("module", "foo.mjs")] |};
     pkg_hasSideEffects := fun _ => true |}.

(** Package [bar]: one subpath exposed through [exports]. *)
Definition bar : PackageData :=
  {| pkg_handle := 2; pkg_dir := "/p/node_modules/bar";
     pkg_data :=
       {| pj_exports := ExportsObject [("./sub", JStr "./lib/sub.js")];
          pj_browser := BrowserAbsent;
          pj_fields := [("name", "bar")] |};
     pkg_hasSideEffects := fun _ => true |}.

(** Package [baz]: a plain package with a directory [sub] that holds an
    index file and an empty directory named [?x]. *)
Definition baz : PackageData :=
  {| pkg_handle := 3; pkg_dir := "/p/node_modules/baz";
     pkg_data :=
       {| pj_exports := ExportsAbsent;
          pj_browser := BrowserAbsent;
          pj_fields := [("main", "main.js")] |};
     pkg_hasSideEffects := fun _ => true |}.

(** Packages [qux] and [shim], not installed in the workspace: a string
    for [exports], and an object for [browser]. *)
Definition qux : PackageData :=
  {| pkg_handle := 4; pkg_dir := "/p/node_modules/qux";
     pkg_data :=
       {| pj_exports := ExportsString "./main.js";
          pj_browser := BrowserAbsent;
          pj_fields := [] |};
     pkg_hasSideEffects := fun _ => false |}.

Definition shim : PackageData :=
  {| pkg_handle := 5; pkg_dir := "/p/node_modules/shim";
     pkg_data :=
       {| pj_exports := ExportsAbsent;
          pj_browser :=
            BrowserMap [("./server.js", BrFalse);
                        ("./lib/a.js", BrStr "./lib/a.browser.js")];
          pj_fields := [("main", "main.js")] |};
     pkg_hasSideEffects := fun _ => false |}.

Definition files : list (string * string) :=
  [("/p/src/app.ts", "import './util.js'");
   ("/p/src/main.js", "import 'baz/sub/?x/'");
   ("/p/node_modules/baz/main.js", "export {}");
   ("/p/node_modules/baz/sub/index.js", "export {}");
   ("/p/src/util.ts", "export {}");
   ("/p/src/_partial.js", "export {}");
   ("/p/src/_mixin.ts", "export {}");
   ("/p/node_modules/foo/foo.cjs", "module.exports = 1");
   ("/p/node_modules/foo/foo.mjs", "export default 1");
   ("/p/node_modules/foo/foo.browser.js", "module.exports = x");
   ("/p/node_modules/bar/lib/sub.js", "export {}")].

Definition dirs : list string :=
  ["/"; "/p"; "/p/src"; "/p/node_modules"; "/p/node_modules/foo";
   "/p/node_modules/bar"; "/p/node_modules/bar/lib";
   "/p/node_modules/baz"; "/p/node_modules/baz/sub";
   "/p/node_modules/baz/sub/?x"].

Definition packages : list (string * PackageData) :=
  [("foo", foo); ("bar", bar); ("baz", baz)].

Definition workspace : Env := env files dirs packages.

(** An optimizer that has pre-bundled [foo] as a dependency of [my-lib]. *)
Definition nestedFoo : DepInfo :=
  {| di_id := "my-lib > foo";
     di_file := "/p/node_modules/.vite/deps/my-lib___foo.js";
     di_src := Some "/p/node_modules/foo/index.js";
     di_browserHash := Some "abc" |}.

Definition optimizer : DepsOptimizer :=
  {| isOptimizedDepUrl := fun url =>
       Js.startsWith url "/node_modules/.vite/deps/";
     isOptimizedDepFile := fun p =>
       Js.startsWith p "/p/node_modules/.vite/deps/";
     metadata := fun _ =>
       Some {| md_browserHash := Some "abc"; md_depInfoList := [nestedFoo] |};
     optimizer_exclude := None;
     registerMissingImport := fun id resolved _ =>
       {| di_id := id;
          di_file := "/p/node_modules/.vite/deps/" +:+ id +:+ ".js";
          di_src := Some resolved;
          di_browserHash := Some "abc" |};
     getOptimizedDepId := fun d =>
       di_file d +:+ "?v=" +:+ default EmptyString (di_browserHash d) |}.

(** The workspace with manifests that do not parse. *)
Definition brokenManifests : Env :=
  {| cwd := cwd workspace;
     existsSync := existsSync workspace;
     isDirectory := isDirectory workspace;
     realpathSync := realpathSync workspace;
     readFileSync := readFileSync workspace;
     path_relative := path_relative workspace;
     isFileReadable := isFileReadable workspace;
     cleanUrl := cleanUrl workspace;
     isTsRequest := isTsRequest workspace;
     isPossibleTsOutput := isPossibleTsOutput workspace;
     getPotentialTsSrcPaths := getPotentialTsSrcPaths workspace;
     injectQuery := injectQuery workspace;
     fsPathFromId := fsPathFromId workspace;
     isBuiltin := isBuiltin workspace;
     isExternalUrl := isExternalUrl workspace;
     isDataUrl := isDataUrl workspace;
     bareImportRE := bareImportRE workspace;
     slash := slash workspace;
     nestedResolveFrom := nestedResolveFrom workspace;
     resolveFrom := resolveFrom workspace;
     DEP_VERSION_RE := DEP_VERSION_RE workspace;
     OPTIMIZABLE_ENTRY_RE := OPTIMIZABLE_ENTRY_RE workspace;
     SPECIAL_QUERY_RE := SPECIAL_QUERY_RE workspace;
     loadPackageData := fun pkgPath _ =>
       Raises (newError ("Unexpected token } in JSON, in " +:+ pkgPath));
     resolvePackageData := resolvePackageData workspace;
     optimizedDepInfoFromFile := optimizedDepInfoFromFile workspace;
     optimizedDepInfoFromId := optimizedDepInfoFromId workspace;
     _resolveExports := _resolveExports workspace;
     getModuleLang := getModuleLang workspace |}.


(** The same resolver with [ssr.noExternal] set to [true]. *)
Definition noExternalOptions : InternalResolveOptions :=
  {| o_root := "/p"; o_isBuild := false; o_isProduction := false;
     o_ssrConfig :=
       Some {| ssr_target := None; ssr_noExternal := NoExternalTrue |};
     o_asSrc := true; o_tryPrefix := None;
     o_skipPackageJson := false; o_preferRelative := false;
     o_preserveSymlinks := false; o_isRequire := None;
     o_isFromTsImporter := false; o_tryEsmOnly := false; o_scan := None;
     o_mainFields := None; o_conditions := None; o_extensions := None;
     o_dedupe := None; o_getDepsOptimizer := None;
     o_shouldExternalize := None |}.



(** The hook's third argument for a server-side render. *)
Definition ssrCall : option ResolveIdOptions :=
  Some {| ro_ssr := Some true; ro_scan := None; ro_isRequire := None |}.

End Workspace.

(** * Properties *)

(** ** Strings *)

Lemma append_cons (c : ascii) (a b : string) :
  String c a +:+ b = String c (a +:+ b).
Proof. reflexivity. Qed.

Lemma append_nil (b : string) : EmptyString +:+ b = b.
Proof. reflexivity. Qed.

Lemma take_drop (n : nat) (s : string) : Js.take n s +:+ Js.drop n s = s.
Proof.
  revert s; induction n as [|n IH]; intros [|c s]; simpl; try reflexivity.
  rewrite append_cons. f_equal. apply IH.
Qed.

Lemma append_assoc (a b c : string) : (a +:+ b) +:+ c = a +:+ (b +:+ c).
Proof.
  induction a as [|x a IH]; [reflexivity|].
  rewrite !append_cons. now f_equal.
Qed.

Lemma drop_all (s : string) : Js.drop (String.length s) s = EmptyString.
Proof. induction s; simpl; auto. Qed.

Lemma take_all (s : string) : Js.take (String.length s) s = s.
Proof. induction s; simpl; congruence. Qed.

Lemma append_empty_r (s : string) : s +:+ EmptyString = s.
Proof.
  induction s as [|c s IH]; [reflexivity|]. rewrite append_cons. now f_equal.
Qed.

Lemma length_drop (n : nat) (s : string) :
  String.length (Js.drop n s) = (String.length s - n)%nat.
Proof.
  revert s; induction n as [|n IH]; intros [|c s]; simpl; auto.
Qed.

Lemma startsWith_app (p s : string) : Js.startsWith (p +:+ s) p = true.
Proof.
  induction p as [|c p IH]; [reflexivity|].
  rewrite append_cons. simpl. now rewrite Ascii.eqb_refl.
Qed.

Lemma startsWith_inv (s p : string) :
  Js.startsWith s p = true -> exists t, s = p +:+ t.
Proof.
  revert s; induction p as [|c p IH]; intros s H; simpl in *.
  - now exists s.
  - destruct s as [|d s]; [discriminate|].
    apply andb_true_iff in H as [Hc Hs].
    apply Ascii.eqb_eq in Hc; subst d.
    destruct (IH _ Hs) as [t ->]. now exists t.
Qed.

(** Where [indexOf] finds the pattern, the pattern is. *)
Lemma indexOfAux_found (s p : string) (k : Z) :
  Js.indexOfAux s p k <> -1 -> 0 <= k ->
  k <= Js.indexOfAux s p k <= k + Js.len s
  /\ Js.startsWith (Js.drop (Z.to_nat (Js.indexOfAux s p k - k)) s) p = true.
Proof.
  revert k; induction s as [|c s IH]; intros k Hne Hk; simpl in *.
  - destruct (Js.startsWith "" p) eqn:Hp; [|congruence].
    unfold Js.len; simpl. rewrite Z.sub_diag. simpl. split; [lia|assumption].
  - destruct (Js.startsWith (String c s) p) eqn:Hp.
    + rewrite Z.sub_diag. simpl. rewrite Hp. unfold Js.len; simpl. split; [lia|reflexivity].
    + destruct (IH (k + 1) Hne ltac:(lia)) as [Hb Hs].
      unfold Js.len in *; simpl String.length. split; [lia|].
      replace (Z.to_nat (Js.indexOfAux s p (k + 1) - k))
        with (S (Z.to_nat (Js.indexOfAux s p (k + 1) - (k + 1)))) by lia.
      simpl. exact Hs.
Qed.

Lemma indexOf_found (s p : string) :
  0 <= Js.indexOf s p ->
  Js.indexOf s p <= Js.len s
  /\ Js.startsWith (Js.drop (Z.to_nat (Js.indexOf s p)) s) p = true.
Proof.
  unfold Js.indexOf, Js.indexOfFrom. intros H.
  assert (Hk : Z.min (Z.max 0 0) (Js.len s) = 0) by (unfold Js.len; lia).
  rewrite Hk in *. simpl Js.drop in *.
  destruct (indexOfAux_found s p 0) as [Hb Hs]; [lia|lia|].
  rewrite Z.sub_0_r in Hs. split; [lia|assumption].
Qed.

Lemma relIndex_in_range (l i : Z) : 0 <= i <= l -> Js.relIndex l i = i.
Proof.
  intros H. unfold Js.relIndex. destruct (i <? 0) eqn:E; lia.
Qed.

Lemma slice_from (s : string) (i : Z) :
  0 <= i <= Js.len s -> Js.slice s i None = Js.drop (Z.to_nat i) s.
Proof.
  intros Hi. unfold Js.slice. rewrite relIndex_in_range by assumption.
  replace (Z.to_nat (Js.len s - i))
    with (String.length (Js.drop (Z.to_nat i) s)).
  - apply take_all.
  - rewrite length_drop. unfold Js.len in *. lia.
Qed.

Lemma slice_to (s : string) (i : Z) :
  0 <= i <= Js.len s -> Js.slice s 0 (Some i) = Js.take (Z.to_nat i) s.
Proof.
  intros Hi. unfold Js.slice.
  rewrite (relIndex_in_range _ 0) by lia.
  rewrite relIndex_in_range by assumption.
  rewrite Z.sub_0_r. reflexivity.
Qed.

(** A slice up to an index followed by the slice from it is the string. *)
Lemma slice_split (s : string) (i : Z) :
  0 <= i <= Js.len s ->
  Js.slice s 0 (Some i) +:+ Js.slice s i None = s.
Proof.
  intros Hi. rewrite slice_to, slice_from by assumption. apply take_drop.
Qed.

(** ** [splitFileAndPostfix] *)

(** The postfix starts at the first [?] whenever there is one past the first
    character, also when a [#] comes before it. *)
Lemma splitFileAndPostfix_hash_before_query :
  Js.includes "a#b?c" "?" = true /\
  Js.includes "a#b?c" "#" = true /\
  Js.indexOf "a#b?c" "#" < Js.indexOf "a#b?c" "?" /\
  snd (splitFileAndPostfix "a#b?c") = "?c" /\
  snd (splitFileAndPostfix "a#b?c")
    <> Js.slice "a#b?c" (Js.indexOf "a#b?c" "#") None.
Proof. vm_compute. repeat split; try discriminate; reflexivity. Qed.

(** C4, as the code has it: [file + postfix] is the path, the postfix is
    empty or begins with [?] or [#], and for a path with both a [?] and a
    [#] whose first [?] is past the first character the postfix is everything
    from that first [?] on, wherever the [#] is. *)
Theorem splitFileAndPostfix_spec (fsPath : string) :
  let '(file, postfix) := splitFileAndPostfix fsPath in
  file +:+ postfix = fsPath
  /\ (postfix = EmptyString \/ Js.startsWith postfix "?" = true
      \/ Js.startsWith postfix "#" = true)
  /\ (Js.includes fsPath "?" = true -> Js.includes fsPath "#" = true ->
      0 < Js.indexOf fsPath "?" ->
      postfix = Js.slice fsPath (Js.indexOf fsPath "?") None).
Proof.
  unfold splitFileAndPostfix.
  destruct (Js.indexOf fsPath "?" <? 0) eqn:Hq.
  - destruct (0 <? Js.indexOf fsPath "#") eqn:Hh.
    + assert (H0 : 0 <= Js.indexOf fsPath "#") by lia.
      destruct (indexOf_found _ _ H0) as [Hb Hs].
      split; [apply slice_split; lia|]. split; [|lia].
      right; right. rewrite slice_from by lia. exact Hs.
    + split; [apply append_empty_r|]. split; [now left|lia].
  - destruct (0 <? Js.indexOf fsPath "?") eqn:Hp.
    + assert (H0 : 0 <= Js.indexOf fsPath "?") by lia.
      destruct (indexOf_found _ _ H0) as [Hb Hs].
      split; [apply slice_split; lia|]. split; [|reflexivity].
      right; left. rewrite slice_from by lia. exact Hs.
    + split; [apply append_empty_r|]. split; [now left|lia].
Qed.

Lemma splitFileAndPostfix_spec_witness :
  splitFileAndPostfix "a#b?c" = ("a#b", "?c").
Proof.
  pose proof (splitFileAndPostfix_spec "a#b?c") as H.
  destruct (splitFileAndPostfix "a#b?c") as [file postfix] eqn:Hsplit.
  destruct H as (_ & _ & H).
  rewrite (H eq_refl eq_refl ltac:(vm_compute; reflexivity)).
  vm_compute in Hsplit. injection Hsplit as <- _. reflexivity.
Defined.

(** The two parts put together are the path, and the postfix is empty or
    begins with its marker. *)
Lemma splitFileAndPostfix_parts (path : string) :
  fst (splitFileAndPostfix path) +:+ snd (splitFileAndPostfix path) = path
  /\ (snd (splitFileAndPostfix path) = EmptyString
      \/ Js.startsWith (snd (splitFileAndPostfix path)) "?" = true
      \/ Js.startsWith (snd (splitFileAndPostfix path)) "#" = true).
Proof.
  unfold splitFileAndPostfix. cbv zeta.
  set (i := if Js.indexOf path "?" <? 0 then Js.indexOf path "#"
            else Js.indexOf path "?").
  destruct (0 <? i) eqn:Hi; cbn [fst snd];
    [|split; [apply append_empty_r|now left]].
  apply Z.ltb_lt in Hi.
  assert (Hfound : i <= Js.len path
                   /\ (Js.startsWith (Js.drop (Z.to_nat i) path) "?" = true
                       \/ Js.startsWith (Js.drop (Z.to_nat i) path) "#"
                          = true)).
  { subst i. destruct (Js.indexOf path "?" <? 0).
    - destruct (indexOf_found path "#") as [Hle Hs]; [lia|]. auto.
    - destruct (indexOf_found path "?") as [Hle Hs]; [lia|]. auto. }
  destruct Hfound as [Hle Hs].
  split; [apply slice_split; lia|]. right. rewrite slice_from by lia.
  exact Hs.
Qed.

(** ** The candidate package ids of a bare import *)

(** For ["a.b/c"] the part [c] has no extension, so it is kept as a possible
    package root next to ["a.b"]. *)
Lemma possiblePkgIds_dotted_name_keeps_subpath :
  possiblePkgIdsOf (nestedPathOf "a.b/c") = ["a.b"; "a.b/c"]
  /\ possiblePkgIdsOf (nestedPathOf "a.b/c") <> ["a.b"].
Proof. vm_compute. split; [reflexivity|discriminate]. Qed.

(** C3, as the code has it: the decomposition of ["@scope/a/b/c.js"] and of
    ["a/b/c.js"] skips the scope and the part with an extension; that of
    ["a.b/c"] keeps both prefixes, since only parts after the first that
    carry an extension are skipped. *)
Theorem possiblePkgIds_examples :
  possiblePkgIdsOf (nestedPathOf "@scope/a/b/c.js") = ["@scope/a"; "@scope/a/b"]
  /\ possiblePkgIdsOf (nestedPathOf "a/b/c.js") = ["a"; "a/b"]
  /\ possiblePkgIdsOf (nestedPathOf "a.b/c") = ["a.b"; "a.b/c"].
Proof. vm_compute. repeat split. Qed.

(** ** The error of [resolveDeepImport] for a subpath that is not exposed *)

Lemma indexOfAux_app (a s p : string) (k : Z) :
  Js.startsWith s p = true -> 0 <= k -> 0 <= Js.indexOfAux (a +:+ s) p k.
Proof.
  intros Hs. revert k. induction a as [|c a IH]; intros k Hk.
  - rewrite append_nil. destruct s; cbn [Js.indexOfAux]; rewrite Hs; exact Hk.
  - rewrite append_cons. cbn [Js.indexOfAux].
    destruct (Js.startsWith (String c (a +:+ s)) p); [exact Hk|].
    apply IH. lia.
Qed.

Lemma includes_infix (a b c : string) : Js.includes (a +:+ b +:+ c) b = true.
Proof.
  unfold Js.includes, Js.indexOf, Js.indexOfFrom. cbv zeta.
  replace (Z.min (Z.max 0 0) (Js.len (a +:+ b +:+ c))) with 0
    by (unfold Js.len; lia).
  change (Js.drop (Z.to_nat 0) (a +:+ b +:+ c)) with (a +:+ b +:+ c).
  apply Z.leb_le. apply indexOfAux_app; [apply startsWith_app|lia].
Qed.

(** C2, as the code has it. On a cache miss, for a package with an
    [exports] field: when the field is an object, an error of the exports
    resolver is the error of [resolveDeepImport], message and all; when it
    is a string or an array, the error raised names the manifest path, and
    where the requested subpath should be it prints [undefined], whatever
    the subpath: the message is built from [relativeId] after that variable
    has been set to [undefined]. *)
Theorem resolveDeepImport_error_prints_undefined (E : Env) (fuel : nat)
    (id : string) (pkg : PackageData) (targetWeb : bool)
    (options : InternalResolveOptions) (st : State) :
  let manifest := Path.join [pkg_dir pkg; "package.json"] in
  let msg :=
    "Package subpath 'undefined' is not defined by " +:+ Js.dquote
    +:+ "exports" +:+ Js.dquote +:+ " in " +:+ manifest +:+ "." in
  fst (getResolvedCache pkg id targetWeb st) = Ok None ->
  exportsTruthy (pj_exports (pkg_data pkg)) = true ->
  match pj_exports (pkg_data pkg) with
  | ExportsObject _ =>
      forall e,
        resolveExports E (pkg_data pkg) (fst (splitFileAndPostfix id))
          options targetWeb st = (Throw e, st) ->
        resolveDeepImport E fuel id pkg targetWeb options st = (Throw e, st)
  | _ =>
      resolveDeepImport E fuel id pkg targetWeb options st
      = (Throw (newError msg), st)
      /\ Js.includes msg manifest = true
  end.
Proof.
  intros manifest msg Hcache Htruthy.
  assert (Hmiss : forall k : option string -> M (option string),
    bind (getResolvedCache pkg id targetWeb) k st = k None st).
  { intros k. unfold bind, getResolvedCache, gets in *. cbv beta in *.
    simpl in Hcache. injection Hcache as ->. reflexivity. }
  assert (Hother :
    exportsIsPlainObject (pj_exports (pkg_data pkg)) = false ->
    resolveDeepImport E fuel id pkg targetWeb options st
    = (Throw (newError msg), st)
    /\ Js.includes msg manifest = true).
  { intros Hplain. split.
    - unfold resolveDeepImport. cbv zeta. rewrite Hmiss.
      change (Js.truthy None) with false. cbv iota.
      rewrite Htruthy, Hplain. reflexivity.
    - unfold msg.
      replace ("Package subpath 'undefined' is not defined by " +:+ Js.dquote
               +:+ "exports" +:+ Js.dquote +:+ " in " +:+ manifest +:+ ".")
        with (("Package subpath 'undefined' is not defined by " +:+ Js.dquote
               +:+ "exports" +:+ Js.dquote +:+ " in ") +:+ manifest +:+ ".")
        by now rewrite !append_assoc.
      apply includes_infix. }
  destruct (pj_exports (pkg_data pkg)) as [|s|o|xs] eqn:Hexports;
    try (apply Hother; reflexivity).
  intros e Hlib. unfold resolveDeepImport. cbv zeta. rewrite Hmiss.
  change (Js.truthy None) with false. cbv iota.
  rewrite Hexports. cbn [exportsTruthy exportsIsPlainObject].
  destruct (splitFileAndPostfix id) as [file postfix]. cbn [fst] in Hlib.
  cbv beta iota. unfold bind. rewrite Hlib. reflexivity.
Qed.

Lemma resolveDeepImport_error_prints_undefined_witness :
  (resolveDeepImport Workspace.workspace 0 "./lib/a.js" Workspace.qux true
     Workspace.options emptyState
   = (Throw (newError
        ("Package subpath 'undefined' is not defined by " +:+ Js.dquote
         +:+ "exports" +:+ Js.dquote
         +:+ " in /p/node_modules/qux/package.json.")), emptyState)
   /\ Js.includes
        ("Package subpath 'undefined' is not defined by " +:+ Js.dquote
         +:+ "exports" +:+ Js.dquote
         +:+ " in /p/node_modules/qux/package.json.")
        "/p/node_modules/qux/package.json" = true)
  /\ Js.includes
       ("Package subpath 'undefined' is not defined by " +:+ Js.dquote
        +:+ "exports" +:+ Js.dquote
        +:+ " in /p/node_modules/qux/package.json.") "lib/a.js" = false
  /\ resolveDeepImport Workspace.workspace 0 "./other" Workspace.bar true
       Workspace.options emptyState
     = (Throw (newError
          ("Missing " +:+ Js.dquote +:+ "./other" +:+ Js.dquote
           +:+ " export in " +:+ Js.dquote +:+ "bar" +:+ Js.dquote
           +:+ " package")), emptyState).
Proof.
  split; [|split].
  - exact (resolveDeepImport_error_prints_undefined Workspace.workspace 0
             "./lib/a.js" Workspace.qux true Workspace.options emptyState
             eq_refl eq_refl).
  - vm_compute. reflexivity.
  - apply (resolveDeepImport_error_prints_undefined Workspace.workspace 0
             "./other" Workspace.bar true Workspace.options emptyState
             eq_refl eq_refl).
    vm_compute. reflexivity.
Defined.

(** ** [tryOptimizedResolve] without an importer *)

(** C10: called without an importer, for an id the optimizer's metadata do
    not list, [tryOptimizedResolve] returns [undefined] whatever
    [depInfoList] holds. *)
Theorem tryOptimizedResolve_no_importer (E : Env) (depsOptimizer : DepsOptimizer)
    (ssr : bool) (id : string) (importer : option string) (st : State) :
  Js.truthy importer = false ->
  (forall md, metadata depsOptimizer ssr = Some md ->
              optimizedDepInfoFromId E md id = None) ->
  tryOptimizedResolve E depsOptimizer ssr id importer st = (Ok None, st).
Proof.
  intros Himp Hdirect. unfold tryOptimizedResolve.
  destruct (metadata depsOptimizer ssr) as [md|] eqn:Hmd; [|reflexivity].
  rewrite (Hdirect md eq_refl), Himp. reflexivity.
Qed.

Lemma tryOptimizedResolve_no_importer_witness :
  tryOptimizedResolve Workspace.workspace Workspace.optimizer false "foo" None
    emptyState = (Ok None, emptyState)
  /\ fst (tryOptimizedResolve Workspace.workspace Workspace.optimizer false
            "foo" (Some "/p/node_modules/my-lib/index.js") emptyState)
     = Ok (Some "/p/node_modules/.vite/deps/my-lib___foo.js?v=abc").
Proof.
  split.
  - apply tryOptimizedResolve_no_importer; [reflexivity|].
    intros md _. reflexivity.
  - vm_compute. reflexivity.
Defined.

(** ** The orchestrator *)

Lemma orElse_none (step : M (option ResolutionResult))
    (next : M ResolutionResult) (st st' : State) :
  step st = (Ok None, st') -> orElse step next st = next st'.
Proof. intros H. unfold orElse, bind. now rewrite H. Qed.

Lemma orElse_some (step : M (option ResolutionResult))
    (next : M ResolutionResult) (st st' : State) (r : ResolutionResult) :
  step st = (Ok (Some r), st') -> orElse step next st = (Ok r, st').
Proof. intros H. unfold orElse, bind. now rewrite H. Qed.

Lemma fs_prefix_not_browserExternal (id : string) :
  Js.startsWith id FS_PREFIX = true ->
  Js.startsWith id browserExternalId = false
  /\ String.eqb id "commonjsHelpers.js" = false.
Proof.
  intros H. destruct (startsWith_inv _ _ H) as [t ->]. split; reflexivity.
Qed.

(** *** Explicit filesystem paths *)

(** An [/@fs/] specifier that carries [?commonjs] is left to the commonjs
    plugin: the hook returns [undefined]. *)
Lemma resolveId_fs_prefix_commonjs_undefined :
  o_asSrc Workspace.options = true
  /\ Js.startsWith "/@fs/p/src/util.ts?commonjs-proxy" FS_PREFIX = true
  /\ fst (resolveId Workspace.workspace 10 Workspace.options
            "/@fs/p/src/util.ts?commonjs-proxy" None None emptyState)
     = Ok ResUndefined.
Proof. vm_compute. repeat split. Qed.

(** C8, as the code has it: for a specifier that starts with [/@fs/] and does
    not contain [?commonjs], with [asSrc]: when the optimizer claims it as
    the URL of an optimized dependency the hook returns the stripped path
    without a probe; otherwise, when the probe returns, the hook returns the
    probe's result if there is one and the stripped path if not, and an error
    of the probe is the error of the hook. *)
Theorem resolveId_fs_prefix (E : Env) (fuel : nat)
    (resolveOptions : InternalResolveOptions) (id : string)
    (importer : option string) (resolveOpts : option ResolveIdOptions)
    (st : State) :
  o_asSrc resolveOptions = true ->
  Js.startsWith id FS_PREFIX = true ->
  Js.includes id "?commonjs" = false ->
  let st0 := snd (setSkipPackageJson (o_skipPackageJson resolveOptions) st) in
  let fsPath := fsPathFromId E id in
  resolveId E fuel resolveOptions id importer resolveOpts st =
  if match o_getDepsOptimizer resolveOptions with
     | Some d => isOptimizedDepUrl d id
     | None => false
     end
  then (Ok (ResString fsPath), st0)
  else
    match tryFsResolve E fuel fsPath
            (optionsFor E resolveOptions importer resolveOpts) true true st0 with
    | (Ok res, st') =>
        (Ok (ResString (if Js.truthy res then default EmptyString res
                        else fsPath)), st')
    | (Throw e, st') => (Throw e, st')
    | (OutOfFuel, st') => (OutOfFuel, st')
    end.
Proof.
  intros HasSrc Hfs Hcjs st0 fsPath.
  destruct (fs_prefix_not_browserExternal id Hfs) as [Hbe Hhelpers].
  unfold resolveId. rewrite Hbe, Hcjs, Hhelpers, HasSrc, Hfs.
  subst st0. unfold bind at 1. simpl.
  destruct (match o_getDepsOptimizer resolveOptions with
            | Some d => isOptimizedDepUrl d id
            | None => false
            end); [reflexivity|].
  unfold bind. fold fsPath.
  destruct (tryFsResolve E fuel fsPath _ true true _) as [[res|e|] st'];
    reflexivity.
Qed.

Lemma resolveId_fs_prefix_witness :
  resolveId Workspace.workspace 10 Workspace.options "/@fs/p/src/missing.ts"
    None None emptyState
  = (Ok (ResString "/p/src/missing.ts"), emptyState).
Proof.
  rewrite resolveId_fs_prefix by reflexivity.
  vm_compute. reflexivity.
Defined.

(** *** Node built-ins *)

(** C9: a bare specifier that is a Node built-in and that no earlier step of
    the hook resolves is, for SSR, externalized, or refused with an error
    when [ssr.noExternal] is [true]; for the client it is redirected to the
    browser-external id, bare in production and followed by [:<id>] in
    development. *)
Theorem resolveId_builtin (E : Env) (fuel : nat)
    (resolveOptions : InternalResolveOptions) (id : string)
    (importer : option string) (resolveOpts : option ResolveIdOptions)
    (st st1 st2 st3 st4 st5 st6 : State) :
  let options := optionsFor E resolveOptions importer resolveOpts in
  let targetWeb := targetWebOf resolveOptions resolveOpts in
  let ssr := ssrOf resolveOpts in
  bareImportRE E id = true ->
  isBuiltin E id = true ->
  (* not otherwise resolved *)
  Js.startsWith id browserExternalId = false ->
  Js.includes id "?commonjs" || String.eqb id "commonjsHelpers.js" = false ->
  o_asSrc resolveOptions
  && match o_getDepsOptimizer resolveOptions with
     | Some d => isOptimizedDepUrl d id
     | None => false
     end = false ->
  o_asSrc resolveOptions && Js.startsWith id FS_PREFIX = false ->
  resolveRootUrl E fuel resolveOptions options id
    (snd (setSkipPackageJson (o_skipPackageJson resolveOptions) st))
  = (Ok None, st1) ->
  resolveRelative E fuel resolveOptions options targetWeb ssr id importer st1
  = (Ok None, st2) ->
  resolveAbsolute E fuel options id st2 = (Ok None, st3) ->
  isExternalUrl E id = false ->
  isDataUrl E id = false ->
  resolveBareOptimized E resolveOptions options ssr id importer st3
  = (Ok None, st4) ->
  resolveBareBrowser E fuel options targetWeb id importer st4 = (Ok None, st5) ->
  resolveBareNode E fuel resolveOptions options targetWeb ssr id importer st5
  = (Ok None, st6) ->
  resolveId E fuel resolveOptions id importer resolveOpts st =
  if ssr then
    match o_ssrConfig resolveOptions ≫= (fun c => Some (ssr_noExternal c)) with
    | Some NoExternalTrue =>
        (Throw (newError (builtinMessage E id importer)), st6)
    | _ =>
        (Ok (ResRecord {| pr_id := id; pr_external := Some true;
                          pr_moduleSideEffects := None |}), st6)
    end
  else if o_isProduction resolveOptions
  then (Ok (ResString browserExternalId), st6)
  else (Ok (ResString (browserExternalId +:+ ":" +:+ id)), st6).
Proof.
  intros options targetWeb ssr Hbare Hbuiltin Hbe Hcjs Hopt Hfs
    Hurl Hrel Habs Hext Hdata Hbo Hbb Hbn.
  unfold resolveId. rewrite Hbe, Hcjs.
  unfold bind at 1. unfold setSkipPackageJson, modify in *.
  cbv beta iota. cbn [snd] in Hurl.
  rewrite Hopt, Hfs.
  fold options targetWeb ssr.
  rewrite (orElse_none _ _ _ _ Hurl), (orElse_none _ _ _ _ Hrel),
    (orElse_none _ _ _ _ Habs).
  rewrite Hext, Hdata, Hbare.
  rewrite (orElse_none _ _ _ _ Hbo), (orElse_none _ _ _ _ Hbb),
    (orElse_none _ _ _ _ Hbn).
  rewrite Hbuiltin. unfold resolveBuiltin.
  destruct ssr; [|destruct (o_isProduction resolveOptions); reflexivity].
  destruct (o_ssrConfig resolveOptions) as [c|]; [|reflexivity].
  simpl. destruct (ssr_noExternal c); reflexivity.
Qed.

Lemma resolveId_builtin_witness :
  resolveId Workspace.workspace 10 Workspace.options "fs"
    (Some "/p/src/app.ts") None emptyState
  = (Ok (ResString "__vite-browser-external:fs"), emptyState)
  /\ resolveId Workspace.workspace 10 Workspace.options "fs"
       (Some "/p/src/app.ts") Workspace.ssrCall emptyState
     = (Ok (ResRecord {| pr_id := "fs"; pr_external := Some true;
                         pr_moduleSideEffects := None |}), emptyState)
  /\ fst (resolveId Workspace.workspace 10 Workspace.noExternalOptions "fs"
            (Some "/p/src/app.ts") Workspace.ssrCall emptyState)
     = Throw (newError (builtinMessage Workspace.workspace "fs"
                          (Some "/p/src/app.ts"))).
Proof.
  split; [|split].
  - rewrite (resolveId_builtin Workspace.workspace 10 Workspace.options "fs"
               (Some "/p/src/app.ts") None emptyState emptyState emptyState
               emptyState emptyState emptyState emptyState);
      vm_compute; reflexivity.
  - rewrite (resolveId_builtin Workspace.workspace 10 Workspace.options "fs"
               (Some "/p/src/app.ts") Workspace.ssrCall emptyState emptyState
               emptyState emptyState emptyState emptyState emptyState);
      vm_compute; reflexivity.
  - rewrite (resolveId_builtin Workspace.workspace 10
               Workspace.noExternalOptions "fs"
               (Some "/p/src/app.ts") Workspace.ssrCall emptyState emptyState
               emptyState emptyState emptyState emptyState emptyState);
      vm_compute; reflexivity.
Defined.

(** ** Paths *)

Lemma noSlash_app (a b : string) :
  Path.noSlash (a +:+ b) = Path.noSlash a && Path.noSlash b.
Proof.
  induction a as [|c a IH]; [reflexivity|].
  rewrite append_cons. simpl. rewrite IH. now rewrite andb_assoc.
Qed.

Lemma splitSlash_not_nil (s : string) : Path.splitSlash s <> [].
Proof.
  induction s as [|c s IH]; simpl; [discriminate|].
  destruct (Ascii.eqb c Path.slashChar); [discriminate|].
  destruct (Path.splitSlash s); discriminate.
Qed.

Lemma splitSlash_noSlash (s : string) :
  Forall (fun x => Path.noSlash x = true) (Path.splitSlash s).
Proof.
  induction s as [|c s IH]; simpl.
  - now constructor.
  - destruct (Ascii.eqb c Path.slashChar) eqn:Hc.
    + now constructor.
    + destruct (Path.splitSlash s) as [|x xs]; constructor; auto.
      * simpl. now rewrite Hc.
      * inversion IH; subst. simpl. rewrite Hc. assumption.
      * now inversion IH.
Qed.

Lemma splitSlash_cons (x y : string) :
  Path.noSlash x = true ->
  Path.splitSlash (x +:+ "/" +:+ y) = x :: Path.splitSlash y.
Proof.
  induction x as [|c x IH]; intros Hx.
  - reflexivity.
  - simpl in Hx. apply andb_true_iff in Hx as [Hc Hx].
    rewrite append_cons. simpl.
    destruct (Ascii.eqb c Path.slashChar); [discriminate|].
    now rewrite (IH Hx).
Qed.

Lemma splitSlash_segment (x : string) :
  Path.noSlash x = true -> Path.splitSlash x = [x].
Proof.
  induction x as [|c x IH]; intros Hx; [reflexivity|].
  simpl in Hx. apply andb_true_iff in Hx as [Hc Hx]. simpl.
  destruct (Ascii.eqb c Path.slashChar); [discriminate|].
  now rewrite (IH Hx).
Qed.

Lemma joinSlash_cons (x y : string) (l : list string) :
  Path.joinSlash (x :: y :: l) = x +:+ "/" +:+ Path.joinSlash (y :: l).
Proof. reflexivity. Qed.

Lemma splitSlash_joinSlash (l : list string) :
  l <> [] -> Forall (fun x => Path.noSlash x = true) l ->
  Path.splitSlash (Path.joinSlash l) = l.
Proof.
  induction l as [|x l IH]; intros Hne Hl; [congruence|].
  inversion Hl as [|? ? Hx Hl']; subst.
  destruct l as [|y l].
  - simpl. now apply splitSlash_segment.
  - rewrite joinSlash_cons, splitSlash_cons by assumption.
    f_equal. apply IH; [discriminate|assumption].
Qed.

Lemma joinSlash_snoc_empty (l : list string) :
  l <> [] -> Path.joinSlash (l ++ [EmptyString]) = Path.joinSlash l +:+ "/".
Proof.
  induction l as [|x l IH]; intros Hne; [congruence|].
  destruct l as [|y l].
  - simpl. reflexivity.
  - change ((x :: y :: l) ++ [EmptyString]) with (x :: (y :: l) ++ [EmptyString]).
    change ((y :: l) ++ [EmptyString]) with (y :: l ++ [EmptyString]) at 1.
    rewrite !joinSlash_cons.
    change (y :: l ++ [EmptyString]) with ((y :: l) ++ [EmptyString]).
    rewrite IH by discriminate.
    rewrite !append_assoc. reflexivity.
Qed.

Lemma isName_inv (seg : string) :
  Path.isName seg = true ->
  String.eqb seg "" = false /\ String.eqb seg "." = false
  /\ String.eqb seg ".." = false.
Proof.
  unfold Path.isName. intros H. apply negb_true_iff in H.
  apply orb_false_iff in H as [H H2]. apply orb_false_iff in H as [H0 H1].
  auto.
Qed.

Lemma normStep_name (allow : bool) (stack : list string) (seg : string) :
  Path.isName seg = true -> Path.normStep allow stack seg = seg :: stack.
Proof.
  intros H. destruct (isName_inv _ H) as (H0 & H1 & H2).
  unfold Path.normStep. now rewrite H0, H1, H2.
Qed.

Lemma normStep_stackOK (allow : bool) (stack : list string) (seg : string) :
  Path.stackOK allow stack -> Path.stackOK allow (Path.normStep allow stack seg).
Proof.
  intros (names & k & -> & Hn & Hk).
  destruct (Path.isName seg) eqn:Hseg.
  - rewrite normStep_name by assumption.
    exists (seg :: names), k. repeat split; auto.
  - unfold Path.normStep.
    destruct (String.eqb seg "" || String.eqb seg ".") eqn:Hskip.
    + exists names, k. auto.
    + assert (Hdd : String.eqb seg ".." = true).
      { unfold Path.isName in Hseg. apply negb_false_iff in Hseg.
        rewrite Hskip in Hseg. exact Hseg. }
      rewrite Hdd.
      destruct names as [|n names].
      * destruct k as [|k]; simpl.
        -- destruct allow.
           ++ exists [], 1%nat. repeat split; auto. discriminate.
           ++ exists [], 0%nat. repeat split; auto.
        -- destruct allow.
           ++ exists [], (S (S k)). repeat split; auto. discriminate.
           ++ specialize (Hk eq_refl). discriminate.
      * inversion Hn as [|? ? Hname Hn']; subst. simpl.
        destruct (isName_inv _ Hname) as (_ & _ & ->).
        exists names, k. auto.
Qed.

Lemma fold_normStep_stackOK (allow : bool) (segs stack : list string) :
  Path.stackOK allow stack ->
  Path.stackOK allow (fold_left (Path.normStep allow) segs stack).
Proof.
  revert stack; induction segs as [|seg segs IH]; intros stack H; simpl; auto.
  apply IH. now apply normStep_stackOK.
Qed.

Lemma fold_normStep_names (allow : bool) (names stack : list string) :
  Forall (fun s => Path.isName s = true) names ->
  fold_left (Path.normStep allow) names stack = List.rev names ++ stack.
Proof.
  revert stack; induction names as [|n names IH]; intros stack H; simpl; auto.
  inversion H; subst. rewrite normStep_name by assumption.
  rewrite IH by assumption. now rewrite <- app_assoc.
Qed.

Lemma fold_normStep_dots (k j : nat) :
  fold_left (Path.normStep true) (repeat ".." k) (repeat ".." j)
  = repeat ".." (k + j).
Proof.
  revert j; induction k as [|k IH]; intros j; [reflexivity|].
  change (fold_left (Path.normStep true) (repeat ".." (S k)) (repeat ".." j))
    with (fold_left (Path.normStep true) (repeat ".." k)
            (Path.normStep true (repeat ".." j) "..")).
  replace (Path.normStep true (repeat ".." j) "..") with (repeat ".." (S j))
    by (destruct j; reflexivity).
  rewrite IH. f_equal. lia.
Qed.

(** The segments [normalizeString] yields: a run of [..], then names. *)
Lemma normSegs_form (allow : bool) (segs : list string) :
  exists names k,
    Path.normSegs allow segs = repeat ".." k ++ names
    /\ Forall (fun s => Path.isName s = true) names
    /\ (allow = false -> k = 0%nat).
Proof.
  destruct (fold_normStep_stackOK allow segs [])
    as (names & k & Hs & Hn & Hk).
  - exists [], 0%nat. repeat split; auto.
  - exists (List.rev names), k. unfold Path.normSegs. rewrite Hs.
    rewrite rev_app_distr, rev_repeat. repeat split; auto.
    now apply Forall_rev.
Qed.

(** Such segments are left as they are. *)
Lemma normSegs_fixed (allow : bool) (names : list string) (k : nat) :
  Forall (fun s => Path.isName s = true) names ->
  (allow = false -> k = 0%nat) ->
  Path.normSegs allow (repeat ".." k ++ names) = repeat ".." k ++ names.
Proof.
  intros Hn Hk. unfold Path.normSegs. rewrite fold_left_app.
  assert (Hd : fold_left (Path.normStep allow) (repeat ".." k) []
               = repeat ".." k).
  { destruct allow.
    - change (@nil string) with (repeat ".." 0).
      rewrite (fold_normStep_dots k 0). f_equal. lia.
    - rewrite (Hk eq_refl). reflexivity. }
  rewrite Hd, fold_normStep_names by assumption.
  now rewrite rev_app_distr, rev_involutive, rev_repeat.
Qed.

Lemma normSegs_idempotent (allow : bool) (segs : list string) :
  Path.normSegs allow (Path.normSegs allow segs) = Path.normSegs allow segs.
Proof.
  destruct (normSegs_form allow segs) as (names & k & -> & Hn & Hk).
  now apply normSegs_fixed.
Qed.

Lemma normSegs_empty_front (allow : bool) (segs : list string) :
  Path.normSegs allow (EmptyString :: segs) = Path.normSegs allow segs.
Proof. reflexivity. Qed.

Lemma normSegs_empty_back (allow : bool) (segs : list string) :
  Path.normSegs allow (segs ++ [EmptyString]) = Path.normSegs allow segs.
Proof. unfold Path.normSegs. now rewrite fold_left_app. Qed.

Lemma normStep_noSlash (allow : bool) (stack : list string) (seg : string) :
  Forall (fun x => Path.noSlash x = true) stack -> Path.noSlash seg = true ->
  Forall (fun x => Path.noSlash x = true) (Path.normStep allow stack seg).
Proof.
  intros Hs Hseg. unfold Path.normStep.
  destruct (String.eqb seg "" || String.eqb seg "."); auto.
  destruct (String.eqb seg "..").
  - destruct stack as [|top rest].
    + destruct allow; auto.
    + destruct (String.eqb top ".."); [destruct allow; auto|].
      now inversion Hs.
  - auto.
Qed.

Lemma normSegs_noSlash (allow : bool) (segs : list string) :
  Forall (fun x => Path.noSlash x = true) segs ->
  Forall (fun x => Path.noSlash x = true) (Path.normSegs allow segs).
Proof.
  intros H. unfold Path.normSegs. apply Forall_rev.
  assert (G : forall stack,
             Forall (fun x => Path.noSlash x = true) stack ->
             Forall (fun x => Path.noSlash x = true)
               (fold_left (Path.normStep allow) segs stack)).
  { induction H as [|seg segs Hseg Hsegs IH]; intros stack Hs; simpl; auto.
    apply IH. now apply normStep_noSlash. }
  apply G. constructor.
Qed.

Lemma length_append (a b : string) :
  String.length (a +:+ b) = (String.length a + String.length b)%nat.
Proof.
  induction a as [|c a IH]; [reflexivity|].
  rewrite append_cons. simpl. now rewrite IH.
Qed.

Lemma drop_append (a b : string) : Js.drop (String.length a) (a +:+ b) = b.
Proof.
  induction a as [|c a IH]; [now destruct b|].
  rewrite append_cons. simpl. exact IH.
Qed.

Lemma endsWith_snoc (t : string) (c : ascii) :
  Js.endsWith (t +:+ String c EmptyString) "/" = Ascii.eqb c "/".
Proof.
  unfold Js.endsWith. rewrite length_append. simpl String.length.
  replace (String.length t + 1 - 1)%nat with (String.length t) by lia.
  rewrite drop_append.
  replace (1 <=? String.length t + 1)%nat with true
    by (symmetry; apply Nat.leb_le; lia).
  simpl. destruct (Ascii.eqb c "/"); reflexivity.
Qed.

Lemma string_snoc (s : string) :
  Js.nonEmpty s = true -> exists t c, s = t +:+ String c EmptyString.
Proof.
  induction s as [|d s IH]; intros H; [discriminate|].
  destruct s as [|e s].
  - now exists EmptyString, d.
  - destruct (IH eq_refl) as (t & c & Ht).
    exists (String d t), c. rewrite append_cons. now rewrite <- Ht.
Qed.

(** The elements of a normal form: names or [..]. *)
Lemma normal_form_elements (names : list string) (k : nat) (x : string) :
  Forall (fun s => Path.isName s = true) names ->
  In x (repeat ".." k ++ names) -> Js.nonEmpty x = true.
Proof.
  intros Hn Hin. apply in_app_or in Hin as [Hin|Hin].
  - apply repeat_spec in Hin. now subst.
  - rewrite List.Forall_forall in Hn. specialize (Hn _ Hin).
    destruct (isName_inv _ Hn) as (H0 & _). now destruct x.
Qed.

Lemma joinSlash_head (c : ascii) (h : string) (t : list string) :
  exists rest, Path.joinSlash (String c h :: t) = String c rest.
Proof.
  destruct t as [|y t].
  - now exists h.
  - rewrite joinSlash_cons, append_cons. eauto.
Qed.

Lemma joinSlash_last (init : list string) (l : string) :
  exists x, Path.joinSlash (init ++ [l]) = x +:+ l.
Proof.
  induction init as [|a init IH].
  - now exists EmptyString.
  - destruct IH as (x & Hx).
    destruct init as [|b init].
    + exists (a +:+ "/"). simpl. now rewrite append_assoc.
    + change ((a :: b :: init) ++ [l]) with (a :: b :: (init ++ [l])).
      rewrite joinSlash_cons.
      change (b :: init ++ [l]) with ((b :: init) ++ [l]). rewrite Hx.
      exists (a +:+ "/" +:+ x). now rewrite !append_assoc.
Qed.

Lemma startsWith_slash_cons (c : ascii) (s : string) :
  Js.startsWith (String c s) "/" = Ascii.eqb "/" c.
Proof.
  change (Js.startsWith (String c s) "/") with (Ascii.eqb "/" c && true).
  apply andb_true_r.
Qed.

Lemma noSlash_cons (c : ascii) (s : string) :
  Path.noSlash (String c s) = negb (Ascii.eqb c "/") && Path.noSlash s.
Proof. reflexivity. Qed.

Lemma noSlash_first (c : ascii) (s : string) :
  Path.noSlash (String c s) = true -> Ascii.eqb "/" c = false.
Proof.
  rewrite noSlash_cons. intros H. apply andb_true_iff in H as [H _].
  apply negb_true_iff in H. now rewrite Ascii.eqb_sym.
Qed.

Lemma noSlash_last (t : string) (c : ascii) :
  Path.noSlash (t +:+ String c EmptyString) = true -> Ascii.eqb c "/" = false.
Proof.
  rewrite noSlash_app, noSlash_cons. intros H.
  apply andb_true_iff in H as [_ H].
  apply andb_true_iff in H as [H _]. now apply negb_true_iff in H.
Qed.

Lemma joinSlash_empty_front (l : list string) :
  l <> [] -> Path.joinSlash (EmptyString :: l) = "/" +:+ Path.joinSlash l.
Proof. destruct l; [congruence|reflexivity]. Qed.

Lemma joinSlash_wrap (abs trailing : bool) (l : list string) :
  l <> [] ->
  (if abs then "/" else "") +:+ Path.joinSlash l
  +:+ (if trailing then "/" else "")
  = Path.joinSlash ((if abs then [EmptyString] else [])
                    ++ l ++ (if trailing then [EmptyString] else [])).
Proof.
  intros Hne.
  assert (Hback : Path.joinSlash l +:+ (if trailing then "/" else "")
                  = Path.joinSlash (l ++ (if trailing then [EmptyString] else []))).
  { destruct trailing.
    - now rewrite joinSlash_snoc_empty.
    - now rewrite app_nil_r, append_empty_r. }
  rewrite Hback. destruct abs; [|reflexivity].
  change ([EmptyString] ++ l ++ (if trailing then [EmptyString] else []))
    with (EmptyString :: (l ++ (if trailing then [EmptyString] else []))).
  rewrite joinSlash_empty_front; [reflexivity|].
  destruct l; [congruence|discriminate].
Qed.

(** A path put together from normal segments is left as it is. *)
Lemma normalize_of_normal (abs trailing : bool) (names : list string) (k : nat) :
  let segs := repeat ".." k ++ names in
  segs <> [] ->
  Forall (fun s => Path.isName s = true) names ->
  Forall (fun x => Path.noSlash x = true) segs ->
  (negb abs = false -> k = 0%nat) ->
  let p := (if abs then "/" else "") +:+ Path.joinSlash segs
           +:+ (if trailing then "/" else "") in
  Path.normalize p = p.
Proof.
  intros segs Hne Hn Hs Hk p.
  assert (Helem : forall x, In x segs -> Js.nonEmpty x = true)
    by (intros x; now apply normal_form_elements).
  (* the first and the last segment *)
  destruct segs as [|h t] eqn:Hsegs; [congruence|].
  assert (Hh : Js.nonEmpty h = true) by (apply Helem; now left).
  destruct h as [|c h]; [discriminate|].
  destruct (joinSlash_head c h t) as (rest & Hrest).
  destruct (exists_last Hne) as (init & l & Hlast).
  assert (Hl : Js.nonEmpty l = true).
  { apply Helem. rewrite Hlast. apply in_or_app. right. now left. }
  destruct (string_snoc l Hl) as (lt & lc & ->).
  destruct (joinSlash_last init (lt +:+ String lc EmptyString)) as (x & Hx).
  rewrite <- Hlast in Hx.
  assert (Hc : Ascii.eqb "/" c = false).
  { inversion Hs; subst. now apply noSlash_first with h. }
  assert (Hlc : Ascii.eqb lc "/" = false).
  { rewrite List.Forall_forall in Hs. apply noSlash_last with lt. apply Hs.
    rewrite Hlast. apply in_or_app. right. now left. }
  (* the path as a join of segments *)
  assert (Hjoin : p = Path.joinSlash ((if abs then [EmptyString] else [])
                        ++ (String c h :: t)
                        ++ (if trailing then [EmptyString] else [])))
    by (apply joinSlash_wrap; discriminate).
  assert (Hsplit : Path.splitSlash p
                   = (if abs then [EmptyString] else [])
                     ++ (String c h :: t)
                     ++ (if trailing then [EmptyString] else [])).
  { rewrite Hjoin. apply splitSlash_joinSlash.
    - destruct abs; discriminate.
    - apply Forall_app. split; [destruct abs; repeat constructor|].
      apply Forall_app. split; [assumption|].
      destruct trailing; repeat constructor. }
  assert (Habs : Path.isAbsolute p = abs).
  { subst p. unfold Path.isAbsolute. rewrite Hrest.
    destruct abs; [reflexivity|].
    rewrite append_nil, append_cons, startsWith_slash_cons. exact Hc. }
  assert (Htr : Js.endsWith p "/" = trailing).
  { subst p. destruct trailing.
    - rewrite <- append_assoc, (endsWith_snoc _ "/"). reflexivity.
    - rewrite append_empty_r, Hx, <- !append_assoc, endsWith_snoc.
      exact Hlc. }
  assert (Hnorm : Path.normalizeString p (negb abs)
                  = Path.joinSlash (String c h :: t)).
  { unfold Path.normalizeString. rewrite Hsplit. f_equal.
    assert (Hfront : Path.normSegs (negb abs)
               ((if abs then [EmptyString] else [])
                ++ (String c h :: t) ++ (if trailing then [EmptyString] else []))
             = Path.normSegs (negb abs)
                 ((String c h :: t) ++ (if trailing then [EmptyString] else [])))
      by (destruct abs; reflexivity).
    rewrite Hfront.
    assert (Hback : Path.normSegs (negb abs)
               ((String c h :: t) ++ (if trailing then [EmptyString] else []))
             = Path.normSegs (negb abs) (String c h :: t)).
    { destruct trailing; [apply normSegs_empty_back|now rewrite app_nil_r]. }
    rewrite Hback, <- Hsegs. now apply normSegs_fixed. }
  unfold Path.normalize. rewrite Habs, Htr, Hnorm.
  assert (Hp : String.eqb p "" = false).
  { subst p. rewrite Hrest. destruct abs; reflexivity. }
  rewrite Hp, Hrest. simpl String.eqb. cbv iota.
  subst p. rewrite Hrest. destruct abs, trailing;
    rewrite ?append_nil, ?append_empty_r; reflexivity.
Qed.

Lemma joinSlash_nil_iff (l : list string) :
  Path.joinSlash l = EmptyString -> l = [] \/ l = [EmptyString].
Proof.
  destruct l as [|x [|y l]]; simpl; auto.
  - intros ->. now right.
  - intros H. destruct x; discriminate.
Qed.

(** [path.posix.normalize] is idempotent. *)
Lemma normalize_idempotent (p : string) :
  Path.normalize (Path.normalize p) = Path.normalize p.
Proof.
  remember (Path.normalize p) as n eqn:Hn'. unfold Path.normalize in Hn'.
  destruct (String.eqb p ""); [now subst n|].
  unfold Path.normalizeString in Hn'.
  destruct (normSegs_form (negb (Path.isAbsolute p)) (Path.splitSlash p))
    as (names & k & Hform & Hn & Hk).
  pose proof (normSegs_noSlash (negb (Path.isAbsolute p)) _
                (splitSlash_noSlash p)) as Hs.
  rewrite Hform in *.
  destruct (String.eqb (Path.joinSlash (repeat ".." k ++ names)) "") eqn:Hq.
  - destruct (Path.isAbsolute p); [now subst n|].
    destruct (Js.endsWith p "/"); now subst n.
  - assert (Hne : repeat ".." k ++ names <> []).
    { intros Hnil. rewrite Hnil in Hq. discriminate. }
    pose proof (normalize_of_normal (Path.isAbsolute p) (Js.endsWith p "/")
                  names k Hne Hn Hs Hk) as Hfix.
    cbv zeta in Hfix.
    destruct (Path.isAbsolute p), (Js.endsWith p "/");
      rewrite ?append_nil, ?append_empty_r in Hfix; subst n; exact Hfix.
Qed.

Lemma normalize_absolute (p : string) :
  Path.isAbsolute p = true -> Path.isAbsolute (Path.normalize p) = true.
Proof.
  intros H. destruct p as [|c p]; [discriminate|].
  unfold Path.normalize. rewrite H.
  change (String.eqb (String c p) "") with false. cbv iota zeta.
  destruct (String.eqb _ ""); [reflexivity|].
  destruct (Js.endsWith _ "/"); reflexivity.
Qed.

Lemma normalize_nonEmpty (p : string) : Js.nonEmpty (Path.normalize p) = true.
Proof.
  unfold Path.normalize.
  destruct (String.eqb p ""); [reflexivity|].
  destruct (String.eqb (Path.normalizeString p _) "") eqn:Hq.
  - destruct (Path.isAbsolute p); [reflexivity|].
    destruct (Js.endsWith p "/"); reflexivity.
  - destruct (Path.normalizeString p _) as [|c q]; [discriminate|].
    destruct (Path.isAbsolute p), (Js.endsWith p "/"); reflexivity.
Qed.

Lemma isAbsolute_append (a b : string) :
  Path.isAbsolute a = true -> Path.isAbsolute (a +:+ b) = true.
Proof.
  unfold Path.isAbsolute. intros H.
  destruct (startsWith_inv _ _ H) as [t ->].
  rewrite append_assoc. apply startsWith_app.
Qed.

(** What [path.join] gives for an absolute directory is absolute and
    normalized. *)
Lemma join_absolute (dir x : string) :
  Path.isAbsolute dir = true ->
  Path.isAbsolute (Path.join [dir; x]) = true
  /\ Path.normalize (Path.join [dir; x]) = Path.join [dir; x].
Proof.
  intros H. unfold Path.join.
  assert (Hd : Js.nonEmpty dir = true) by (destruct dir; [discriminate|reflexivity]).
  cbn [List.filter]. rewrite Hd.
  destruct (Js.nonEmpty x).
  - split; [|apply normalize_idempotent].
    apply normalize_absolute. rewrite joinSlash_cons.
    now apply isAbsolute_append.
  - split; [|apply normalize_idempotent]. now apply normalize_absolute.
Qed.

Lemma resolveAux_absolute (parts : list string) (acc : string) :
  snd (Path.resolveAux parts acc) = true ->
  Path.isAbsolute (fst (Path.resolveAux parts acc)) = true.
Proof.
  revert acc; induction parts as [|p ps IH]; intros acc; simpl.
  - discriminate.
  - destruct (Js.nonEmpty p); [|apply IH].
    destruct (Path.isAbsolute p) eqn:Hp; [|apply IH].
    simpl. intros _. now apply isAbsolute_append.
Qed.

(** [path.resolve] gives an absolute path when the working directory is
    one. *)
Lemma resolve_absolute (cwd : string) (parts : list string) :
  Path.isAbsolute cwd = true ->
  Path.isAbsolute (Path.resolve cwd parts) = true.
Proof.
  intros Hcwd. unfold Path.resolve.
  destruct (Path.resolveAux (List.rev parts) "") as [acc abs].
  destruct abs; [reflexivity|]. rewrite Hcwd. reflexivity.
Qed.

(** ** Runs of the monad *)

Lemma bind_ok_inv {A B} (m : M A) (k : A -> M B) (st st' : State) (b : B) :
  bind m k st = (Ok b, st') ->
  exists a st1, m st = (Ok a, st1) /\ k a st1 = (Ok b, st').
Proof.
  unfold bind. destruct (m st) as [[a|e|] st1]; intros H; try discriminate.
  eauto.
Qed.

Lemma tryCatch_ok_inv {A} (m : M A) (h : JsError -> M A) (st st' : State)
    (a : A) :
  tryCatch m h st = (Ok a, st') ->
  m st = (Ok a, st')
  \/ exists e st1, m st = (Throw e, st1) /\ h e st1 = (Ok a, st').
Proof.
  unfold tryCatch. destruct (m st) as [[a0|e|] st1]; intros H;
    try discriminate; eauto.
Qed.

Lemma firstTruthy_ok_inv {A} (f : A -> M (option string)) (l : list A)
    (st st' : State) (r : option string) :
  firstTruthy f l st = (Ok r, st') -> Js.truthy r = true ->
  exists x st1, In x l /\ f x st1 = (Ok r, st').
Proof.
  revert st; induction l as [|x l IH]; intros st H Hr; simpl in H.
  - unfold ret in H. injection H as <- _. discriminate.
  - apply bind_ok_inv in H as (res & st1 & Hf & H).
    destruct (Js.truthy res) eqn:Hres.
    + unfold ret in H. injection H as <- <-. exists x, st. split; [now left|].
      exact Hf.
    + destruct (IH _ H Hr) as (y & st2 & Hy & Hfy).
      exists y, st2. split; [now right|assumption].
Qed.

Lemma packageEntryFailure_not_ok {A} (id : string) (details : option string)
    (st st' : State) (a : A) :
  packageEntryFailure id details st <> (Ok a, st').
Proof. discriminate. Qed.

(** ** The TypeScript fallback of [tryResolveFile] *)



(** ** The resolved caches *)

Lemma getResolvedCache_set (pkg : PackageData) (key r : string)
    (targetWeb : bool) (st : State) :
  getResolvedCache pkg key targetWeb
    ((if targetWeb then setWebResolved pkg key r
      else setNodeResolved pkg key r) st)
  = (Ok (Some r),
     (if targetWeb then setWebResolved pkg key r
      else setNodeResolved pkg key r) st).
Proof.
  unfold getResolvedCache, gets.
  destruct targetWeb; simpl; now rewrite lookup_insert_eq.
Qed.

(** A successful [resolvePackageEntry] leaves its result in the cache. *)
Lemma resolvePackageEntry_cached (E : Env) (tryFsResolve_ : FsResolve)
    (id : string) (pkg : PackageData) (targetWeb : bool)
    (options : InternalResolveOptions) (st st' : State) (r : string) :
  resolvePackageEntry_body E tryFsResolve_ id pkg targetWeb options st
  = (Ok (Some r), st') ->
  getResolvedCache pkg "." targetWeb st' = (Ok (Some r), st')
  /\ Js.nonEmpty r = true.
Proof.
  unfold resolvePackageEntry_body. cbv zeta. intros H.
  apply bind_ok_inv in H as (cached & st1 & Hc & H).
  unfold getResolvedCache, gets in Hc. cbv beta in Hc.
  injection Hc as <- <-.
  destruct (Js.truthy _) eqn:Hcached.
  - unfold ret in H. injection H as H <-. split.
    + unfold getResolvedCache, gets. now rewrite H.
    + rewrite H in Hcached. exact Hcached.
  - clear Hcached.
    apply bind_ok_inv in H as (returned & st2 & Hbody & H).
    destruct (Js.truthy returned) eqn:Hret;
      [|now apply packageEntryFailure_not_ok in H].
    unfold ret in H. injection H as -> <-.
    apply tryCatch_ok_inv in Hbody as [Hbody|(e & st3 & _ & Hh)];
      [|now apply packageEntryFailure_not_ok in Hh].
    apply bind_ok_inv in Hbody as (ep1 & st3 & _ & Hbody).
    apply bind_ok_inv in Hbody as (ep2 & st4 & _ & Hbody).
    apply firstTruthy_ok_inv in Hbody as (entry & st5 & _ & Hf);
      [|assumption].
    apply bind_ok_inv in Hf as (u & st6 & _ & Hf).
    apply bind_ok_inv in Hf as (resolved & st7 & _ & Hf).
    destruct resolved as [r0|]; [|discriminate].
    destruct (Js.nonEmpty r0) eqn:Hr0; [|discriminate].
    apply bind_ok_inv in Hf as (u' & st8 & Hset & Hf).
    unfold ret in Hf. injection Hf as <- <-.
    unfold setResolvedCache, modify in Hset. injection Hset as _ Hst.
    rewrite <- Hst.
    split; [apply getResolvedCache_set|assumption].
Qed.

(** A truthy cache entry is what [resolvePackageEntry] returns. *)
Lemma resolvePackageEntry_hit (E : Env) (tryFsResolve_ : FsResolve)
    (id : string) (pkg : PackageData) (targetWeb : bool)
    (options : InternalResolveOptions) (st : State) (r : string) :
  getResolvedCache pkg "." targetWeb st = (Ok (Some r), st) ->
  Js.nonEmpty r = true ->
  resolvePackageEntry_body E tryFsResolve_ id pkg targetWeb options st
  = (Ok (Some r), st).
Proof.
  intros Hc Hr. unfold resolvePackageEntry_body. cbv zeta.
  unfold bind at 1. rewrite Hc.
  change (Js.truthy (Some r)) with (Js.nonEmpty r). now rewrite Hr.
Qed.

(** The same for [resolveDeepImport]. *)
Lemma resolveDeepImport_cached (E : Env) (fuel : nat) (id : string)
    (pkg : PackageData) (targetWeb : bool) (options : InternalResolveOptions)
    (st st' : State) (r : string) :
  resolveDeepImport E fuel id pkg targetWeb options st = (Ok (Some r), st') ->
  getResolvedCache pkg id targetWeb st' = (Ok (Some r), st')
  /\ Js.nonEmpty r = true.
Proof.
  unfold resolveDeepImport. cbv zeta. intros H.
  apply bind_ok_inv in H as (cached & st1 & Hc & H).
  unfold getResolvedCache, gets in Hc. cbv beta in Hc.
  injection Hc as <- <-.
  destruct (Js.truthy _) eqn:Hcached.
  - unfold ret in H. injection H as H <-. split.
    + unfold getResolvedCache, gets. now rewrite H.
    + rewrite H in Hcached. exact Hcached.
  - clear Hcached.
    apply bind_ok_inv in H as (mapped & st2 & Hmap & H).
    destruct mapped as [returned|relativeId].
    + (* the browser field marks the subpath as external *)
      unfold ret in H. injection H as -> <-.
      destruct (exportsTruthy _).
      * apply bind_ok_inv in Hmap as (rel & st3 & _ & Hmap).
        destruct (negb (Js.truthy rel)); discriminate.
      * destruct (pj_browser (pkg_data pkg)) as [| |m]; try discriminate.
        destruct targetWeb; [|discriminate].
        destruct (splitFileAndPostfix id) as [file postfix].
        destruct (mapWithBrowserField file m) as [[s|]|]; try discriminate.
        -- destruct (Js.nonEmpty s); discriminate.
        -- apply bind_ok_inv in Hmap as (u & st3 & Hset & Hmap).
           unfold ret in Hmap. injection Hmap as <- <-.
           unfold modify in Hset. injection Hset as _ Hst. rewrite <- Hst.
           split; [apply (getResolvedCache_set pkg id _ true)|reflexivity].
    + destruct relativeId as [rel|]; [|discriminate].
      destruct (Js.nonEmpty rel); [|discriminate].
      apply bind_ok_inv in H as (resolved & st3 & _ & H).
      destruct resolved as [r0|]; [|discriminate].
      destruct (Js.nonEmpty r0) eqn:Hr0; [|discriminate].
      apply bind_ok_inv in H as (u & st4 & Hset & H).
      unfold ret in H. injection H as <- <-.
      unfold setResolvedCache, modify in Hset. injection Hset as _ Hst.
    rewrite <- Hst.
      split; [apply getResolvedCache_set|assumption].
Qed.

Lemma resolveDeepImport_hit (E : Env) (fuel : nat) (id : string)
    (pkg : PackageData) (targetWeb : bool) (options : InternalResolveOptions)
    (st : State) (r : string) :
  getResolvedCache pkg id targetWeb st = (Ok (Some r), st) ->
  Js.nonEmpty r = true ->
  resolveDeepImport E fuel id pkg targetWeb options st = (Ok (Some r), st).
Proof.
  intros Hc Hr. unfold resolveDeepImport. cbv zeta.
  unfold bind at 1. rewrite Hc.
  change (Js.truthy (Some r)) with (Js.nonEmpty r). now rewrite Hr.
Qed.

(** C7: after a call of [resolvePackageEntry], or of [resolveDeepImport],
    that returned a file, a second call for the same package handle, subpath
    and [targetWeb] returns the same string and leaves the state as it is,
    whatever the filesystem, the options and the bound on the depth of the
    calls are then: the answer is read from the resolved cache. *)
Theorem resolved_cache_memoizes :
  (forall (E : Env) (fuel : nat) (id : string) (pkg : PackageData)
          (targetWeb : bool) (options : InternalResolveOptions)
          (st st' : State) (r : string),
      resolvePackageEntry E fuel id pkg targetWeb options st
      = (Ok (Some r), st') ->
      forall (E' : Env) (fuel' : nat) (id' : string)
             (options' : InternalResolveOptions),
        resolvePackageEntry E' (S fuel') id' pkg targetWeb options' st'
        = (Ok (Some r), st'))
  /\ (forall (E : Env) (fuel : nat) (id : string) (pkg : PackageData)
             (targetWeb : bool) (options : InternalResolveOptions)
             (st st' : State) (r : string),
         resolveDeepImport E fuel id pkg targetWeb options st
         = (Ok (Some r), st') ->
         forall (E' : Env) (fuel' : nat) (options' : InternalResolveOptions),
           resolveDeepImport E' fuel' id pkg targetWeb options' st'
           = (Ok (Some r), st')).
Proof.
  split.
  - intros E fuel id pkg targetWeb options st st' r H E' fuel' id' options'.
    destruct fuel as [|fuel]; [discriminate|].
    change (resolvePackageEntry E (S fuel))
      with (resolvePackageEntry_body E (tryFsResolve E fuel)) in H.
    apply resolvePackageEntry_cached in H as [Hc Hr].
    change (resolvePackageEntry E' (S fuel'))
      with (resolvePackageEntry_body E' (tryFsResolve E' fuel')).
    now apply resolvePackageEntry_hit.
  - intros E fuel id pkg targetWeb options st st' r H E' fuel' options'.
    apply resolveDeepImport_cached in H as [Hc Hr].
    now apply resolveDeepImport_hit.
Qed.

Lemma resolved_cache_memoizes_witness :
  let first :=
    resolvePackageEntry Workspace.workspace 5 "foo" Workspace.foo true
      Workspace.options emptyState in
  fst first = Ok (Some "/p/node_modules/foo/foo.mjs")
  /\ resolvePackageEntry (Workspace.env [] [] []) 1 "foo" Workspace.foo true
       Workspace.options (snd first)
     = (Ok (Some "/p/node_modules/foo/foo.mjs"), snd first)
  /\ resolveDeepImport (Workspace.env [] [] []) 0 "./sub" Workspace.bar true
       Workspace.options
       (snd (resolveDeepImport Workspace.workspace 5 "./sub" Workspace.bar
               true Workspace.options emptyState))
     = (Ok (Some "/p/node_modules/bar/lib/sub.js"),
        snd (resolveDeepImport Workspace.workspace 5 "./sub" Workspace.bar
               true Workspace.options emptyState)).
Proof.
  cbv zeta. split; [vm_compute; reflexivity|]. split.
  - apply (proj1 resolved_cache_memoizes Workspace.workspace 5%nat "foo"
             Workspace.foo true Workspace.options emptyState).
    vm_compute. reflexivity.
  - apply (proj2 resolved_cache_memoizes Workspace.workspace 5%nat "./sub"
             Workspace.bar true Workspace.options emptyState).
    vm_compute. reflexivity.
Defined.

(** ** The probe on a regular file *)

Lemma getRealPath_nonEmpty (E : Env) (p : string) (preserveSymlinks : bool) :
  Js.nonEmpty (getRealPath E p preserveSymlinks) = true.
Proof. unfold getRealPath, normalizePath. apply normalize_nonEmpty. Qed.

Lemma truthy_some (s : string) : Js.truthy (Some s) = Js.nonEmpty s.
Proof. reflexivity. Qed.

Lemma tryResolveFile_regular (E : Env) (fuel : nat) (p postfix : string)
    (options : InternalResolveOptions) (tryIndex targetWeb : bool)
    (tryPrefix : option string) (skip : bool) (st : State) :
  isFileReadable E p = true -> isDirectory E p = false ->
  tryResolveFile E (S fuel) p postfix options tryIndex targetWeb tryPrefix
    skip st
  = (Ok (Some (getRealPath E p (o_preserveSymlinks options) +:+ postfix)), st).
Proof.
  intros Hr Hd.
  change (tryResolveFile E (S fuel))
    with (tryResolveFile_body E (tryFsResolve E fuel)
            (resolvePackageEntry E fuel) (tryResolveFile E fuel)).
  unfold tryResolveFile_body, tryResolveFile_readable, bind.
  rewrite Hr, Hd. reflexivity.
Qed.


(** ** The UMD heuristic of [resolvePackageEntry] *)






(** ** The invariant along the resolver *)

Lemma ensures_ret {A} (a : A) (Q : A -> Prop) : Q a -> ensures (ret a) Q.
Proof. intros H st Hst. simpl. auto. Qed.

Lemma ensures_bind {A B} (m : M A) (k : A -> M B) (P : A -> Prop)
    (Q : B -> Prop) :
  ensures m P -> (forall a, P a -> ensures (k a) Q) -> ensures (bind m k) Q.
Proof.
  intros Hm Hk st Hst. unfold bind. specialize (Hm st Hst).
  destruct (m st) as [[a|e|] st1]; auto.
  destruct Hm as [Ha Hst1]. exact (Hk a Ha st1 Hst1).
Qed.

Lemma ensures_throw {A} (e : JsError) (Q : A -> Prop) : ensures (throw e) Q.
Proof. intros st Hst. exact Hst. Qed.

Lemma ensures_outOfFuel {A} (Q : A -> Prop) : ensures outOfFuel Q.
Proof. intros st Hst. exact Hst. Qed.

Lemma ensures_tryCatch {A} (m : M A) (h : JsError -> M A) (Q : A -> Prop) :
  ensures m Q -> (forall e, ensures (h e) Q) -> ensures (tryCatch m h) Q.
Proof.
  intros Hm Hh st Hst. unfold tryCatch. specialize (Hm st Hst).
  destruct (m st) as [[a|e|] st1]; auto. exact (Hh e st1 Hm).
Qed.

Lemma ensures_lift {A} (c : Completion A) (Q : A -> Prop) :
  (forall a, c = Returns a -> Q a) -> ensures (lift c) Q.
Proof.
  intros H. destruct c as [a|e]; simpl.
  - apply ensures_ret. now apply H.
  - apply ensures_throw.
Qed.

Lemma ensures_gets {A} (f : State -> A) (Q : A -> Prop) :
  (forall st, StateOK st -> Q (f st)) -> ensures (gets f) Q.
Proof. intros H st Hst. simpl. auto. Qed.

Lemma ensures_modify (f : State -> State) (Q : unit -> Prop) :
  (forall st, StateOK st -> StateOK (f st)) -> Q tt -> ensures (modify f) Q.
Proof. intros Hf HQ st Hst. simpl. auto. Qed.

Lemma ensures_weaken {A} (m : M A) (P Q : A -> Prop) :
  ensures m P -> (forall a, P a -> Q a) -> ensures m Q.
Proof.
  intros Hm HPQ st Hst. specialize (Hm st Hst).
  destruct (m st) as [[a|e|] st1]; auto. destruct Hm. auto.
Qed.

Lemma ensures_firstTruthy {A} (f : A -> M (option string)) (l : list A)
    (Q : option string -> Prop) :
  (forall x, In x l -> ensures (f x) Q) -> Q None ->
  ensures (firstTruthy f l) Q.
Proof.
  intros Hf HQ. induction l as [|x l IH]; simpl.
  - now apply ensures_ret.
  - apply ensures_bind with (P := Q).
    + apply Hf. now left.
    + intros res Hres. destruct (Js.truthy res).
      * now apply ensures_ret.
      * apply IH. intros y Hy. apply Hf. now right.
Qed.

Lemma StateOK_skip (st : State) (b : bool) :
  StateOK st ->
  StateOK {| webResolvedImports := webResolvedImports st;
             nodeResolvedImports := nodeResolvedImports st;
             idToPkgMap := idToPkgMap st;
             skipPackageJson := b |}.
Proof. intros [Hw Hn Hp]. constructor; assumption. Qed.

Lemma ensures_setSkipPackageJson (b : bool) (Q : unit -> Prop) :
  Q tt -> ensures (setSkipPackageJson b) Q.
Proof.
  intros HQ. apply ensures_modify; [|assumption].
  intros st Hst. now apply StateOK_skip.
Qed.

Lemma ensures_withOptionsCopy {A} (m : M A) (Q : A -> Prop) :
  ensures m Q -> ensures (withOptionsCopy m) Q.
Proof.
  intros Hm st Hst. unfold withOptionsCopy. specialize (Hm st Hst).
  destruct (m st) as [[a|e|] st1].
  - destruct Hm as [Ha Hst1]. split; [assumption|now apply StateOK_skip].
  - now apply StateOK_skip.
  - now apply StateOK_skip.
Qed.

Lemma ensures_packageEntryFailure {A} (id : string) (details : option string)
    (Q : A -> Prop) :
  ensures (packageEntryFailure id details) Q.
Proof. apply ensures_throw. Qed.

Lemma cache_insert_ok (m : gmap (nat * string) string) (h : nat)
    (key v : string) :
  (forall h' key' v', m !! (h', key') = Some v' -> cacheEntryOK key' v') ->
  cacheEntryOK key v ->
  forall h' key' v',
    <[(h, key) := v]> m !! (h', key') = Some v' -> cacheEntryOK key' v'.
Proof.
  intros Hm Hv h' key' v' Hl.
  destruct (decide ((h, key) = (h', key'))) as [Heq|Hne].
  - injection Heq as <- <-. rewrite lookup_insert_eq in Hl.
    now injection Hl as <-.
  - rewrite lookup_insert_ne in Hl by assumption. eauto.
Qed.

Lemma StateOK_setWebResolved (pkg : PackageData) (key v : string)
    (st : State) :
  StateOK st -> cacheEntryOK key v -> StateOK (setWebResolved pkg key v st).
Proof.
  intros [Hw Hn Hp] Hv. constructor; simpl; auto.
  now apply cache_insert_ok.
Qed.

Lemma StateOK_setNodeResolved (pkg : PackageData) (key v : string)
    (st : State) :
  StateOK st -> cacheEntryOK key v -> StateOK (setNodeResolved pkg key v st).
Proof.
  intros [Hw Hn Hp] Hv. constructor; simpl; auto.
  now apply cache_insert_ok.
Qed.

Lemma ensures_setResolvedCache (pkg : PackageData) (key v : string)
    (targetWeb : bool) (Q : unit -> Prop) :
  cacheEntryOK key v -> Q tt ->
  ensures (setResolvedCache pkg key v targetWeb) Q.
Proof.
  intros Hv HQ. apply ensures_modify; [|assumption].
  intros st Hst. destruct targetWeb.
  - now apply StateOK_setWebResolved.
  - now apply StateOK_setNodeResolved.
Qed.

Lemma ensures_getResolvedCache (pkg : PackageData) (key : string)
    (targetWeb : bool) :
  ensures (getResolvedCache pkg key targetWeb)
    (fun r => forall v, r = Some v -> cacheEntryOK key v).
Proof.
  apply ensures_gets. intros st [Hw Hn Hp] v Hv.
  destruct targetWeb; eauto.
Qed.

Lemma ensures_idToPkgMap_set (file : string) (pkg : PackageData)
    (Q : unit -> Prop) :
  Path.isAbsolute (pkg_dir pkg) = true -> Q tt ->
  ensures (idToPkgMap_set file pkg) Q.
Proof.
  intros Hd HQ. apply ensures_modify; [|assumption].
  intros st [Hw Hn Hp]. constructor; simpl; auto.
  intros f p Hl. destruct (decide (file = f)) as [->|Hne].
  - rewrite lookup_insert_eq in Hl. now injection Hl as <-.
  - rewrite lookup_insert_ne in Hl by assumption. eauto.
Qed.

Lemma StateOK_empty : StateOK emptyState.
Proof.
  constructor; simpl; intros; rewrite lookup_empty in *; discriminate.
Qed.

(** *** Paths and postfixes *)

Lemma isPostfix_app (q1 q2 : string) :
  isPostfix q1 = true -> isPostfix q2 = true -> isPostfix (q1 +:+ q2) = true.
Proof.
  intros H1 H2. destruct q1 as [|c q1]; [exact H2|].
  rewrite append_cons. exact H1.
Qed.

Lemma resolvedPath_postfix (s q : string) :
  resolvedPath s -> isPostfix q = true -> resolvedPath (s +:+ q).
Proof.
  intros (p & q0 & -> & Hp & Hq0) Hq.
  exists p, (q0 +:+ q). rewrite append_assoc.
  repeat split; try apply Hp. now apply isPostfix_app.
Qed.

Lemma resolvedPath_of_path (p : string) :
  absoluteNormalized p -> resolvedPath p.
Proof.
  intros Hp. exists p, EmptyString. now rewrite append_empty_r.
Qed.

Lemma isAbsolute_take (p : string) (n : nat) :
  Path.isAbsolute p = true -> (0 < n)%nat ->
  Path.isAbsolute (Js.take n p) = true.
Proof.
  intros Hp Hn. destruct n as [|n]; [lia|].
  destruct p as [|c p]; [discriminate|]. exact Hp.
Qed.

Lemma startsWith_firstChar (q : string) (c : ascii) :
  Js.startsWith q (String c EmptyString) = true -> Js.firstCharIs q c = true.
Proof.
  destruct q as [|d q]; [discriminate|].
  change (Js.startsWith (String d q) (String c EmptyString))
    with (Ascii.eqb c d && true).
  rewrite andb_true_r. intros H. unfold Js.firstCharIs.
  now rewrite Ascii.eqb_sym.
Qed.

(** The two halves of an absolute path: an absolute file and a postfix. *)
Lemma splitFileAndPostfix_absolute (fsPath : string) :
  Path.isAbsolute fsPath = true ->
  Path.isAbsolute (fst (splitFileAndPostfix fsPath)) = true
  /\ isPostfix (snd (splitFileAndPostfix fsPath)) = true.
Proof.
  intros Habs. split.
  - unfold splitFileAndPostfix.
    set (i := if Js.indexOf fsPath "?" <? 0 then Js.indexOf fsPath "#"
              else Js.indexOf fsPath "?").
    destruct (0 <? i) eqn:Hi; [|exact Habs].
    assert (Hle : i <= Js.len fsPath).
    { subst i. destruct (Js.indexOf fsPath "?" <? 0) eqn:Hq.
      - apply indexOf_found. lia.
      - apply indexOf_found. lia. }
    simpl fst. rewrite slice_to by lia. apply isAbsolute_take; [assumption|lia].
  - pose proof (splitFileAndPostfix_parts fsPath) as H.
    destruct (splitFileAndPostfix fsPath) as [file postfix].
    cbn [fst snd] in H.
    destruct H as (_ & [->|[H|H]]); [reflexivity| |]; simpl snd;
      unfold isPostfix; rewrite (startsWith_firstChar _ _ H);
      now rewrite ?orb_true_r.
Qed.

Lemma dirnameEnd_range (rp : string) (i : nat) (matchedSlash : bool) :
  Path.dirnameEnd rp i matchedSlash = -1
  \/ 1 <= Path.dirnameEnd rp i matchedSlash <= Z.of_nat i.
Proof.
  revert rp matchedSlash; induction i as [|i IH]; intros rp m.
  - destruct rp; now left.
  - destruct rp as [|c rp]; [now left|].
    cbn [Path.dirnameEnd].
    destruct (Ascii.eqb c Path.slashChar).
    + destruct m.
      * destruct (IH rp true) as [H|H]; [now left|right; lia].
      * right. lia.
    + destruct (IH rp false) as [H|H]; [now left|right; lia].
Qed.

Lemma dirname_absolute (p : string) :
  Path.isAbsolute p = true -> Path.isAbsolute (Path.dirname p) = true.
Proof.
  intros Hp. unfold Path.dirname.
  destruct (String.eqb p "") eqn:He.
  - apply String.eqb_eq in He. subst. discriminate.
  - rewrite Hp.
    destruct (dirnameEnd_range (Js.rev p) (String.length p - 1) true)
      as [H|H].
    + rewrite H. reflexivity.
    + destruct (Path.dirnameEnd _ _ _ =? -1) eqn:H1; [reflexivity|].
      destruct (true && (Path.dirnameEnd _ _ _ =? 1)); [reflexivity|].
      rewrite slice_to by (unfold Js.len; lia).
      apply isAbsolute_take; [assumption|lia].
Qed.

Lemma getRealPath_ok (E : Env) (p : string) (preserveSymlinks : bool) :
  EnvOK E -> Path.isAbsolute p = true ->
  absoluteNormalized (getRealPath E p preserveSymlinks).
Proof.
  intros HE Hp. unfold getRealPath, ensureVolumeInPath, normalizePath.
  split; [|apply normalize_idempotent].
  apply normalize_absolute.
  destruct (negb preserveSymlinks && _); [|assumption].
  now apply (realpath_absolute E HE).
Qed.

Lemma join_absoluteNormalized (dir x : string) :
  Path.isAbsolute dir = true -> Path.isAbsolute (Path.join [dir; x]) = true.
Proof. intros H. now apply join_absolute. Qed.

(** *** The probe and the entry-point resolver *)

Lemma ensures_truthy_or (res : option string) (next : M (option string)) :
  pathOrNothing res -> ensures next pathOrNothing ->
  ensures (if Js.truthy res then ret res else next) pathOrNothing.
Proof.
  intros Hres Hnext. destruct (Js.truthy res); [now apply ensures_ret|].
  assumption.
Qed.

Lemma tryFsResolve_body_ok (tryResolveFile_ : ResolveFile) :
  (forall file postfix options tryIndex targetWeb tryPrefix skip,
      Path.isAbsolute file = true -> isPostfix postfix = true ->
      ensures (tryResolveFile_ file postfix options tryIndex targetWeb
                 tryPrefix skip) pathOrNothing) ->
  forall fsPath options tryIndex targetWeb,
    Path.isAbsolute fsPath = true ->
    ensures (tryFsResolve_body tryResolveFile_ fsPath options tryIndex
               targetWeb) pathOrNothing.
Proof.
  intros Hfile fsPath options tryIndex targetWeb Habs.
  unfold tryFsResolve_body.
  destruct (splitFileAndPostfix_absolute fsPath Habs) as [Hf Hq].
  destruct (splitFileAndPostfix fsPath) as [file postfix].
  simpl fst in Hf. simpl snd in Hq. cbv zeta.
  assert (Hprobe : forall f q ti,
             Path.isAbsolute f = true -> isPostfix q = true ->
             ensures (bind (gets skipPackageJson) (fun skip =>
                        tryResolveFile_ f q options ti targetWeb
                          (o_tryPrefix options) skip)) pathOrNothing).
  { intros f q ti Hfa Hqa.
    apply ensures_bind with (P := fun _ => True).
    - now apply ensures_gets.
    - intros skip _. now apply Hfile. }
  assert (Hlit : forall f ti,
             Path.isAbsolute f = true ->
             ensures (if Js.nonEmpty postfix
                      then bind (gets skipPackageJson) (fun skip =>
                             tryResolveFile_ f "" options ti targetWeb
                               (o_tryPrefix options) skip)
                      else ret None) pathOrNothing).
  { intros f ti Hfa. destruct (Js.nonEmpty postfix).
    - now apply Hprobe.
    - now apply ensures_ret. }
  apply ensures_bind with (P := pathOrNothing); [now apply Hlit|].
  intros res1 H1. apply ensures_truthy_or; [assumption|].
  apply ensures_bind with (P := pathOrNothing); [now apply Hprobe|].
  intros res2 H2. apply ensures_truthy_or; [assumption|].
  apply ensures_bind with (P := pathOrNothing).
  { apply ensures_firstTruthy; [|exact I].
    intros ext _.
    apply ensures_bind with (P := pathOrNothing).
    - apply Hlit. now apply isAbsolute_append.
    - intros res H. apply ensures_truthy_or; [assumption|].
      apply Hprobe; [now apply isAbsolute_append|assumption]. }
  intros res3 H3. apply ensures_truthy_or; [assumption|].
  apply ensures_bind with (P := pathOrNothing); [now apply Hlit|].
  intros res4 H4. apply ensures_truthy_or; [assumption|].
  apply ensures_bind with (P := pathOrNothing); [now apply Hprobe|].
  intros res5 H5. apply ensures_truthy_or; [assumption|].
  now apply ensures_ret.
Qed.

Lemma tryResolveFile_readable_ok (E : Env) (tryFsResolve_ : FsResolve)
    (resolvePackageEntry_ : PkgResolve) :
  EnvOK E ->
  (forall fsPath options tryIndex targetWeb,
      Path.isAbsolute fsPath = true ->
      ensures (tryFsResolve_ fsPath options tryIndex targetWeb)
        pathOrNothing) ->
  (forall id pkg targetWeb options,
      Path.isAbsolute (pkg_dir pkg) = true ->
      ensures (resolvePackageEntry_ id pkg targetWeb options) pathOrNothing) ->
  forall file postfix options tryIndex targetWeb skip,
    Path.isAbsolute file = true -> isPostfix postfix = true ->
    ensures (tryResolveFile_readable E tryFsResolve_ resolvePackageEntry_
               file postfix options tryIndex targetWeb skip)
      (fun returned => forall r, returned = Some r -> pathOrNothing r).
Proof.
  intros HE Hfs Hentry file postfix options tryIndex targetWeb skip Hf Hq.
  unfold tryResolveFile_readable.
  destruct (isFileReadable E file); [|apply ensures_ret; discriminate].
  destruct (negb (isDirectory E file)).
  { apply ensures_ret. intros r Hr. injection Hr as <-. simpl.
    apply resolvedPath_postfix; [|assumption].
    apply resolvedPath_of_path. now apply getRealPath_ok. }
  destruct tryIndex; [|apply ensures_ret; discriminate].
  apply ensures_bind
    with (P := fun via => forall r, via = Some r -> pathOrNothing r).
  { destruct (negb skip); [|apply ensures_ret; discriminate].
    apply ensures_tryCatch.
    - apply ensures_bind
        with (P := fun pkg => Path.isAbsolute (pkg_dir pkg) = true).
      + apply ensures_lift. intros pkg Hpkg.
        exact (loadPackageData_absolute E HE _ _ _ Hpkg).
      + intros pkg Hpkg.
        apply ensures_bind with (P := pathOrNothing); [now apply Hentry|].
        intros resolved Hres. apply ensures_ret.
        intros r Hr. now injection Hr as <-.
    - intros e. destruct (negb (isENOENT e)); [apply ensures_throw|].
      apply ensures_ret. discriminate. }
  intros via Hvia. destruct via as [resolved|].
  { apply ensures_ret. intros r Hr. injection Hr as <-. now apply Hvia. }
  apply ensures_bind with (P := pathOrNothing).
  { apply Hfs. now apply isAbsolute_append. }
  intros index Hindex. destruct index as [i|]; [|apply ensures_ret; discriminate].
  destruct (Js.nonEmpty i); [|apply ensures_ret; discriminate].
  apply ensures_ret. intros r Hr. injection Hr as <-. simpl.
  now apply resolvedPath_postfix.
Qed.

Lemma tryResolveFile_body_ok (E : Env) (tryFsResolve_ : FsResolve)
    (resolvePackageEntry_ : PkgResolve) (tryResolveFile_ : ResolveFile) :
  EnvOK E ->
  (forall fsPath options tryIndex targetWeb,
      Path.isAbsolute fsPath = true ->
      ensures (tryFsResolve_ fsPath options tryIndex targetWeb)
        pathOrNothing) ->
  (forall id pkg targetWeb options,
      Path.isAbsolute (pkg_dir pkg) = true ->
      ensures (resolvePackageEntry_ id pkg targetWeb options) pathOrNothing) ->
  (forall file postfix options tryIndex targetWeb tryPrefix skip,
      Path.isAbsolute file = true -> isPostfix postfix = true ->
      ensures (tryResolveFile_ file postfix options tryIndex targetWeb
                 tryPrefix skip) pathOrNothing) ->
  forall file postfix options tryIndex targetWeb tryPrefix skip,
    Path.isAbsolute file = true -> isPostfix postfix = true ->
    ensures (tryResolveFile_body E tryFsResolve_ resolvePackageEntry_
               tryResolveFile_ file postfix options tryIndex targetWeb
               tryPrefix skip) pathOrNothing.
Proof.
  intros HE Hfs Hentry Hfile file postfix options tryIndex targetWeb
    tryPrefix skip Hf Hq.
  unfold tryResolveFile_body.
  apply ensures_bind
    with (P := fun returned => forall r, returned = Some r -> pathOrNothing r).
  { now apply tryResolveFile_readable_ok. }
  intros returned Hret. destruct returned as [r|].
  { apply ensures_ret. now apply Hret. }
  cbv zeta.
  destruct (o_isFromTsImporter options && isPossibleTsOutput E file).
  - apply ensures_firstTruthy; [|exact I].
    intros src Hsrc. apply Hfile; [|assumption].
    exact (tsSrcPaths_absolute E HE file src Hf Hsrc).
  - destruct tryPrefix as [prefix|]; [|now apply ensures_ret].
    destruct (Js.nonEmpty prefix); [|now apply ensures_ret].
    apply Hfile; [|assumption].
    apply isAbsolute_append. now apply dirname_absolute.
Qed.

Lemma ensures_trivial {A} (m : M A) (Q : A -> Prop) :
  ensures m Q -> ensures m (fun _ => True).
Proof. intros H. apply ensures_weaken with (P := Q); auto. Qed.

Lemma ensures_resolveExports (E : Env) (data : PkgJson) (key : string)
    (options : InternalResolveOptions) (targetWeb : bool) :
  ensures (resolveExports E data key options targetWeb) (fun _ => True).
Proof. unfold resolveExports. now apply ensures_lift. Qed.

Lemma cacheEntryOK_entry (v : string) : resolvedPath v -> cacheEntryOK "." v.
Proof. intros H. exact H. Qed.

Lemma resolvePackageEntry_body_ok (E : Env) (tryFsResolve_ : FsResolve) :
  (forall fsPath options tryIndex targetWeb,
      Path.isAbsolute fsPath = true ->
      ensures (tryFsResolve_ fsPath options tryIndex targetWeb)
        pathOrNothing) ->
  forall id pkg targetWeb options,
    Path.isAbsolute (pkg_dir pkg) = true ->
    ensures (resolvePackageEntry_body E tryFsResolve_ id pkg targetWeb
               options) pathOrNothing.
Proof.
  intros Hfs id pkg targetWeb options Hdir.
  unfold resolvePackageEntry_body. cbv zeta.
  apply ensures_bind with (P := pathOrNothing).
  { apply ensures_weaken with (1 := ensures_getResolvedCache pkg "." targetWeb).
    intros [v|] Hv; [|exact I]. now apply Hv. }
  intros cached Hcached. apply ensures_truthy_or; [assumption|].
  apply ensures_bind with (P := pathOrNothing).
  2:{ intros returned Hret. destruct (Js.truthy returned).
      - now apply ensures_ret.
      - apply ensures_packageEntryFailure. }
  apply ensures_tryCatch; [|intros e; apply ensures_packageEntryFailure].
  apply ensures_bind with (P := fun _ => True).
  { destruct (exportsTruthy _); [apply ensures_resolveExports|].
    now apply ensures_ret. }
  intros ep1 _.
  apply ensures_bind with (P := fun _ => True).
  { destruct (targetWeb && _); [|now apply ensures_ret].
    destruct (match pj_browser (pkg_data pkg) with
              | BrowserAbsent => None
              | BrowserString s => Some s
              | BrowserMap m => mappedString (browserLookup "." m)
              end) as [b|]; [|now apply ensures_ret].
    destruct (Js.nonEmpty b); [|now apply ensures_ret].
    destruct (negb _ && _); [|now apply ensures_ret].
    apply ensures_bind with (P := fun _ => True).
    { apply ensures_trivial with (Q := pathOrNothing). apply Hfs.
      now apply join_absoluteNormalized. }
    intros [rb|] _; [|now apply ensures_ret].
    destruct (Js.nonEmpty rb); [|now apply ensures_ret].
    apply ensures_bind with (P := fun _ => True);
      [now apply ensures_lift|].
    intros content _. destruct (looksLikeUmdOrCjs content);
      now apply ensures_ret. }
  intros ep2 _.
  apply ensures_firstTruthy; [|exact I].
  intros entry _.
  apply ensures_bind with (P := fun _ => True).
  { destruct (_ && _); [now apply ensures_setSkipPackageJson|].
    now apply ensures_ret. }
  intros _ _.
  apply ensures_bind with (P := pathOrNothing).
  { apply Hfs. now apply join_absoluteNormalized. }
  intros [r|] Hr; [|now apply ensures_ret].
  destruct (Js.nonEmpty r); [|now apply ensures_ret].
  apply ensures_bind with (P := fun _ => True).
  - now apply ensures_setResolvedCache.
  - intros _ _. now apply ensures_ret.
Qed.

(** The probe and the entry-point resolver return resolved paths. *)
Lemma probe_ok (E : Env) (fuel : nat) :
  EnvOK E ->
  (forall fsPath options tryIndex targetWeb,
      Path.isAbsolute fsPath = true ->
      ensures (tryFsResolve E fuel fsPath options tryIndex targetWeb)
        pathOrNothing)
  /\ (forall file postfix options tryIndex targetWeb tryPrefix skip,
         Path.isAbsolute file = true -> isPostfix postfix = true ->
         ensures (tryResolveFile E fuel file postfix options tryIndex
                    targetWeb tryPrefix skip) pathOrNothing)
  /\ (forall id pkg targetWeb options,
         Path.isAbsolute (pkg_dir pkg) = true ->
         ensures (resolvePackageEntry E fuel id pkg targetWeb options)
           pathOrNothing).
Proof.
  intros HE. induction fuel as [|fuel (IHfs & IHfile & IHentry)].
  - split; [|split]; intros; apply ensures_outOfFuel.
  - split; [|split].
    + intros. change (tryFsResolve E (S fuel))
        with (tryFsResolve_body (tryResolveFile E fuel)).
      now apply tryFsResolve_body_ok.
    + intros. change (tryResolveFile E (S fuel))
        with (tryResolveFile_body E (tryFsResolve E fuel)
                (resolvePackageEntry E fuel) (tryResolveFile E fuel)).
      now apply tryResolveFile_body_ok.
    + intros. change (resolvePackageEntry E (S fuel))
        with (resolvePackageEntry_body E (tryFsResolve E fuel)).
      now apply resolvePackageEntry_body_ok.
Qed.

Lemma tryFsResolve_ok (E : Env) (fuel : nat) (fsPath : string)
    (options : InternalResolveOptions) (tryIndex targetWeb : bool) :
  EnvOK E -> Path.isAbsolute fsPath = true ->
  ensures (tryFsResolve E fuel fsPath options tryIndex targetWeb)
    pathOrNothing.
Proof. intros HE. now apply probe_ok. Qed.

Lemma resolvePackageEntry_ok (E : Env) (fuel : nat) (id : string)
    (pkg : PackageData) (targetWeb : bool) (options : InternalResolveOptions) :
  EnvOK E -> Path.isAbsolute (pkg_dir pkg) = true ->
  ensures (resolvePackageEntry E fuel id pkg targetWeb options) pathOrNothing.
Proof. intros HE. now apply probe_ok. Qed.

(** *** The candidate package ids are prefixes of the path *)

Lemma indexOfFrom_range (s p : string) (from : Z) :
  0 <= Js.indexOfFrom s p from -> Js.indexOfFrom s p from <= Js.len s.
Proof.
  unfold Js.indexOfFrom.
  set (k := Z.min (Z.max from 0) (Js.len s)). intros H.
  assert (Hk : 0 <= k <= Js.len s) by (unfold k, Js.len; lia).
  destruct (indexOfAux_found (Js.drop (Z.to_nat k) s) p k) as [Hb _];
    [lia|lia|].
  unfold Js.len in *. rewrite length_drop in Hb. lia.
Qed.

Lemma possiblePkgIdsLoop_prefix (fuel : nat) (nestedPath : string)
    (prev : Z) (acc : list string) :
  Forall (fun x => exists k, 0 <= k <= Js.len nestedPath
                             /\ x = Js.slice nestedPath 0 (Some k)) acc ->
  Forall (fun x => exists k, 0 <= k <= Js.len nestedPath
                             /\ x = Js.slice nestedPath 0 (Some k))
    (possiblePkgIdsLoop fuel nestedPath prev acc).
Proof.
  revert prev acc; induction fuel as [|fuel IH]; intros prev acc Hacc;
    [exact Hacc|].
  cbn [possiblePkgIdsLoop]. cbv zeta.
  set (i := if Js.indexOfFrom nestedPath "/" (prev + 1) <? 0
            then Js.len nestedPath
            else Js.indexOfFrom nestedPath "/" (prev + 1)).
  assert (Hi : 0 <= i <= Js.len nestedPath).
  { subst i. destruct (Js.indexOfFrom nestedPath "/" (prev + 1) <? 0) eqn:Hneg.
    - unfold Js.len. lia.
    - split; [lia|]. apply indexOfFrom_range. lia. }
  destruct (negb (Js.nonEmpty _)); [exact Hacc|].
  destruct (match acc with [] => _ | _ :: _ => _ end).
  - now apply IH.
  - apply IH. apply Forall_app. split; [assumption|].
    constructor; [|constructor]. now exists i.
Qed.

Lemma possiblePkgIds_prefix (nestedPath pkgId : string) :
  In pkgId (possiblePkgIdsOf nestedPath) ->
  exists k, 0 <= k <= Js.len nestedPath
            /\ pkgId = Js.slice nestedPath 0 (Some k).
Proof.
  intros Hin.
  pose proof (possiblePkgIdsLoop_prefix (S (String.length nestedPath))
                nestedPath (-1) [] (List.Forall_nil _)) as H.
  rewrite List.Forall_forall in H. now apply H.
Qed.

Lemma length_take (n : nat) (s : string) :
  String.length (Js.take n s) = Nat.min n (String.length s).
Proof.
  revert s; induction n as [|n IH]; intros [|c s]; simpl; auto.
Qed.

Lemma drop_empty_inv (n : nat) (s : string) :
  Js.drop n s = EmptyString -> (String.length s <= n)%nat.
Proof.
  revert s; induction n as [|n IH]; intros [|c s]; simpl; intros H;
    try discriminate; try lia.
  specialize (IH _ H). lia.
Qed.

(** A deep import never has the subpath [.]. *)
Lemma deep_import_subpath (nestedPath pkgId : string) :
  In pkgId (possiblePkgIdsOf nestedPath) ->
  String.eqb pkgId nestedPath = false ->
  "." +:+ Js.slice nestedPath (Js.len pkgId) None <> ".".
Proof.
  intros Hin Hne Heq.
  destruct (possiblePkgIds_prefix _ _ Hin) as (k & Hk & Hp).
  rewrite slice_to in Hp by assumption.
  assert (Hlen : Js.len pkgId = k).
  { unfold Js.len in *. rewrite Hp, length_take. lia. }
  rewrite Hlen, slice_from in Heq by assumption.
  rewrite append_cons, append_nil in Heq. injection Heq as Hdrop.
  apply drop_empty_inv in Hdrop.
  assert (Hk' : Z.to_nat k = String.length nestedPath)
    by (unfold Js.len in *; lia).
  rewrite Hk', take_all in Hp. subst pkgId.
  now rewrite String.eqb_refl in Hne.
Qed.

Lemma findPackage_inv (E : Env) (pkgIds : list string) (basedir : string)
    (preserveSymlinks : bool) (pkgId : string) (pkg : PackageData) :
  findPackage E pkgIds basedir preserveSymlinks = Some (pkgId, pkg) ->
  In pkgId pkgIds
  /\ resolvePackageData E pkgId basedir preserveSymlinks = Some pkg.
Proof.
  induction pkgIds as [|x l IH]; simpl; [discriminate|].
  destruct (resolvePackageData E x basedir preserveSymlinks) as [p|] eqn:Hx.
  - intros H. injection H as <- <-. auto.
  - intros H. destruct (IH H). auto.
Qed.

(** *** The deep-import resolver and the browser mapping *)

Lemma cacheEntryOK_resolvedId (key v : string) :
  cacheEntryOK key v -> resolvedId v.
Proof.
  unfold cacheEntryOK. destruct (String.eqb key "."); [now right|auto].
Qed.

Lemma cacheEntryOK_of_path (key v : string) :
  resolvedPath v -> cacheEntryOK key v.
Proof.
  unfold cacheEntryOK. destruct (String.eqb key "."); [auto|now right].
Qed.

Lemma resolveDeepImport_ok (E : Env) (fuel : nat) (id : string)
    (pkg : PackageData) (targetWeb : bool) (options : InternalResolveOptions) :
  EnvOK E -> Path.isAbsolute (pkg_dir pkg) = true -> id <> "." ->
  ensures (resolveDeepImport E fuel id pkg targetWeb options) idOrNothing.
Proof.
  intros HE Hdir Hid. unfold resolveDeepImport. cbv zeta.
  apply ensures_bind with (P := idOrNothing).
  { apply ensures_weaken with (1 := ensures_getResolvedCache pkg id targetWeb).
    intros [v|] Hv; [|exact I]. apply cacheEntryOK_resolvedId with id.
    now apply Hv. }
  intros cache Hcache. destruct (Js.truthy cache); [now apply ensures_ret|].
  apply ensures_bind
    with (P := fun mapped => match mapped with
                             | inl r => idOrNothing r
                             | inr _ => True
                             end).
  { destruct (exportsTruthy _).
    - apply ensures_bind with (P := fun _ => True).
      + destruct (exportsIsPlainObject _); [|now apply ensures_ret].
        destruct (splitFileAndPostfix id) as [file postfix].
        apply ensures_bind with (P := fun _ => True);
          [apply ensures_resolveExports|].
        intros [e|] _; now apply ensures_ret.
      + intros rel _. destruct (negb (Js.truthy rel)); [apply ensures_throw|].
        now apply ensures_ret.
    - destruct (pj_browser (pkg_data pkg)) as [| |m];
        try now apply ensures_ret.
      destruct targetWeb; [|now apply ensures_ret].
      destruct (splitFileAndPostfix id) as [file postfix].
      destruct (mapWithBrowserField file m) as [[s|]|];
        [destruct (Js.nonEmpty s); now apply ensures_ret| |
         now apply ensures_ret].
      apply ensures_bind with (P := fun _ => True).
      + apply ensures_modify; [|exact I].
        intros st Hst. apply StateOK_setWebResolved; [assumption|].
        unfold cacheEntryOK.
        destruct (String.eqb id ".") eqn:Heq; [|now left].
        apply String.eqb_eq in Heq. contradiction.
      + intros _ _. apply ensures_ret. now left. }
  intros [r|relativeId] Hmapped; [now apply ensures_ret|].
  destruct relativeId as [rel|]; [|now apply ensures_ret].
  destruct (Js.nonEmpty rel); [|now apply ensures_ret].
  apply ensures_bind with (P := pathOrNothing).
  { apply tryFsResolve_ok; [assumption|]. now apply join_absoluteNormalized. }
  intros [r|] Hr; [|now apply ensures_ret].
  destruct (Js.nonEmpty r); [|now apply ensures_ret].
  apply ensures_bind with (P := fun _ => True).
  - apply ensures_setResolvedCache; [|exact I].
    now apply cacheEntryOK_of_path.
  - intros _ _. apply ensures_ret. now right.
Qed.

Lemma tryResolveBrowserMapping_ok (E : Env) (fuel : nat) (id : string)
    (importer : option string) (options : InternalResolveOptions)
    (isFilePath : bool) (externalize : option bool) :
  EnvOK E ->
  ensures (tryResolveBrowserMapping E fuel id importer options isFilePath
             externalize) resultOK.
Proof.
  intros HE. unfold tryResolveBrowserMapping.
  apply ensures_bind
    with (P := fun pkg => forall p, pkg = Some p ->
                                    Path.isAbsolute (pkg_dir p) = true).
  { destruct importer as [i|]; [|apply ensures_ret; discriminate].
    destruct (Js.nonEmpty i); [|apply ensures_ret; discriminate].
    apply ensures_gets. intros st Hst p Hp. exact (pkgs_ok st Hst _ _ Hp). }
  intros [pkg|] Hpkg; [|now apply ensures_ret].
  specialize (Hpkg pkg eq_refl).
  destruct (pj_browser (pkg_data pkg)) as [| |browser];
    try now apply ensures_ret.
  destruct (mapWithBrowserField _ browser) as [[mapped|]|];
    try now apply ensures_ret.
  destruct (Js.nonEmpty mapped); [|now apply ensures_ret].
  apply ensures_bind with (P := pathOrNothing).
  { apply tryFsResolve_ok; [assumption|]. now apply join_absoluteNormalized. }
  intros [r|] Hr; [|now apply ensures_ret].
  destruct (Js.nonEmpty r); [|now apply ensures_ret].
  apply ensures_bind with (P := fun _ => True).
  - now apply ensures_idToPkgMap_set.
  - intros _ _. apply ensures_ret. simpl.
    destruct (isTrue externalize); intros Hext; simpl in *;
      [congruence|now right].
Qed.

(** *** The bare-import resolver *)

(** Case analysis on the test of a conditional computation. *)
Ltac split_if :=
  match goal with
  | |- ensures (if ?c then _ else _) _ => destruct c
  end.

(** Closing a side condition that is at hand. *)
Ltac by_hyp := solve [exact I | assumption | discriminate | reflexivity].

Ltac split_if_eqn H :=
  match goal with
  | |- ensures (if ?c then _ else _) _ => destruct c eqn:H
  end.

Lemma linked_id_is_path (resolved : string) :
  resolvedId resolved -> Js.includes resolved "node_modules" = true ->
  resolvedPath resolved.
Proof.
  intros [->|H] Hinc; [|assumption].
  vm_compute in Hinc. discriminate.
Qed.

Lemma package_resolver_ok (E : Env) (fuel : nat) (nestedPath pkgId : string)
    (pkg : PackageData) (targetWeb : bool) (options : InternalResolveOptions) :
  EnvOK E -> Path.isAbsolute (pkg_dir pkg) = true ->
  In pkgId (possiblePkgIdsOf nestedPath) ->
  ensures
    ((if negb (String.eqb pkgId nestedPath)
      then resolveDeepImport E fuel else resolvePackageEntry E fuel)
       (if negb (String.eqb pkgId nestedPath)
        then "." +:+ Js.slice nestedPath (Js.len pkgId) None else pkgId)
       pkg targetWeb options)
    idOrNothing.
Proof.
  intros HE Hdir Hin. destruct (String.eqb pkgId nestedPath) eqn:Heq; simpl.
  - apply ensures_weaken with (P := pathOrNothing);
      [apply resolvePackageEntry_ok; by_hyp|].
    intros [s|] Hs; [right; exact Hs|exact I].
  - apply resolveDeepImport_ok; [assumption|assumption|].
    apply deep_import_subpath; by_hyp.
Qed.

Lemma tryNodeResolve_ok (E : Env) (fuel : nat) (id : string)
    (importer : option string) (options : InternalResolveOptions)
    (targetWeb : bool) (depsOptimizer : option DepsOptimizer)
    (ssr externalize : option bool) :
  EnvOK E -> OptimizerOK depsOptimizer ->
  ensures (tryNodeResolve E fuel id importer options targetWeb depsOptimizer
             ssr externalize)
    (fun r => forall rec, r = Some rec -> structuredOK rec).
Proof.
  intros HE HO. unfold tryNodeResolve. cbv zeta.
  destruct (findPackage E _ _ _) as [[pkgId pkg]|] eqn:Hfind;
    [|apply ensures_ret; discriminate].
  apply findPackage_inv in Hfind. destruct Hfind as [Hin Hpkg].
  apply in_rev in Hin.
  pose proof (resolvePackageData_absolute E HE _ _ _ _ Hpkg) as Hdir.
  apply ensures_bind with (P := idOrNothing).
  { apply ensures_tryCatch;
      [exact (package_resolver_ok E fuel (nestedPathOf id) pkgId pkg targetWeb
                options HE Hdir Hin)|].
    intros e. destruct (negb (o_tryEsmOnly options)).
    - apply ensures_throw.
    - apply ensures_ret. exact I. }
  intros resolved0 Hr0. apply ensures_bind with (P := idOrNothing).
  { split_if; [|apply ensures_ret; by_hyp].
    apply ensures_withOptionsCopy.
    exact (package_resolver_ok E fuel (nestedPathOf id) pkgId pkg targetWeb
             (esmOnlyOptions options) HE Hdir Hin). }
  intros [resolved|] Hr; [|apply ensures_ret; discriminate].
  simpl in Hr.
  destruct (negb (Js.nonEmpty resolved)); [apply ensures_ret; discriminate|].
  apply ensures_bind with (P := fun _ => True).
  { apply ensures_idToPkgMap_set; [exact Hdir|exact I]. }
  intros _ _. split_if.
  { apply ensures_ret. intros rec Hrec Hext.
    destruct (negb (isTrue externalize)); cbv beta iota in Hrec.
    - injection Hrec as <-. exact Hr.
    - repeat match type of Hrec with
             | (if ?c then _ else _) = Some _ => destruct c
             end; try discriminate Hrec; injection Hrec as <-;
        exfalso; apply Hext; reflexivity. }
  destruct depsOptimizer as [optimizer|];
    [|apply ensures_ret; intros rec [= <-] _; exact Hr].
  split_if_eqn Hlinked;
    [apply ensures_ret; intros rec [= <-] _; exact Hr|].
  apply orb_false_iff in Hlinked. destruct Hlinked as [Hinc _].
  apply negb_false_iff in Hinc.
  pose proof (linked_id_is_path _ Hr Hinc) as Hpath.
  apply ensures_bind with (P := resolvedId).
  { split_if.
    - destruct (negb (o_isBuild options)); [|apply ensures_ret; by_hyp].
      destruct (metadata optimizer _) as [md|]; [|apply ensures_throw].
      destruct (md_browserHash md) as [versionHash|]; [|apply ensures_ret; by_hyp].
      split_if; [|apply ensures_ret; by_hyp].
      apply ensures_ret. right. apply (injectQuery_resolved E HE); by_hyp.
    - apply ensures_ret. right. apply (HO optimizer); by_hyp. }
  intros resolved' Hr'.
  destruct (o_isBuild options); apply ensures_ret; intros rec [= <-] _;
    exact Hr'.
Qed.

(** *** The steps of [resolveId] *)

Lemma ensures_orElse (step : M (option ResolutionResult))
    (next : M ResolutionResult) :
  ensures step stepOK -> ensures next resultOK ->
  ensures (orElse step next) resultOK.
Proof.
  intros Hstep Hnext. unfold orElse. apply ensures_bind with (P := stepOK);
    [assumption|].
  intros [r|] Hr; [|assumption]. apply ensures_ret. apply Hr; by_hyp.
Qed.

Lemma stepOK_string (s : string) : stepOK (Some (ResString s)).
Proof. intros x [= <-]. exact I. Qed.

Lemma stepOK_none : stepOK None.
Proof. intros x H. discriminate. Qed.

Lemma resolveRootUrl_ok (E : Env) (fuel : nat)
    (resolveOptions options : InternalResolveOptions) (id : string) :
  EnvOK E -> ensures (resolveRootUrl E fuel resolveOptions options id) stepOK.
Proof.
  intros HE. unfold resolveRootUrl.
  split_if; [|apply ensures_ret, stepOK_none]. cbv zeta.
  apply ensures_bind with (P := pathOrNothing).
  - apply tryFsResolve_ok; [assumption|].
    apply resolve_absolute, (cwd_absolute E HE).
  - intros res _. destruct (Js.truthy res); apply ensures_ret;
      [apply stepOK_string|apply stepOK_none].
Qed.

Lemma resolveAbsolute_ok (E : Env) (fuel : nat)
    (options : InternalResolveOptions) (id : string) :
  EnvOK E -> ensures (resolveAbsolute E fuel options id) stepOK.
Proof.
  intros HE. unfold resolveAbsolute.
  destruct (Path.isAbsolute id) eqn:Habs; [|apply ensures_ret, stepOK_none].
  apply ensures_bind with (P := pathOrNothing).
  - apply tryFsResolve_ok; by_hyp.
  - intros res _. destruct (Js.truthy res); apply ensures_ret;
      [apply stepOK_string|apply stepOK_none].
Qed.

Lemma ensures_tryOptimizedResolve (E : Env) (depsOptimizer : DepsOptimizer)
    (ssr : bool) (id : string) (importer : option string) :
  ensures (tryOptimizedResolve E depsOptimizer ssr id importer)
    (fun _ => True).
Proof.
  unfold tryOptimizedResolve.
  destruct (metadata depsOptimizer ssr) as [md|];
    [|apply ensures_ret; exact I].
  destruct (optimizedDepInfoFromId E md id) as [depInfo|];
    [apply ensures_ret; exact I|].
  split_if; apply ensures_ret; exact I.
Qed.

Lemma resolveRelative_ok (E : Env) (fuel : nat)
    (resolveOptions options : InternalResolveOptions) (targetWeb ssr : bool)
    (id : string) (importer : option string) :
  EnvOK E -> OptimizerOK (o_getDepsOptimizer resolveOptions) ->
  ensures (resolveRelative E fuel resolveOptions options targetWeb ssr id
             importer) stepOK.
Proof.
  intros HE HO. unfold resolveRelative. cbv zeta.
  split_if; [|apply ensures_ret, stepOK_none].
  match goal with
  | |- context [Path.resolve (cwd E) ?parts] =>
      pose proof (resolve_absolute (cwd E) parts (cwd_absolute E HE)) as Habs;
      set (fsPath := Path.resolve (cwd E) parts) in *
  end.
  match goal with
  | |- ensures (match ?c with Some _ => _ | None => _ end) _ =>
      destruct c as [d|]
  end.
  { split_if; apply ensures_ret, stepOK_string. }
  apply ensures_bind with (P := stepOK).
  { split_if;
      [|apply ensures_ret, stepOK_none].
    apply ensures_bind
      with (P := fun r => forall rec, r = Some rec -> structuredOK rec);
      [apply tryNodeResolve_ok; by_hyp|].
    intros [r|] Hr; [|apply ensures_ret, stepOK_none].
    split_if; apply ensures_ret;
      [|apply stepOK_none].
    intros x [= <-]. apply Hr; by_hyp. }
  intros [r|] Hr; [apply ensures_ret; by_hyp|].
  apply ensures_bind with (P := stepOK).
  { destruct targetWeb; [|apply ensures_ret, stepOK_none].
    apply ensures_bind with (P := resultOK);
      [apply tryResolveBrowserMapping_ok; by_hyp|].
    intros res Hres. apply ensures_ret.
    destruct res; intros x [= <-]; exact Hres. }
  intros [r|] Hr'; [apply ensures_ret; by_hyp|].
  apply ensures_bind with (P := pathOrNothing);
    [apply tryFsResolve_ok; by_hyp|].
  intros [res|] Hres; simpl; [|apply ensures_ret, stepOK_none].
  destruct (Js.nonEmpty res); [|apply ensures_ret, stepOK_none].
  apply ensures_bind
    with (P := fun pkg => forall p, pkg = Some p ->
                                    Path.isAbsolute (pkg_dir p) = true).
  { destruct importer as [i|]; [|apply ensures_ret; discriminate].
    apply ensures_gets. intros st Hst p Hp. exact (pkgs_ok st Hst _ _ Hp). }
  intros [pkg|] Hpkg; [|apply ensures_ret, stepOK_string].
  apply ensures_bind with (P := fun _ => True).
  - apply ensures_idToPkgMap_set; [apply Hpkg; by_hyp|exact I].
  - intros _ _. apply ensures_ret. intros x [= <-] _. right. exact Hres.
Qed.

Lemma resolveBareOptimized_ok (E : Env)
    (resolveOptions options : InternalResolveOptions) (ssr : bool)
    (id : string) (importer : option string) :
  ensures (resolveBareOptimized E resolveOptions options ssr id importer)
    stepOK.
Proof.
  unfold resolveBareOptimized.
  destruct (o_getDepsOptimizer resolveOptions) as [d|];
    [|apply ensures_ret, stepOK_none].
  split_if; [|apply ensures_ret, stepOK_none].
  apply ensures_bind with (P := fun _ => True);
    [apply ensures_tryOptimizedResolve|].
  intros res _. destruct (Js.truthy res); apply ensures_ret;
    [apply stepOK_string|apply stepOK_none].
Qed.

Lemma resolveBareBrowser_ok (E : Env) (fuel : nat)
    (options : InternalResolveOptions) (targetWeb : bool) (id : string)
    (importer : option string) :
  EnvOK E ->
  ensures (resolveBareBrowser E fuel options targetWeb id importer) stepOK.
Proof.
  intros HE. unfold resolveBareBrowser.
  destruct targetWeb; [|apply ensures_ret, stepOK_none].
  apply ensures_bind with (P := resultOK);
    [apply tryResolveBrowserMapping_ok; by_hyp|].
  intros res Hres. apply ensures_ret.
  destruct res; intros x [= <-]; exact Hres.
Qed.

Lemma resolveBareNode_ok (E : Env) (fuel : nat)
    (resolveOptions options : InternalResolveOptions) (targetWeb ssr : bool)
    (id : string) (importer : option string) :
  EnvOK E -> OptimizerOK (o_getDepsOptimizer resolveOptions) ->
  ensures (resolveBareNode E fuel resolveOptions options targetWeb ssr id
             importer) stepOK.
Proof.
  intros HE HO. unfold resolveBareNode.
  apply ensures_bind
    with (P := fun r => forall rec, r = Some rec -> structuredOK rec);
    [apply tryNodeResolve_ok; by_hyp|].
  intros [r|] Hr; apply ensures_ret; [|apply stepOK_none].
  intros x [= <-]. apply Hr; by_hyp.
Qed.

Lemma resolveBuiltin_ok (E : Env) (resolveOptions : InternalResolveOptions)
    (ssr : bool) (id : string) (importer : option string) :
  ensures (resolveBuiltin E resolveOptions ssr id importer) resultOK.
Proof.
  unfold resolveBuiltin. cbv zeta. destruct ssr; [|apply ensures_ret; by_hyp].
  destruct (match o_ssrConfig resolveOptions with
            | Some c => ssr_noExternal c
            | None => NoExternalUnset
            end); try apply ensures_throw;
    apply ensures_ret; intros Hext; simpl in Hext; congruence.
Qed.

(** The steps after the explicit [/@fs/] branch. *)
Lemma resolveId_steps_ok (E : Env) (fuel : nat)
    (resolveOptions options : InternalResolveOptions) (targetWeb ssr : bool)
    (id : string) (importer : option string) :
  EnvOK E -> OptimizerOK (o_getDepsOptimizer resolveOptions) ->
  ensures
    (orElse (resolveRootUrl E fuel resolveOptions options id)
    (orElse (resolveRelative E fuel resolveOptions options targetWeb ssr id
               importer)
    (orElse (resolveAbsolute E fuel options id)
    (if isExternalUrl E id then
       ret (ResRecord {| pr_id := id; pr_external := Some true;
                         pr_moduleSideEffects := None |})
     else
     if isDataUrl E id then ret ResNull else
     if bareImportRE E id then
       orElse (resolveBareOptimized E resolveOptions options ssr id importer)
       (orElse (resolveBareBrowser E fuel options targetWeb id importer)
       (orElse (resolveBareNode E fuel resolveOptions options targetWeb ssr id
                  importer)
       (if isBuiltin E id then resolveBuiltin E resolveOptions ssr id importer
        else ret ResUndefined)))
     else ret ResUndefined))))
    resultOK.
Proof.
  intros HE HO.
  apply ensures_orElse; [apply resolveRootUrl_ok; by_hyp|].
  apply ensures_orElse; [apply resolveRelative_ok; by_hyp|].
  apply ensures_orElse; [apply resolveAbsolute_ok; by_hyp|].
  destruct (isExternalUrl E id).
  { apply ensures_ret. intros Hext. simpl in Hext. congruence. }
  destruct (isDataUrl E id); [apply ensures_ret; by_hyp|].
  destruct (bareImportRE E id); [|apply ensures_ret; by_hyp].
  apply ensures_orElse; [apply resolveBareOptimized_ok|].
  apply ensures_orElse; [apply resolveBareBrowser_ok; by_hyp|].
  apply ensures_orElse; [apply resolveBareNode_ok; by_hyp|].
  destruct (isBuiltin E id); [apply resolveBuiltin_ok|apply ensures_ret; by_hyp].
Qed.

(** *** The hook as a whole *)

Lemma resolveId_ok (E : Env) (fuel : nat)
    (resolveOptions : InternalResolveOptions) (id : string)
    (importer : option string) (resolveOpts : option ResolveIdOptions) :
  EnvOK E -> OptimizerOK (o_getDepsOptimizer resolveOptions) ->
  ensures (resolveId E fuel resolveOptions id importer resolveOpts) resultOK.
Proof.
  intros HE HO. unfold resolveId. cbv zeta.
  split_if; [apply ensures_ret; exact I|].
  split_if; [apply ensures_ret; exact I|].
  apply ensures_bind with (P := fun _ => True);
    [apply ensures_setSkipPackageJson; exact I|].
  intros _ _. split_if; [apply ensures_ret; exact I|].
  split_if; [|apply resolveId_steps_ok; assumption].
  apply ensures_bind with (P := pathOrNothing).
  - apply tryFsResolve_ok; [assumption|]. apply (fsPathFromId_absolute E HE).
  - intros res _. apply ensures_ret. exact I.
Qed.

(** X17. The state of the resolver keeps its invariant over a call of the
    hook, however the call ends: the resolved caches hold resolved ids and
    the packages of [idToPkgMap] have absolute directories. *)
Lemma resolveId_keeps_invariant (E : Env) (fuel : nat)
    (resolveOptions : InternalResolveOptions) (id : string)
    (importer : option string) (resolveOpts : option ResolveIdOptions)
    (st : State) :
  EnvOK E -> OptimizerOK (o_getDepsOptimizer resolveOptions) -> StateOK st ->
  StateOK (snd (resolveId E fuel resolveOptions id importer resolveOpts st)).
Proof.
  intros HE HO Hst.
  pose proof (resolveId_ok E fuel resolveOptions id importer resolveOpts
                HE HO st Hst) as H.
  destruct (resolveId E fuel resolveOptions id importer resolveOpts st)
    as [[a|e|] st']; simpl; [apply H|exact H|exact H].
Qed.

Lemma resolvedPath_absolute (id : string) :
  resolvedPath id -> Path.isAbsolute id = true.
Proof.
  intros (p & q & -> & [Hp _] & _). now apply isAbsolute_append.
Qed.

(** *** The workspace meets the contracts *)

Lemma dropLast_absolute (file suffix : string) :
  Path.isAbsolute file = true -> Path.isAbsolute suffix = false ->
  Js.endsWith file suffix = true ->
  Path.isAbsolute
    (Workspace.Utils.dropLast (String.length suffix) file) = true.
Proof.
  intros Hfile Hsuffix Hends. unfold Workspace.Utils.dropLast.
  apply isAbsolute_take; [assumption|].
  unfold Js.endsWith in Hends. apply andb_true_iff in Hends.
  destruct Hends as [Hle Heq]. apply Nat.leb_le in Hle.
  apply String.eqb_eq in Heq.
  destruct (String.length file - String.length suffix)%nat eqn:Hn; [|lia].
  assert (Hfs : file = suffix) by (destruct file; exact Heq).
  congruence.
Qed.

Lemma tsSrcPaths_workspace (file src : string) :
  Path.isAbsolute file = true ->
  In src (Workspace.Utils.getPotentialTsSrcPaths file) ->
  Path.isAbsolute src = true.
Proof.
  intros Hfile. unfold Workspace.Utils.getPotentialTsSrcPaths.
  destruct (Js.endsWith file ".mjs") eqn:H1;
    [|destruct (Js.endsWith file ".cjs") eqn:H2;
      [|destruct (Js.endsWith file ".jsx") eqn:H3;
        [|destruct (Js.endsWith file ".js") eqn:H4]]];
    simpl; intros Hin;
    repeat match type of Hin with
           | _ \/ _ => destruct Hin as [Hin|Hin]
           end; try contradiction; subst src; apply isAbsolute_append.
  - exact (dropLast_absolute file ".mjs" Hfile eq_refl H1).
  - exact (dropLast_absolute file ".cjs" Hfile eq_refl H2).
  - exact (dropLast_absolute file ".jsx" Hfile eq_refl H3).
  - exact (dropLast_absolute file ".js" Hfile eq_refl H4).
  - exact (dropLast_absolute file ".js" Hfile eq_refl H4).
Qed.

Lemma canonical_absolute (p : string) :
  Path.isAbsolute p = true ->
  Path.isAbsolute (Workspace.Utils.canonical p) = true.
Proof.
  intros Hp. apply normalize_absolute in Hp.
  unfold Workspace.Utils.canonical. cbv zeta.
  destruct (Js.endsWith (Path.normalize p) "/"
            && negb (String.eqb (Path.normalize p) "/")) eqn:Hc;
    [|exact Hp].
  apply andb_true_iff in Hc. destruct Hc as [_ Hne].
  apply negb_true_iff in Hne.
  unfold Workspace.Utils.dropLast. apply isAbsolute_take; [exact Hp|].
  destruct (Path.normalize p) as [|c [|d t]]; try discriminate.
  - destruct (startsWith_inv _ _ Hp) as [t Ht].
    rewrite append_cons, append_nil in Ht. injection Ht as -> <-.
    discriminate Hne.
  - simpl. lia.
Qed.

Lemma manifestAt_absolute (pkgPath : string)
    (pkgs : list (string * PackageData)) (pkg : PackageData) :
  Workspace.Utils.manifestAt pkgPath pkgs = Some pkg ->
  Path.isAbsolute (pkg_dir pkg) = true.
Proof.
  induction pkgs as [|[name p] rest IH]; [discriminate|].
  cbn [Workspace.Utils.manifestAt].
  destruct (String.eqb _ pkgPath && Path.isAbsolute (pkg_dir p)) eqn:Hc;
    [|exact IH].
  intros [= <-]. apply andb_true_iff in Hc. apply Hc.
Qed.

Lemma installed_absolute (pkgId : string)
    (pkgs : list (string * PackageData)) (pkg : PackageData) :
  Workspace.Utils.installed pkgId pkgs = Some pkg ->
  Path.isAbsolute (pkg_dir pkg) = true.
Proof.
  induction pkgs as [|[name p] rest IH]; [discriminate|].
  cbn [Workspace.Utils.installed].
  destruct (String.eqb name pkgId && Path.isAbsolute (pkg_dir p)) eqn:Hc;
    [|exact IH].
  intros [= <-]. apply andb_true_iff in Hc. apply Hc.
Qed.

Lemma fsPathFromId_workspace (id : string) :
  Path.isAbsolute (Workspace.Utils.fsPathFromId id) = true.
Proof.
  unfold Workspace.Utils.fsPathFromId. cbv zeta.
  match goal with
  | |- context [if Js.startsWith ?x "/" then _ else _] =>
      destruct (Js.startsWith x "/") eqn:Hx
  end; [exact Hx|].
  rewrite append_cons, append_nil. reflexivity.
Qed.

Lemma workspace_env_ok (files : list (string * string)) (dirs : list string)
    (pkgs : list (string * PackageData)) :
  EnvOK (Workspace.env files dirs pkgs).
Proof.
  constructor; simpl.
  - reflexivity.
  - exact canonical_absolute.
  - intros pkgPath _ pkg.
    destruct (Workspace.Utils.manifestAt pkgPath pkgs) as [p|] eqn:Hp;
      [|discriminate].
    intros [= <-]. exact (manifestAt_absolute _ _ _ Hp).
  - intros pkgId _ _ pkg. apply installed_absolute.
  - exact tsSrcPaths_workspace.
  - intros url query Hurl. unfold Workspace.Utils.injectQuery.
    apply resolvedPath_postfix; [exact Hurl|].
    rewrite append_cons, append_nil. reflexivity.
  - exact fsPathFromId_workspace.
Qed.

Lemma no_optimizer_ok : OptimizerOK None.
Proof. intros d info H. discriminate H. Qed.

(** *** The id of a structured result *)

(** A deep import through a directory whose name starts with [?]: the
    structured result is not external, and its id is neither a normalized
    path nor the browser-external id, for the postfix [?x//index] is put
    back after the real path of the index file. *)
Lemma resolveId_id_keeps_postfix :
  fst (resolveId Workspace.workspace 10 Workspace.options "baz/sub/?x/"
         (Some "/p/src/main.js") None emptyState)
  = Ok (ResRecord {| pr_id := "/p/node_modules/baz/sub/index.js?x//index";
                     pr_external := None; pr_moduleSideEffects := None |})
  /\ ~ absoluteNormalized "/p/node_modules/baz/sub/index.js?x//index"
  /\ "/p/node_modules/baz/sub/index.js?x//index" <> browserExternalId.
Proof.
  split; [vm_compute; reflexivity|]. split.
  - intros [_ H]. vm_compute in H. discriminate H.
  - intros H. vm_compute in H. discriminate H.
Qed.

(** C1, as the code has it: with collaborators that meet their contracts and
    a state that satisfies its invariant, a structured result of [resolveId]
    that is not marked external has as id the browser-external id or an
    absolute, normalized path followed by a postfix (nothing, or a query or
    hash with what follows); in particular the id is never a relative
    path. *)
Theorem resolveId_structured_id (E : Env) (fuel : nat)
    (resolveOptions : InternalResolveOptions) (id : string)
    (importer : option string) (resolveOpts : option ResolveIdOptions)
    (st : State) (r : PartialResolvedId) :
  EnvOK E -> OptimizerOK (o_getDepsOptimizer resolveOptions) -> StateOK st ->
  fst (resolveId E fuel resolveOptions id importer resolveOpts st)
  = Ok (ResRecord r) ->
  pr_external r <> Some true ->
  (pr_id r = browserExternalId \/ resolvedPath (pr_id r))
  /\ (pr_id r = browserExternalId \/ Path.isAbsolute (pr_id r) = true).
Proof.
  intros HE HO Hst Hres Hext.
  pose proof (resolveId_ok E fuel resolveOptions id importer resolveOpts
                HE HO st Hst) as H.
  destruct (resolveId E fuel resolveOptions id importer resolveOpts st)
    as [[a|e|] st']; simpl in Hres; try discriminate Hres.
  injection Hres as ->. destruct H as [Hr _].
  destruct (Hr Hext) as [Hid|Hid]; split; auto.
  right. now apply resolvedPath_absolute.
Qed.

Lemma resolveId_structured_id_witness :
  ("/p/node_modules/foo/foo.mjs" = browserExternalId
   \/ resolvedPath "/p/node_modules/foo/foo.mjs")
  /\ ("/p/node_modules/foo/foo.mjs" = browserExternalId
      \/ Path.isAbsolute "/p/node_modules/foo/foo.mjs" = true).
Proof.
  apply (resolveId_structured_id Workspace.workspace 10 Workspace.options
           "foo" (Some "/p/src/app.ts") None emptyState
           {| pr_id := "/p/node_modules/foo/foo.mjs"; pr_external := None;
              pr_moduleSideEffects := None |}).
  - apply workspace_env_ok.
  - exact no_optimizer_ok.
  - exact StateOK_empty.
  - vm_compute. reflexivity.
  - discriminate.
Defined.

(** ** Further properties of the resolver *)

(** *** Splitting and candidate ids *)

Lemma slice_prefix_nonEmpty (s : string) (i : Z) :
  0 < i -> Js.nonEmpty s = true -> Js.nonEmpty (Js.slice s 0 (Some i)) = true.
Proof.
  intros Hi Hs. destruct s as [|c s]; [discriminate|].
  unfold Js.slice, Js.relIndex, Js.len. cbv zeta.
  replace (0 <? 0) with false by reflexivity.
  replace (i <? 0) with false by (symmetry; apply Z.ltb_ge; lia).
  replace (Z.min 0 (Z.of_nat (String.length (String c s)))) with 0
    by (simpl String.length; lia).
  change (Js.drop (Z.to_nat 0) (String c s)) with (String c s).
  destruct (Z.to_nat (Z.min i (Z.of_nat (String.length (String c s))) - 0))
    as [|n] eqn:Hn; [simpl String.length in Hn; lia|reflexivity].
Qed.

Lemma indexOf_leading (s : string) (c : ascii) :
  Js.firstCharIs s c = true -> Js.indexOf s (String c EmptyString) = 0.
Proof.
  destruct s as [|d s]; [discriminate|]. unfold Js.firstCharIs. intros H.
  unfold Js.indexOf, Js.indexOfFrom. cbv zeta.
  replace (Z.min (Z.max 0 0) (Js.len (String d s))) with 0
    by (unfold Js.len; lia).
  change (Js.drop (Z.to_nat 0) (String d s)) with (String d s).
  cbn [Js.indexOfAux].
  change (Js.startsWith (String d s) (String c EmptyString))
    with (Ascii.eqb c d && true).
  now rewrite Ascii.eqb_sym, H.
Qed.

(** X1. The file part of a non-empty path is never empty, and a path that
    begins with [?] is not split at all: the index of the marker must be
    positive. *)
Theorem splitFileAndPostfix_keeps_file (path : string) :
  Js.nonEmpty path = true ->
  Js.nonEmpty (fst (splitFileAndPostfix path)) = true
  /\ (Js.firstCharIs path "?" = true ->
      splitFileAndPostfix path = (path, EmptyString)).
Proof.
  intros Hpath. unfold splitFileAndPostfix. cbv zeta. split.
  - destruct (0 <? _) eqn:Hpos; [|exact Hpath].
    apply Z.ltb_lt in Hpos. simpl. now apply slice_prefix_nonEmpty.
  - intros Hq. rewrite (indexOf_leading _ _ Hq). reflexivity.
Qed.

Lemma splitFileAndPostfix_keeps_file_witness :
  Js.nonEmpty (fst (splitFileAndPostfix "?raw")) = true
  /\ (Js.firstCharIs "?raw" "?" = true ->
      splitFileAndPostfix "?raw" = ("?raw", EmptyString)).
Proof. apply (splitFileAndPostfix_keeps_file "?raw"). reflexivity. Defined.

Lemma take_nonEmpty_inv (n : nat) (s : string) :
  Js.nonEmpty (Js.take n s) = true -> (0 < n)%nat /\ Js.nonEmpty s = true.
Proof.
  destruct n as [|n], s as [|c s]; simpl; try discriminate.
  intros _. split; [lia|reflexivity].
Qed.

Lemma possiblePkgIdsLoop_nonEmpty (fuel : nat) (nestedPath : string)
    (prev : Z) (acc : list string) :
  -1 <= prev ->
  Forall (fun x => Js.nonEmpty x = true) acc ->
  Forall (fun x => Js.nonEmpty x = true)
    (possiblePkgIdsLoop fuel nestedPath prev acc).
Proof.
  revert prev acc; induction fuel as [|fuel IH]; intros prev acc Hprev Hacc;
    [exact Hacc|].
  cbn [possiblePkgIdsLoop]. cbv zeta.
  set (i := if Js.indexOfFrom nestedPath "/" (prev + 1) <? 0
            then Js.len nestedPath
            else Js.indexOfFrom nestedPath "/" (prev + 1)).
  assert (Hi : 0 <= i).
  { subst i. destruct (Js.indexOfFrom nestedPath "/" (prev + 1) <? 0) eqn:Hneg;
      [unfold Js.len|]; lia. }
  destruct (Js.nonEmpty (Js.slice nestedPath (prev + 1) (Some i))) eqn:Hpart;
    [|exact Hacc]. cbn [negb].
  destruct (match acc with [] => _ | _ :: _ => _ end).
  - apply IH; [lia|assumption].
  - apply IH; [lia|]. apply Forall_app. split; [assumption|].
    constructor; [|constructor].
    unfold Js.slice in Hpart. cbv zeta in Hpart.
    apply take_nonEmpty_inv in Hpart. destruct Hpart as [Hlen Hdrop].
    assert (Hne : Js.nonEmpty nestedPath = true).
    { destruct nestedPath; [|reflexivity].
      now destruct (Z.to_nat (Js.relIndex (Js.len "") (prev + 1))). }
    apply slice_prefix_nonEmpty; [|exact Hne].
    unfold Js.relIndex in Hlen.
    destruct (i <? 0) eqn:Hi0; [lia|].
    destruct (prev + 1 <? 0) eqn:Hp0; lia.
Qed.

(** X2. Every candidate package id of a bare specifier is a non-empty
    prefix of the path it was taken from. *)
Theorem possiblePkgIds_are_prefixes (nestedPath : string) :
  Forall (fun pkgId => Js.startsWith nestedPath pkgId = true
                       /\ Js.nonEmpty pkgId = true)
    (possiblePkgIdsOf nestedPath).
Proof.
  apply List.Forall_forall. intros pkgId Hin. split.
  - destruct (possiblePkgIds_prefix _ _ Hin) as (k & Hk & ->).
    rewrite slice_to by assumption.
    rewrite <- (take_drop (Z.to_nat k) nestedPath) at 1.
    apply startsWith_app.
  - pose proof (possiblePkgIdsLoop_nonEmpty (S (String.length nestedPath))
                  nestedPath (-1) [] (Z.le_refl _) (List.Forall_nil _)) as H.
    rewrite List.Forall_forall in H. now apply H.
Qed.

(** *** The browser field *)

Lemma take_append (a b : string) : Js.take (String.length a) (a +:+ b) = a.
Proof.
  induction a as [|c a IH]; [now destruct b|].
  rewrite append_cons. simpl. now rewrite IH.
Qed.

Lemma slice_without_suffix (key suffix : string) :
  Js.nonEmpty suffix = true ->
  (String.length suffix <= String.length key)%nat ->
  Js.slice key 0 (Some (- Js.len suffix))
  = Js.take (String.length key - String.length suffix) key.
Proof.
  intros Hs Hle. unfold Js.slice, Js.relIndex, Js.len. cbv zeta.
  assert (0 < String.length suffix)%nat by (destruct suffix; [discriminate|simpl; lia]).
  replace (0 <? 0) with false by reflexivity.
  replace (- Z.of_nat (String.length suffix) <? 0) with true
    by (symmetry; apply Z.ltb_lt; lia).
  replace (Z.min 0 (Z.of_nat (String.length key))) with 0 by lia.
  change (Js.drop (Z.to_nat 0) key) with key.
  f_equal. lia.
Qed.

Lemma equalWithoutSuffix_inv (path key suffix : string) :
  Js.nonEmpty suffix = true ->
  equalWithoutSuffix path key suffix = true -> key = path +:+ suffix.
Proof.
  intros Hs H. unfold equalWithoutSuffix, Js.endsWith in H.
  apply andb_true_iff in H. destruct H as [Hends Heq].
  apply andb_true_iff in Hends. destruct Hends as [Hle Hdrop].
  apply Nat.leb_le in Hle. apply String.eqb_eq in Hdrop, Heq.
  rewrite slice_without_suffix in Heq by assumption.
  rewrite <- (take_drop (String.length key - String.length suffix) key).
  now rewrite Heq, Hdrop.
Qed.

Lemma equalWithoutSuffix_append (path suffix : string) :
  Js.nonEmpty suffix = true ->
  equalWithoutSuffix path (path +:+ suffix) suffix = true.
Proof.
  intros Hs. unfold equalWithoutSuffix, Js.endsWith.
  assert (Hlen : (String.length (path +:+ suffix) - String.length suffix
                  = String.length path)%nat)
    by (rewrite length_append; lia).
  assert (Hle : (String.length suffix
                 <= String.length (path +:+ suffix))%nat)
    by (rewrite length_append; lia).
  rewrite slice_without_suffix by assumption.
  rewrite Hlen, drop_append, take_append, !String.eqb_refl.
  apply Nat.leb_le in Hle. now rewrite Hle.
Qed.

(** X3. For a non-empty suffix, [equalWithoutSuffix path key suffix] holds
    exactly when the key is the path with the suffix appended. *)
Theorem equalWithoutSuffix_iff (path key suffix : string) :
  Js.nonEmpty suffix = true ->
  equalWithoutSuffix path key suffix = true <-> key = path +:+ suffix.
Proof.
  intros Hs. split.
  - now apply equalWithoutSuffix_inv.
  - intros ->. now apply equalWithoutSuffix_append.
Qed.

Lemma equalWithoutSuffix_iff_witness :
  equalWithoutSuffix "lib/a" "lib/a.js" ".js" = true
  <-> "lib/a.js" = "lib/a" +:+ ".js".
Proof. apply (equalWithoutSuffix_iff "lib/a" "lib/a.js" ".js"). reflexivity. Defined.

Lemma equalWithoutSuffix_false (path key suffix : string) :
  Js.nonEmpty suffix = true -> key <> path +:+ suffix ->
  equalWithoutSuffix path key suffix = false.
Proof.
  intros Hs Hne. destruct (equalWithoutSuffix path key suffix) eqn:H;
    [|reflexivity].
  apply equalWithoutSuffix_inv in H; [contradiction|assumption].
Qed.

(** X4. [mapWithBrowserField] gives the value of the first key that, once
    normalized, is the normalized request, or the request followed by [.js]
    or by [/index.js]; with no such key there is no mapping. *)
Theorem mapWithBrowserField_first_match (relativePathInPkgDir : string)
    (before after : list (string * BrowserVal)) (key : string)
    (v : BrowserVal) :
  let request := Path.normalize relativePathInPkgDir in
  let misses (kv : string * BrowserVal) :=
    Path.normalize (fst kv) <> request
    /\ Path.normalize (fst kv) <> request +:+ ".js"
    /\ Path.normalize (fst kv) <> request +:+ "/index.js" in
  Forall misses before ->
  (Path.normalize key = request
   \/ Path.normalize key = request +:+ ".js"
   \/ Path.normalize key = request +:+ "/index.js" ->
   mapWithBrowserField relativePathInPkgDir (before ++ (key, v) :: after)
   = Some v)
  /\ (mapWithBrowserField relativePathInPkgDir before = None).
Proof.
  intros request misses Hbefore. unfold mapWithBrowserField. fold request.
  assert (Hskip : forall rest,
    mapWithBrowserFieldLoop request (before ++ rest)
    = mapWithBrowserFieldLoop request rest).
  { intros rest. induction Hbefore as [|[k w] l (H1 & H2 & H3) _ IH];
      [reflexivity|].
    simpl in H1, H2, H3. cbn [app mapWithBrowserFieldLoop]. cbv zeta.
    replace (String.eqb request (Path.normalize k)) with false
      by (symmetry; apply String.eqb_neq; congruence).
    rewrite (equalWithoutSuffix_false request _ ".js" eq_refl H2).
    rewrite (equalWithoutSuffix_false request _ "/index.js" eq_refl H3).
    exact IH. }
  split.
  - intros Hkey. rewrite Hskip. cbn [mapWithBrowserFieldLoop]. cbv zeta.
    destruct Hkey as [Hk|[Hk|Hk]].
    + rewrite Hk, String.eqb_refl. reflexivity.
    + rewrite Hk, (equalWithoutSuffix_append request ".js" eq_refl),
        orb_true_r.
      reflexivity.
    + rewrite Hk, (equalWithoutSuffix_append request "/index.js" eq_refl),
        orb_true_r.
      reflexivity.
  - rewrite <- (app_nil_r before), Hskip. reflexivity.
Qed.

Lemma mapWithBrowserField_first_match_witness :
  (Path.normalize "./lib/a.js" = Path.normalize "lib/a"
   \/ Path.normalize "./lib/a.js" = Path.normalize "lib/a" +:+ ".js"
   \/ Path.normalize "./lib/a.js" = Path.normalize "lib/a" +:+ "/index.js" ->
   mapWithBrowserField "lib/a"
     ([("./lib/b.js", BrFalse)] ++ ("./lib/a.js", BrStr "./shim.js") :: [])
   = Some (BrStr "./shim.js"))
  /\ mapWithBrowserField "lib/a" [("./lib/b.js", BrFalse)] = None.
Proof.
  apply (mapWithBrowserField_first_match "lib/a" [("./lib/b.js", BrFalse)] []
           "./lib/a.js" (BrStr "./shim.js")).
  constructor; [|constructor].
  vm_compute. repeat split; discriminate.
Defined.

(** *** Real paths and the load hook *)

(** X5. [getRealPath] returns a normalized path, and it hands the
    browser-external id back untouched, whatever the filesystem and the
    [preserveSymlinks] option. *)
Theorem getRealPath_normalized (E : Env) (resolved : string)
    (preserveSymlinks : bool) :
  normalizePath (getRealPath E resolved preserveSymlinks)
  = getRealPath E resolved preserveSymlinks
  /\ getRealPath E browserExternalId preserveSymlinks = browserExternalId.
Proof.
  split.
  - unfold getRealPath, normalizePath. cbv zeta. apply normalize_idempotent.
  - unfold getRealPath, ensureVolumeInPath. cbv zeta.
    rewrite String.eqb_refl, andb_false_r. vm_compute. reflexivity.
Qed.

Lemma slice_after_prefix (p t : string) :
  Js.slice (p +:+ t) (Js.len p) None = t.
Proof.
  rewrite slice_from.
  - unfold Js.len. rewrite Nat2Z.id. apply drop_append.
  - unfold Js.len. rewrite length_append. lia.
Qed.

(** X6. What the hook hands out for a Node built-in on the client is an id
    that [resolveId] passes through unchanged and that [load] serves: the
    empty module in production, and in development the proxy module that
    names the built-in. *)
Theorem load_serves_builtin (E : Env) (fuel : nat)
    (resolveOptions : InternalResolveOptions) (id : string)
    (importer importer' : option string)
    (resolveOpts : option ResolveIdOptions) (st st' : State) :
  let resolved :=
    if o_isProduction resolveOptions then browserExternalId
    else browserExternalId +:+ ":" +:+ id in
  resolveBuiltin E resolveOptions false id importer st
  = (Ok (ResString resolved), st)
  /\ resolveId E fuel resolveOptions resolved importer' resolveOpts st'
     = (Ok (ResString resolved), st')
  /\ load resolveOptions resolved
     = Some (if o_isProduction resolveOptions then "export default {}"
             else externalizedModule id).
Proof.
  intros resolved. subst resolved.
  assert (Hstarts :
    Js.startsWith (if o_isProduction resolveOptions then browserExternalId
                   else browserExternalId +:+ ":" +:+ id)
      browserExternalId = true).
  { destruct (o_isProduction resolveOptions); [reflexivity|].
    apply startsWith_app. }
  split; [reflexivity|]. split.
  - unfold resolveId. cbv zeta. now rewrite Hstarts.
  - unfold load. rewrite Hstarts.
    destruct (o_isProduction resolveOptions); [reflexivity|]. cbv zeta.
    do 2 f_equal.
    change (Js.len browserExternalId + 1)
      with (Js.len (browserExternalId +:+ ":")).
    rewrite <- append_assoc. apply slice_after_prefix.
Qed.

(** *** What a run returns and what it throws *)

Lemma yields_ret {A} (a : A) (Q : A -> Prop) : Q a -> yields (ret a) Q.
Proof. intros H st a' st' [= <- _]. exact H. Qed.

Lemma yields_throw {A} (e : JsError) (Q : A -> Prop) : yields (throw e) Q.
Proof. intros st a st' H. discriminate H. Qed.

Lemma yields_outOfFuel {A} (Q : A -> Prop) : yields outOfFuel Q.
Proof. intros st a st' H. discriminate H. Qed.

Lemma yields_bind {A B} (m : M A) (k : A -> M B) (P : A -> Prop)
    (Q : B -> Prop) :
  yields m P -> (forall a, P a -> yields (k a) Q) -> yields (bind m k) Q.
Proof.
  intros Hm Hk st b st' H. apply bind_ok_inv in H.
  destruct H as (a & st1 & Ha & Hb). exact (Hk a (Hm _ _ _ Ha) _ _ _ Hb).
Qed.

Lemma yields_tryCatch {A} (m : M A) (h : JsError -> M A) (Q : A -> Prop) :
  yields m Q -> (forall e, yields (h e) Q) -> yields (tryCatch m h) Q.
Proof.
  intros Hm Hh st a st' H. apply tryCatch_ok_inv in H.
  destruct H as [H|(e & st1 & _ & H)]; [exact (Hm _ _ _ H)|exact (Hh _ _ _ _ H)].
Qed.

Lemma yields_weaken {A} (m : M A) (P Q : A -> Prop) :
  yields m P -> (forall a, P a -> Q a) -> yields m Q.
Proof. intros Hm HPQ st a st' H. exact (HPQ _ (Hm _ _ _ H)). Qed.

Lemma yields_any {A} (m : M A) : yields m (fun _ => True).
Proof. intros st a st' _. exact I. Qed.

Lemma yields_withOptionsCopy {A} (m : M A) (Q : A -> Prop) :
  yields m Q -> yields (withOptionsCopy m) Q.
Proof.
  intros Hm st a st' H. unfold withOptionsCopy in H.
  destruct (m st) as [r st1] eqn:Hr. injection H as -> _.
  exact (Hm _ _ _ Hr).
Qed.

Lemma raises_ret {A} (a : A) (Q : JsError -> Prop) : raises (ret a) Q.
Proof. intros st e st' H. discriminate H. Qed.

Lemma raises_throw {A} (e : JsError) (Q : JsError -> Prop) :
  Q e -> raises (throw e : M A) Q.
Proof. intros H st e' st' [= <- _]. exact H. Qed.

Lemma raises_gets {A} (f : State -> A) (Q : JsError -> Prop) :
  raises (gets f) Q.
Proof. intros st e st' H. discriminate H. Qed.

Lemma raises_bind {A B} (m : M A) (k : A -> M B) (Q : JsError -> Prop) :
  raises m Q -> (forall a, raises (k a) Q) -> raises (bind m k) Q.
Proof.
  intros Hm Hk st e st' H. unfold bind in H.
  destruct (m st) as [[a|e1|] st1] eqn:Hr.
  - exact (Hk _ _ _ _ H).
  - injection H as <- _. exact (Hm _ _ _ Hr).
  - discriminate H.
Qed.

Lemma raises_tryCatch {A} (m : M A) (h : JsError -> M A)
    (Q : JsError -> Prop) :
  (forall e, raises (h e) Q) -> raises (tryCatch m h) Q.
Proof.
  intros Hh st e st' H. unfold tryCatch in H.
  destruct (m st) as [[a|e1|] st1] eqn:Hr; try discriminate H.
  exact (Hh _ _ _ _ H).
Qed.

(** What every failure of the entry-point resolver looks like. *)
Lemma packageEntryFailure_message (id : string) (details : option string)
    (A : Type) :
  raises (packageEntryFailure id details : M A)
    (fun e =>
       err_code e = None
       /\ Js.startsWith (err_message e)
            ("Failed to resolve entry for package " +:+ Js.dquote +:+ id
             +:+ Js.dquote +:+ ". ") = true).
Proof.
  apply raises_throw. split; [reflexivity|].
  cbn [err_message newError].
  match goal with
  | |- Js.startsWith (_ +:+ _ +:+ _ +:+ _ +:+ _ +:+ ?rest) ?p = true =>
      replace (Js.startsWith _ p) with (Js.startsWith (p +:+ rest) p)
  end; [apply startsWith_app|].
  f_equal. now rewrite !append_assoc.
Qed.

(** *** The entry point of a package *)

(** X7. [resolvePackageEntry] never returns [undefined]: a call that
    returns gives a non-empty string. *)
Theorem resolvePackageEntry_never_undefined (E : Env) (fuel : nat)
    (id : string) (pkg : PackageData) (targetWeb : bool)
    (options : InternalResolveOptions) (st st' : State) (r : option string) :
  resolvePackageEntry E fuel id pkg targetWeb options st = (Ok r, st') ->
  exists s, r = Some s /\ Js.nonEmpty s = true.
Proof.
  revert st r st'.
  change (yields (resolvePackageEntry E fuel id pkg targetWeb options)
            (fun r => exists s, r = Some s /\ Js.nonEmpty s = true)).
  assert (Htruthy : forall r : option string,
    Js.truthy r = true -> exists s, r = Some s /\ Js.nonEmpty s = true).
  { intros [s|] H; [|discriminate]. now exists s. }
  destruct fuel as [|fuel]; [apply yields_outOfFuel|].
  cbn [resolvePackageEntry]. unfold resolvePackageEntry_body. cbv zeta.
  apply yields_bind with (P := fun _ => True); [apply yields_any|].
  intros cached _. destruct (Js.truthy cached) eqn:Hc;
    [apply yields_ret; auto|].
  apply yields_bind with (P := fun _ => True); [apply yields_any|].
  intros returned _. destruct (Js.truthy returned) eqn:Hr;
    [apply yields_ret; auto|apply yields_throw].
Qed.

Lemma resolvePackageEntry_never_undefined_witness :
  exists s, Some "/p/node_modules/foo/foo.mjs" = Some s
            /\ Js.nonEmpty s = true.
Proof.
  apply (resolvePackageEntry_never_undefined Workspace.workspace 3 "foo"
           Workspace.foo true Workspace.options emptyState
           (setWebResolved Workspace.foo "." "/p/node_modules/foo/foo.mjs"
              emptyState)).
  vm_compute. reflexivity.
Defined.

(** X8. Every error of [resolvePackageEntry] is the entry failure of the
    package it was called for: what goes wrong inside (the exports resolver,
    a read of the browser entry, the entry of a nested package) reaches the
    caller only as the details of that message. *)
Theorem resolvePackageEntry_errors_wrapped (E : Env) (fuel : nat)
    (id : string) (pkg : PackageData) (targetWeb : bool)
    (options : InternalResolveOptions) (st st' : State) (e : JsError) :
  resolvePackageEntry E fuel id pkg targetWeb options st = (Throw e, st') ->
  err_code e = None
  /\ Js.startsWith (err_message e)
       ("Failed to resolve entry for package " +:+ Js.dquote +:+ id
        +:+ Js.dquote +:+ ". ") = true.
Proof.
  revert st e st'.
  change (raises (resolvePackageEntry E fuel id pkg targetWeb options)
            (fun e =>
               err_code e = None
               /\ Js.startsWith (err_message e)
                    ("Failed to resolve entry for package " +:+ Js.dquote
                     +:+ id +:+ Js.dquote +:+ ". ") = true)).
  destruct fuel as [|fuel]; [intros st e st' H; discriminate H|].
  cbn [resolvePackageEntry]. unfold resolvePackageEntry_body. cbv zeta.
  apply raises_bind; [apply raises_gets|].
  intros cached. destruct (Js.truthy cached); [apply raises_ret|].
  apply raises_bind.
  - apply raises_tryCatch. intros e. apply packageEntryFailure_message.
  - intros returned. destruct (Js.truthy returned); [apply raises_ret|].
    apply packageEntryFailure_message.
Qed.

Lemma resolvePackageEntry_errors_wrapped_witness :
  err_code
    (newError
       ("Failed to resolve entry for package " +:+ Js.dquote +:+ "bar"
        +:+ Js.dquote
        +:+ ". The package may have incorrect main/module/exports specified in its package.json: Missing "
        +:+ Js.dquote +:+ "." +:+ Js.dquote +:+ " export in " +:+ Js.dquote
        +:+ "bar" +:+ Js.dquote +:+ " package"))
  = None
  /\ Js.startsWith
       (err_message
          (newError
             ("Failed to resolve entry for package " +:+ Js.dquote +:+ "bar"
              +:+ Js.dquote
              +:+ ". The package may have incorrect main/module/exports specified in its package.json: Missing "
              +:+ Js.dquote +:+ "." +:+ Js.dquote +:+ " export in "
              +:+ Js.dquote +:+ "bar" +:+ Js.dquote +:+ " package")))
       ("Failed to resolve entry for package " +:+ Js.dquote +:+ "bar"
        +:+ Js.dquote +:+ ". ") = true.
Proof.
  apply (resolvePackageEntry_errors_wrapped Workspace.workspace 5 "bar"
           Workspace.bar true Workspace.options emptyState emptyState).
  vm_compute. reflexivity.
Defined.

(** *** Deep imports, optimized dependencies and the browser mapping *)

(** X9. A package whose [exports] field is a string or an array exposes no
    deep import: on a cache miss [resolveDeepImport] throws before it looks
    at the filesystem, whatever the subpath. *)
Theorem resolveDeepImport_exports_not_object (E : Env) (fuel : nat)
    (id : string) (pkg : PackageData) (targetWeb : bool)
    (options : InternalResolveOptions) (st : State) :
  fst (getResolvedCache pkg id targetWeb st) = Ok None ->
  exportsTruthy (pj_exports (pkg_data pkg)) = true ->
  exportsIsPlainObject (pj_exports (pkg_data pkg)) = false ->
  resolveDeepImport E fuel id pkg targetWeb options st
  = (Throw (newError
       ("Package subpath 'undefined' is not defined by " +:+ Js.dquote
        +:+ "exports" +:+ Js.dquote +:+ " in "
        +:+ Path.join [pkg_dir pkg; "package.json"] +:+ ".")), st).
Proof.
  intros Hcache Htruthy Hplain. unfold resolveDeepImport. cbv zeta.
  unfold bind at 1. unfold getResolvedCache, gets in *. cbv beta in *.
  simpl in Hcache. injection Hcache as ->. cbv beta iota.
  change (Js.truthy None) with false. cbv iota.
  rewrite Htruthy, Hplain. reflexivity.
Qed.

Lemma resolveDeepImport_exports_not_object_witness :
  resolveDeepImport Workspace.workspace 0 "./lib/a.js" Workspace.qux true
    Workspace.options emptyState
  = (Throw (newError
       ("Package subpath 'undefined' is not defined by " +:+ Js.dquote
        +:+ "exports" +:+ Js.dquote +:+ " in "
        +:+ Path.join [pkg_dir Workspace.qux; "package.json"] +:+ ".")),
     emptyState).
Proof.
  apply (resolveDeepImport_exports_not_object Workspace.workspace 0
           "./lib/a.js" Workspace.qux true Workspace.options emptyState);
    reflexivity.
Defined.

Lemma nestedDependencyLoop_sound (E : Env) (depsOptimizer : DepsOptimizer)
    (id importer : string) (depInfoList : list DepInfo) :
  forall (resolvedSrc : option string) (r : string),
    (forall x, resolvedSrc = Some x ->
               exists src, resolveFrom E id (Path.dirname importer)
                           = Returns src /\ x = normalizePath src) ->
    nestedDependencyLoop E depsOptimizer id importer resolvedSrc depInfoList
    = Some r ->
    exists info src,
      In info depInfoList
      /\ Js.endsWith (di_id info) id = true
      /\ resolveFrom E id (Path.dirname importer) = Returns src
      /\ di_src info = Some (normalizePath src)
      /\ r = getOptimizedDepId depsOptimizer info.
Proof.
  induction depInfoList as [|info rest IH]; intros resolvedSrc r Hsrc Hr;
    [discriminate Hr|].
  assert (Hrest : forall rs,
    (forall x, rs = Some x ->
               exists src, resolveFrom E id (Path.dirname importer)
                           = Returns src /\ x = normalizePath src) ->
    nestedDependencyLoop E depsOptimizer id importer rs rest = Some r ->
    exists info0 src,
      In info0 (info :: rest)
      /\ Js.endsWith (di_id info0) id = true
      /\ resolveFrom E id (Path.dirname importer) = Returns src
      /\ di_src info0 = Some (normalizePath src)
      /\ r = getOptimizedDepId depsOptimizer info0).
  { intros rs Hrs H. destruct (IH rs r Hrs H) as (i0 & src & Hin & Hrem).
    exists i0, src. split; [now right|exact Hrem]. }
  cbn [nestedDependencyLoop] in Hr. cbv zeta in Hr.
  destruct (negb (Js.truthy (di_src info))); [now apply (Hrest resolvedSrc)|].
  destruct (Js.endsWith (di_id info) id) eqn:Hends;
    [|now apply (Hrest resolvedSrc)].
  cbn [negb] in Hr.
  assert (Hinit : forall x,
    match resolvedSrc with
    | Some r0 => Returns r0
    | None =>
        match resolveFrom E id (Path.dirname importer) with
        | Returns r0 => Returns (normalizePath r0)
        | Raises e => Raises e
        end
    end = Returns x ->
    exists src, resolveFrom E id (Path.dirname importer) = Returns src
                /\ x = normalizePath src).
  { intros x Hx. destruct resolvedSrc as [r0|].
    - injection Hx as ->. now apply Hsrc.
    - destruct (resolveFrom E id (Path.dirname importer)) as [src|e];
        [|discriminate Hx].
      injection Hx as <-. now exists src. }
  destruct (match resolvedSrc with Some _ => _ | None => _ end) as [x|e];
    [|discriminate Hr].
  destruct (Hinit x eq_refl) as (src & Hfrom & ->).
  destruct (bool_decide (di_src info = Some (normalizePath src))) eqn:Hmatch.
  - apply bool_decide_eq_true in Hmatch. injection Hr as <-.
    exists info, src. split; [now left|]. auto.
  - apply (Hrest (Some (normalizePath src))); [|exact Hr].
    intros y [= <-]. now exists src.
Qed.

(** X10. What [tryOptimizedResolve] returns is the optimized id of a
    dependency the metadata hold: the one listed for the id itself, or, for
    a call with an importer, one whose id ends with the requested id and
    whose source is the file the id resolves to from the importer's
    directory. The state is left as it was. *)
Theorem tryOptimizedResolve_sound (E : Env) (depsOptimizer : DepsOptimizer)
    (ssr : bool) (id : string) (importer : option string) (st st' : State)
    (r : string) :
  tryOptimizedResolve E depsOptimizer ssr id importer st = (Ok (Some r), st') ->
  st' = st
  /\ exists md info,
       metadata depsOptimizer ssr = Some md
       /\ r = getOptimizedDepId depsOptimizer info
       /\ (optimizedDepInfoFromId E md id = Some info
           \/ exists i src,
                importer = Some i
                /\ In info (md_depInfoList md)
                /\ Js.endsWith (di_id info) id = true
                /\ resolveFrom E id (Path.dirname i) = Returns src
                /\ di_src info = Some (normalizePath src)).
Proof.
  unfold tryOptimizedResolve.
  destruct (metadata depsOptimizer ssr) as [md|]; [|discriminate].
  destruct (optimizedDepInfoFromId E md id) as [depInfo|] eqn:Hdirect.
  - intros [= <- <-]. split; [reflexivity|]. exists md, depInfo. auto.
  - destruct importer as [i|]; [|discriminate].
    destruct (negb (Js.truthy (Some i))); [discriminate|].
    intros [= Hloop <-]. split; [reflexivity|].
    apply nestedDependencyLoop_sound in Hloop; [|discriminate].
    destruct Hloop as (info & src & Hin & Hends & Hfrom & Hsrc & ->).
    exists md, info. split; [reflexivity|]. split; [reflexivity|].
    right. exists i, src. auto.
Qed.

Lemma tryOptimizedResolve_sound_witness :
  emptyState = emptyState
  /\ exists md info,
       metadata Workspace.optimizer false = Some md
       /\ "/p/node_modules/.vite/deps/my-lib___foo.js?v=abc"
          = getOptimizedDepId Workspace.optimizer info
       /\ (optimizedDepInfoFromId Workspace.workspace md "foo" = Some info
           \/ exists i src,
                Some "/p/src/app.ts" = Some i
                /\ In info (md_depInfoList md)
                /\ Js.endsWith (di_id info) "foo" = true
                /\ resolveFrom Workspace.workspace "foo" (Path.dirname i)
                   = Returns src
                /\ di_src info = Some (normalizePath src)).
Proof.
  apply (tryOptimizedResolve_sound Workspace.workspace Workspace.optimizer
           false "foo" (Some "/p/src/app.ts") emptyState emptyState).
  vm_compute. reflexivity.
Defined.

Lemma tryResolveBrowserMapping_result (E : Env) (fuel : nat) (id : string)
    (importer : option string) (options : InternalResolveOptions)
    (isFilePath : bool) (externalize : option bool) (st st' : State)
    (r : ResolutionResult) :
  tryResolveBrowserMapping E fuel id importer options isFilePath externalize st
  = (Ok r, st') ->
  r <> ResUndefined ->
  exists i pkg browser,
    importer = Some i
    /\ idToPkgMap st !! i = Some pkg
    /\ pj_browser (pkg_data pkg) = BrowserMap browser
    /\ (r = ResString browserExternalId
        \/ exists rec,
             r = ResRecord rec
             /\ idToPkgMap st' !! pr_id rec = Some pkg
             /\ pr_moduleSideEffects rec
                = Some (pkg_hasSideEffects pkg (pr_id rec))
             /\ pr_external rec
                = if isTrue externalize then Some true else None).
Proof.
  unfold tryResolveBrowserMapping. intros H Hr.
  apply bind_ok_inv in H. destruct H as (pkg & st1 & Hpkg & H).
  destruct pkg as [pkg|]; [|injection H as <- _; contradiction].
  assert (Hlinked : exists i, importer = Some i
                              /\ idToPkgMap st !! i = Some pkg /\ st1 = st).
  { destruct importer as [i|]; [|discriminate Hpkg].
    destruct (Js.nonEmpty i); [|discriminate Hpkg].
    unfold gets in Hpkg. injection Hpkg as Hi <-. now exists i. }
  destruct Hlinked as (i & -> & Hi & ->).
  destruct (pj_browser (pkg_data pkg)) as [| |browser] eqn:Hbrowser;
    try (injection H as <- _; contradiction).
  exists i, pkg, browser. split; [reflexivity|]. split; [exact Hi|].
  split; [exact Hbrowser|].
  destruct (mapWithBrowserField _ browser) as [[mapped|]|];
    [|injection H as <- _; now left|injection H as <- _; contradiction].
  destruct (Js.nonEmpty mapped); [|injection H as <- _; contradiction].
  apply bind_ok_inv in H. destruct H as (res & st2 & _ & H).
  destruct res as [res|]; [|injection H as <- _; contradiction].
  destruct (Js.nonEmpty res); [|injection H as <- _; contradiction].
  apply bind_ok_inv in H. destruct H as ([] & st3 & Hset & H).
  unfold idToPkgMap_set, modify in Hset. injection Hset as <-.
  injection H as <- <-. right.
  eexists. split; [reflexivity|].
  destruct (isTrue externalize); cbn;
    (split; [apply lookup_insert_eq|split; reflexivity]).
Qed.

(** X11. The browser mapping of an importer's package: a result other than
    [undefined] needs an importer that [idToPkgMap] links to a package with
    an object [browser] field; it is the browser-external id as a plain
    string, or a record for a file that is linked to the same package by the
    time the call returns, with that package's side-effect flag and marked
    external exactly when externalization was asked for. *)
Theorem tryResolveBrowserMapping_linked (E : Env) (fuel : nat) (id : string)
    (importer : option string) (options : InternalResolveOptions)
    (isFilePath : bool) (externalize : option bool) (st st' : State)
    (r : ResolutionResult) :
  tryResolveBrowserMapping E fuel id importer options isFilePath externalize st
  = (Ok r, st') ->
  r <> ResUndefined ->
  exists i pkg browser,
    importer = Some i
    /\ idToPkgMap st !! i = Some pkg
    /\ pj_browser (pkg_data pkg) = BrowserMap browser
    /\ (r = ResString browserExternalId
        \/ exists rec,
             r = ResRecord rec
             /\ idToPkgMap st' !! pr_id rec = Some pkg
             /\ pr_moduleSideEffects rec
                = Some (pkg_hasSideEffects pkg (pr_id rec))
             /\ pr_external rec
                = if isTrue externalize then Some true else None).
Proof. apply tryResolveBrowserMapping_result. Qed.

Lemma tryResolveBrowserMapping_linked_witness :
  exists i pkg browser,
    Some "/p/node_modules/shim/main.js" = Some i
    /\ idToPkgMap
         (snd (idToPkgMap_set "/p/node_modules/shim/main.js" Workspace.shim
                 emptyState)) !! i = Some pkg
    /\ pj_browser (pkg_data pkg) = BrowserMap browser
    /\ (ResString browserExternalId = ResString browserExternalId
        \/ exists rec,
             ResString browserExternalId = ResRecord rec
             /\ idToPkgMap
                  (snd (idToPkgMap_set "/p/node_modules/shim/main.js"
                          Workspace.shim emptyState)) !! pr_id rec = Some pkg
             /\ pr_moduleSideEffects rec
                = Some (pkg_hasSideEffects pkg (pr_id rec))
             /\ pr_external rec = if isTrue None then Some true else None).
Proof.
  apply (tryResolveBrowserMapping_linked Workspace.workspace 5 "./server.js"
           (Some "/p/node_modules/shim/main.js") Workspace.options false None
           (snd (idToPkgMap_set "/p/node_modules/shim/main.js" Workspace.shim
                   emptyState))
           (snd (idToPkgMap_set "/p/node_modules/shim/main.js" Workspace.shim
                   emptyState))
           (ResString browserExternalId)).
  - vm_compute. reflexivity.
  - discriminate.
Defined.

(** *** The bare-import resolver, case by case *)

Lemma findPackage_none (E : Env) (pkgIds : list string) (basedir : string)
    (preserveSymlinks : bool) :
  (forall pkgId, In pkgId pkgIds ->
                 resolvePackageData E pkgId basedir preserveSymlinks = None) ->
  findPackage E pkgIds basedir preserveSymlinks = None.
Proof.
  induction pkgIds as [|x l IH]; intros H; [reflexivity|].
  cbn [findPackage]. rewrite (H x (or_introl eq_refl)).
  apply IH. intros y Hy. apply H. now right.
Qed.

(** X12. When none of the candidate package ids of a specifier names an
    installed package, [tryNodeResolve] returns [undefined] and leaves the
    caches and [idToPkgMap] as they were. *)
Theorem tryNodeResolve_no_package (E : Env) (fuel : nat) (id : string)
    (importer : option string) (options : InternalResolveOptions)
    (targetWeb : bool) (depsOptimizer : option DepsOptimizer)
    (ssr externalize : option bool) (st : State) :
  (forall pkgId basedir,
     In pkgId (possiblePkgIdsOf (nestedPathOf id)) ->
     resolvePackageData E pkgId basedir (o_preserveSymlinks options) = None) ->
  tryNodeResolve E fuel id importer options targetWeb depsOptimizer ssr
    externalize st
  = (Ok None, st).
Proof.
  intros Hnone. unfold tryNodeResolve. cbv zeta.
  match goal with
  | |- context [findPackage E ?l ?b ?ps] =>
      rewrite (findPackage_none E l b ps)
  end; [reflexivity|].
  intros pkgId Hin. apply Hnone. apply in_rev in Hin. exact Hin.
Qed.

Lemma tryNodeResolve_no_package_witness :
  tryNodeResolve Workspace.workspace 10 "nope/x" (Some "/p/src/app.ts")
    Workspace.options true None None None emptyState
  = (Ok None, emptyState).
Proof.
  apply (tryNodeResolve_no_package Workspace.workspace 10 "nope/x"
           (Some "/p/src/app.ts") Workspace.options true None None None
           emptyState).
  intros pkgId basedir Hin. vm_compute in Hin.
  destruct Hin as [<-|[<-|[]]]; reflexivity.
Defined.

Lemma startsWith_refl (s : string) : Js.startsWith s s = true.
Proof.
  rewrite <- (append_empty_r s) at 1. apply startsWith_app.
Qed.

Ltac inv_bind H :=
  let a := fresh "a" in
  let st1 := fresh "st" in
  let Hm := fresh "Hm" in
  apply bind_ok_inv in H; destruct H as (a & st1 & Hm & H).

(** X13. When externalization is asked for, a record that [tryNodeResolve]
    returns is marked external and its id is the specifier itself, followed
    at most by the extension of the resolved file, and then only when the
    specifier has another extension: never the path on disk. The resolved
    file is the one that [idToPkgMap] links to the package, and the one the
    side-effect flag of the record is computed for. *)
Theorem tryNodeResolve_externalized (E : Env) (fuel : nat) (id : string)
    (importer : option string) (options : InternalResolveOptions)
    (targetWeb : bool) (depsOptimizer : option DepsOptimizer)
    (ssr externalize : option bool) (st st' : State)
    (rec : PartialResolvedId) :
  isTrue externalize = true ->
  tryNodeResolve E fuel id importer options targetWeb depsOptimizer ssr
    externalize st
  = (Ok (Some rec), st') ->
  pr_external rec = Some true
  /\ exists resolved pkg,
       idToPkgMap st' !! resolved = Some pkg
       /\ pr_moduleSideEffects rec = Some (pkg_hasSideEffects pkg resolved)
       /\ (pr_id rec = id
           \/ (pr_id rec = id +:+ Path.extname resolved
               /\ Path.extname id <> Path.extname resolved)).
Proof.
  intros Hext H. unfold tryNodeResolve in H. cbv zeta in H.
  match type of H with
  | context [findPackage E ?l ?b ?ps] =>
      destruct (findPackage E l b ps) as [[pkgId pkg]|]
  end; [|discriminate H].
  inv_bind H. inv_bind H.
  destruct a0 as [resolved|]; [|discriminate H].
  destruct (negb (Js.nonEmpty resolved)); [discriminate H|].
  inv_bind H. unfold idToPkgMap_set, modify in Hm1. injection Hm1 as _ <-.
  rewrite Hext, orb_true_r in H. cbn [negb] in H. cbv beta iota in H.
  assert (Hlink :
    idToPkgMap
      {| webResolvedImports := webResolvedImports st1;
         nodeResolvedImports := nodeResolvedImports st1;
         idToPkgMap := <[resolved:=pkg]> (idToPkgMap st1);
         skipPackageJson := skipPackageJson st1 |} !! resolved = Some pkg)
    by apply lookup_insert_eq.
  repeat match type of H with
         | ret (if ?c then _ else _) _ = _ => destruct c eqn:?
         end; try discriminate H; injection H as <- <-;
    (split; [reflexivity|]); exists resolved, pkg;
    (split; [exact Hlink|]); (split; [reflexivity|]); cbn [pr_id];
    [right|left|left]; try reflexivity.
  split; [reflexivity|].
  match goal with
  | Hne : _ && negb (String.eqb _ _) = true |- _ =>
      apply andb_true_iff in Hne; destruct Hne as [_ Hne];
      apply negb_true_iff in Hne; now apply String.eqb_neq in Hne
  end.
Qed.

Lemma tryNodeResolve_externalized_witness :
  pr_external {| pr_id := "baz/sub.js"; pr_external := Some true;
                 pr_moduleSideEffects := Some true |} = Some true
  /\ exists resolved pkg,
       idToPkgMap
         (snd (tryNodeResolve Workspace.workspace 10 "baz/sub"
                 (Some "/p/src/app.ts") Workspace.options true None None
                 (Some true) emptyState)) !! resolved = Some pkg
       /\ pr_moduleSideEffects
            {| pr_id := "baz/sub.js"; pr_external := Some true;
               pr_moduleSideEffects := Some true |}
          = Some (pkg_hasSideEffects pkg resolved)
       /\ (pr_id {| pr_id := "baz/sub.js"; pr_external := Some true;
                    pr_moduleSideEffects := Some true |} = "baz/sub"
           \/ (pr_id {| pr_id := "baz/sub.js"; pr_external := Some true;
                        pr_moduleSideEffects := Some true |}
               = "baz/sub" +:+ Path.extname resolved
               /\ Path.extname "baz/sub" <> Path.extname resolved)).
Proof.
  apply (tryNodeResolve_externalized Workspace.workspace 10 "baz/sub"
           (Some "/p/src/app.ts") Workspace.options true None None
           (Some true) emptyState
           (snd (tryNodeResolve Workspace.workspace 10 "baz/sub"
                   (Some "/p/src/app.ts") Workspace.options true None None
                   (Some true) emptyState))).
  - reflexivity.
  - vm_compute. reflexivity.
Defined.

(** *** The filesystem probe *)

(** X14. A path the probe returns for an absolute path is a resolved path:
    absolute and normalized up to its postfix; and the state keeps its
    invariant. *)
Theorem tryFsResolve_returns_resolved_path (E : Env) (fuel : nat)
    (fsPath : string) (options : InternalResolveOptions)
    (tryIndex targetWeb : bool) (st st' : State) (r : string) :
  EnvOK E -> Path.isAbsolute fsPath = true -> StateOK st ->
  tryFsResolve E fuel fsPath options tryIndex targetWeb st
  = (Ok (Some r), st') ->
  resolvedPath r /\ StateOK st'.
Proof.
  intros HE Habs Hst H.
  pose proof (tryFsResolve_ok E fuel fsPath options tryIndex targetWeb HE
                Habs st Hst) as Hok.
  rewrite H in Hok. exact Hok.
Qed.

Lemma tryFsResolve_returns_resolved_path_witness :
  resolvedPath "/p/src/util.ts"
  /\ StateOK (snd (tryFsResolve Workspace.workspace 5 "/p/src/util.ts"
                     Workspace.options true true emptyState)).
Proof.
  apply (tryFsResolve_returns_resolved_path Workspace.workspace 5
           "/p/src/util.ts" Workspace.options true true emptyState).
  - apply workspace_env_ok.
  - reflexivity.
  - exact StateOK_empty.
  - vm_compute. reflexivity.
Defined.

Lemma bind_step {A B} (m : M A) (k : A -> M B) (st st1 : State) (a : A) :
  m st = (Ok a, st1) -> bind m k st = k a st1.
Proof. intros H. unfold bind. now rewrite H. Qed.

Lemma tryResolveFile_missing (E : Env) (fuel : nat) (file postfix : string)
    (options : InternalResolveOptions) (tryIndex targetWeb skip : bool)
    (st : State) :
  isFileReadable E file = false -> o_isFromTsImporter options = false ->
  tryResolveFile E (S fuel) file postfix options tryIndex targetWeb None
    skip st
  = (Ok None, st).
Proof.
  intros Hread Hts. cbn [tryResolveFile]. unfold tryResolveFile_body.
  rewrite (bind_step _ _ st st None).
  - rewrite Hts. reflexivity.
  - unfold tryResolveFile_readable. now rewrite Hread.
Qed.

Lemma nonEmpty_append_l (a b : string) :
  Js.nonEmpty a = true -> Js.nonEmpty (a +:+ b) = true.
Proof. destruct a; [discriminate|reflexivity]. Qed.

(** X15. A path whose file part is a readable regular file resolves to the
    real path of that file with the postfix put back: no extension and no
    index file is tried, and the state is left as it was. For a path with a
    postfix this is so when the path as a whole is not readable and the
    call has neither a TypeScript importer nor a prefix to try. *)
Theorem tryFsResolve_existing_file (E : Env) (fuel : nat)
    (fsPath file postfix : string) (options : InternalResolveOptions)
    (tryIndex targetWeb : bool) (st : State) :
  splitFileAndPostfix fsPath = (file, postfix) ->
  isFileReadable E file = true -> isDirectory E file = false ->
  (Js.nonEmpty postfix = true ->
   isFileReadable E fsPath = false
   /\ o_isFromTsImporter options = false
   /\ o_tryPrefix options = None) ->
  tryFsResolve E (S (S fuel)) fsPath options tryIndex targetWeb st
  = (Ok (Some (getRealPath E file (o_preserveSymlinks options) +:+ postfix)),
     st).
Proof.
  intros Hsplit Hread Hdir Hpost. cbn [tryFsResolve].
  unfold tryFsResolve_body. rewrite Hsplit. cbv zeta.
  assert (Hfile : forall ti,
    bind (gets skipPackageJson)
      (fun skip => tryResolveFile E (S fuel) file postfix options ti
                     targetWeb (o_tryPrefix options) skip) st
    = (Ok (Some (getRealPath E file (o_preserveSymlinks options)
                 +:+ postfix)), st)).
  { intros ti. unfold bind, gets. now apply tryResolveFile_regular. }
  assert (Hwhole :
    (if Js.nonEmpty postfix
     then bind (gets skipPackageJson)
            (fun skip => tryResolveFile E (S fuel) fsPath "" options false
                           targetWeb (o_tryPrefix options) skip)
     else ret None) st
    = (Ok None, st)).
  { destruct (Js.nonEmpty postfix); [|reflexivity].
    destruct (Hpost eq_refl) as (Hnr & Hts & ->).
    unfold bind, gets. now apply tryResolveFile_missing. }
  rewrite (bind_step _ _ st st None Hwhole).
  change (Js.truthy None) with false. cbv iota.
  rewrite (bind_step _ _ st st _ (Hfile false)).
  rewrite truthy_some, nonEmpty_append_l; [reflexivity|].
  apply getRealPath_nonEmpty.
Qed.

Lemma tryFsResolve_existing_file_witness :
  tryFsResolve Workspace.workspace 2 "/p/src/util.ts?raw" Workspace.options
    true true emptyState
  = (Ok (Some (getRealPath Workspace.workspace "/p/src/util.ts"
                 (o_preserveSymlinks Workspace.options) +:+ "?raw")),
     emptyState).
Proof.
  apply (tryFsResolve_existing_file Workspace.workspace 0
           "/p/src/util.ts?raw" "/p/src/util.ts" "?raw" Workspace.options
           true true emptyState); try reflexivity.
  intros _. repeat split.
Defined.

Lemma firstTruthy_none {A} (f : A -> M (option string)) (l : list A)
    (st : State) :
  (forall x, f x st = (Ok None, st)) -> firstTruthy f l st = (Ok None, st).
Proof.
  intros H. induction l as [|x l IH]; [reflexivity|].
  cbn [firstTruthy]. rewrite (bind_step _ _ st st None (H x)). exact IH.
Qed.

Lemma tryResolveFile_unreadable (E : Env) (fuel : nat)
    (options : InternalResolveOptions) :
  (forall p, isFileReadable E p = false) ->
  o_isFromTsImporter options = false ->
  forall file postfix tryIndex targetWeb tryPrefix skip st,
    tryResolveFile E (S (S fuel)) file postfix options tryIndex targetWeb
      tryPrefix skip st
    = (Ok None, st).
Proof.
  intros Hnone Hts.
  assert (Hbody : forall n file postfix tryIndex targetWeb tryPrefix skip st,
    tryResolveFile E (S n) file postfix options tryIndex targetWeb tryPrefix
      skip st
    = match tryPrefix with
      | Some prefix =>
          if Js.nonEmpty prefix
          then tryResolveFile E n
                 (Path.dirname file +:+ "/" +:+ prefix +:+ Path.basename file)
                 postfix options tryIndex targetWeb None false st
          else (Ok None, st)
      | None => (Ok None, st)
      end).
  { intros n file postfix tryIndex targetWeb tryPrefix skip st.
    cbn [tryResolveFile]. unfold tryResolveFile_body.
    rewrite (bind_step _ _ st st None).
    - rewrite Hts. cbn [andb]. cbv zeta.
      destruct tryPrefix as [prefix|]; [|reflexivity].
      destruct (Js.nonEmpty prefix); reflexivity.
    - unfold tryResolveFile_readable. now rewrite Hnone. }
  intros file postfix tryIndex targetWeb tryPrefix skip st.
  rewrite Hbody. destruct tryPrefix as [prefix|]; [|reflexivity].
  destruct (Js.nonEmpty prefix); [|reflexivity].
  now rewrite Hbody.
Qed.

(** X16. Where no file is readable, the probe of a call that does not come
    from a TypeScript importer returns [undefined] for every path and every
    postfix: it throws nothing and leaves the state as it was. *)
Theorem tryFsResolve_nothing_readable (E : Env) (fuel : nat)
    (fsPath : string) (options : InternalResolveOptions)
    (tryIndex targetWeb : bool) (st : State) :
  (forall p, isFileReadable E p = false) ->
  o_isFromTsImporter options = false ->
  tryFsResolve E (S (S (S fuel))) fsPath options tryIndex targetWeb st
  = (Ok None, st).
Proof.
  intros Hnone Hts.
  pose proof (tryResolveFile_unreadable E fuel options Hnone Hts) as Hfile.
  cbn [tryFsResolve]. unfold tryFsResolve_body.
  destruct (splitFileAndPostfix fsPath) as [file postfix]. cbv zeta.
  assert (Hprobe : forall f p ti,
    bind (gets skipPackageJson)
      (fun skip => tryResolveFile E (S (S fuel)) f p options ti targetWeb
                     (o_tryPrefix options) skip) st
    = (Ok None, st)).
  { intros f p ti. unfold bind, gets. apply Hfile. }
  assert (Hguard : forall f p ti,
    (if Js.nonEmpty postfix
     then bind (gets skipPackageJson)
            (fun skip => tryResolveFile E (S (S fuel)) f p options ti
                           targetWeb (o_tryPrefix options) skip)
     else ret None) st
    = (Ok None, st)).
  { intros f p ti. destruct (Js.nonEmpty postfix); [apply Hprobe|reflexivity]. }
  rewrite (bind_step _ _ st st None (Hguard _ _ _)).
  change (Js.truthy None) with false. cbv iota.
  rewrite (bind_step _ _ st st None (Hprobe _ _ _)).
  change (Js.truthy None) with false. cbv iota.
  rewrite (bind_step _ _ st st None).
  2:{ apply firstTruthy_none. intros ext.
      rewrite (bind_step _ _ st st None (Hguard _ _ _)).
      change (Js.truthy None) with false. cbv iota. apply Hprobe. }
  change (Js.truthy None) with false. cbv iota.
  rewrite (bind_step _ _ st st None (Hguard _ _ _)).
  change (Js.truthy None) with false. cbv iota.
  rewrite (bind_step _ _ st st None (Hprobe _ _ _)).
  reflexivity.
Qed.

Lemma tryFsResolve_nothing_readable_witness :
  tryFsResolve (Workspace.env [] [] []) 3 "/p/src/app.ts?raw"
    Workspace.options true true emptyState
  = (Ok None, emptyState).
Proof.
  apply (tryFsResolve_nothing_readable (Workspace.env [] [] []) 0
           "/p/src/app.ts?raw" Workspace.options true true emptyState).
  - intros p. cbn [isFileReadable Workspace.env].
    unfold Workspace.Utils.isFile, Workspace.Utils.isDirectory.
    cbn [Workspace.Utils.lookupFile Workspace.Utils.memberOf existsb].
    rewrite andb_false_r. reflexivity.
  - reflexivity.
Defined.

(** *** The hook from call to call *)

Lemma resolveId_keeps_invariant_witness :
  StateOK (snd (resolveId Workspace.workspace 10 Workspace.options "foo"
                  (Some "/p/src/app.ts") None emptyState)).
Proof.
  apply (resolveId_keeps_invariant Workspace.workspace 10 Workspace.options
           "foo" (Some "/p/src/app.ts") None emptyState).
  - apply workspace_env_ok.
  - exact no_optimizer_ok.
  - exact StateOK_empty.
Defined.

(** X18. The result of the hook does not depend on the [skipPackageJson]
    flag an earlier call has left behind: every call starts from the value
    of the plugin's own options. *)
Theorem resolveId_fresh_options (E : Env) (fuel : nat)
    (resolveOptions : InternalResolveOptions) (id : string)
    (importer : option string) (resolveOpts : option ResolveIdOptions)
    (st : State) (leftover : bool) :
  fst (resolveId E fuel resolveOptions id importer resolveOpts
         (snd (setSkipPackageJson leftover st)))
  = fst (resolveId E fuel resolveOptions id importer resolveOpts st).
Proof.
  unfold resolveId. cbv zeta.
  destruct (Js.startsWith id browserExternalId); [reflexivity|].
  match goal with
  | |- fst ((if ?c then _ else _) _) = _ => destruct c
  end; [reflexivity|].
  unfold bind at 1 3. reflexivity.
Qed.

(** *** Files and the packages they belong to *)

(** X19. On a cache miss, a deep import that the [browser] object of a
    package without [exports] maps to [false] resolves, for the web, to the
    browser-external id: nothing is probed on disk, and the id is stored in
    the web cache under the subpath as it was asked for. *)
Theorem resolveDeepImport_browser_false (E : Env) (fuel : nat) (id : string)
    (pkg : PackageData) (options : InternalResolveOptions) (st : State)
    (browser : list (string * BrowserVal)) :
  fst (getResolvedCache pkg id true st) = Ok None ->
  exportsTruthy (pj_exports (pkg_data pkg)) = false ->
  pj_browser (pkg_data pkg) = BrowserMap browser ->
  mapWithBrowserField (fst (splitFileAndPostfix id)) browser = Some BrFalse ->
  resolveDeepImport E fuel id pkg true options st
  = (Ok (Some browserExternalId), setWebResolved pkg id browserExternalId st).
Proof.
  intros Hcache Hexports Hbrowser Hmap. unfold resolveDeepImport. cbv zeta.
  unfold bind at 1. unfold getResolvedCache, gets in *. cbv beta in *.
  simpl in Hcache. injection Hcache as ->. cbv beta iota.
  change (Js.truthy None) with false. cbv iota.
  rewrite Hexports, Hbrowser.
  destruct (splitFileAndPostfix id) as [file postfix]. simpl in Hmap.
  rewrite Hmap. reflexivity.
Qed.

Lemma resolveDeepImport_browser_false_witness :
  resolveDeepImport Workspace.workspace 0 "./server.js?raw" Workspace.shim
    true Workspace.options emptyState
  = (Ok (Some browserExternalId),
     setWebResolved Workspace.shim "./server.js?raw" browserExternalId
       emptyState).
Proof.
  apply (resolveDeepImport_browser_false Workspace.workspace 0
           "./server.js?raw" Workspace.shim Workspace.options emptyState
           [("./server.js", BrFalse);
            ("./lib/a.js", BrStr "./lib/a.browser.js")]);
    reflexivity.
Defined.

Lemma tryNodeResolve_links (E : Env) (fuel : nat) (id : string)
    (importer : option string) (options : InternalResolveOptions)
    (targetWeb : bool) (ssr externalize : option bool) (st st' : State)
    (rec : PartialResolvedId) :
  tryNodeResolve E fuel id importer options targetWeb None ssr externalize st
  = (Ok (Some rec), st') ->
  pr_external rec <> Some true ->
  exists pkgId pkg basedir,
    In pkgId (possiblePkgIdsOf (nestedPathOf id))
    /\ resolvePackageData E pkgId basedir (o_preserveSymlinks options)
       = Some pkg
    /\ idToPkgMap st' !! pr_id rec = Some pkg.
Proof.
  unfold tryNodeResolve. cbv zeta. intros H Hext.
  match type of H with
  | context [findPackage E ?l ?b ?ps] =>
      destruct (findPackage E l b ps) as [[pkgId pkg]|] eqn:Hfind;
      [apply findPackage_inv in Hfind; destruct Hfind as [Hin Hpkg];
       apply in_rev in Hin; exists pkgId, pkg, b
      |discriminate H]
  end.
  split; [exact Hin|]. split; [exact Hpkg|].
  inv_bind H. inv_bind H.
  destruct a0 as [resolved|]; [|discriminate H].
  destruct (negb (Js.nonEmpty resolved)); [discriminate H|].
  inv_bind H. unfold idToPkgMap_set, modify in Hm1. injection Hm1 as _ <-.
  match type of H with
  | (if ?c then _ else _) _ = _ => destruct c
  end.
  - cbv beta iota in H. destruct (negb (isTrue externalize)).
    + injection H as <- <-. cbn [idToPkgMap pr_id]. apply lookup_insert_eq.
    + exfalso. apply Hext.
      repeat match type of H with
             | ret (if ?c then _ else _) _ = _ => destruct c
             end; try discriminate H; injection H as <- _; reflexivity.
  - injection H as <- <-. cbn [idToPkgMap pr_id]. apply lookup_insert_eq.
Qed.

(** X20. Without an optimizer, a record that [tryNodeResolve] returns and
    that is not marked external names a file that [idToPkgMap] links, by
    the time the call returns, to the package found for one of the
    candidate ids of the specifier. *)
Theorem tryNodeResolve_links_package (E : Env) (fuel : nat) (id : string)
    (importer : option string) (options : InternalResolveOptions)
    (targetWeb : bool) (ssr externalize : option bool) (st st' : State)
    (rec : PartialResolvedId) :
  tryNodeResolve E fuel id importer options targetWeb None ssr externalize st
  = (Ok (Some rec), st') ->
  pr_external rec <> Some true ->
  exists pkgId pkg basedir,
    In pkgId (possiblePkgIdsOf (nestedPathOf id))
    /\ resolvePackageData E pkgId basedir (o_preserveSymlinks options)
       = Some pkg
    /\ idToPkgMap st' !! pr_id rec = Some pkg.
Proof. apply tryNodeResolve_links. Qed.

Lemma tryNodeResolve_links_package_witness :
  exists pkgId pkg basedir,
    In pkgId (possiblePkgIdsOf (nestedPathOf "foo"))
    /\ resolvePackageData Workspace.workspace pkgId basedir
         (o_preserveSymlinks Workspace.options) = Some pkg
    /\ idToPkgMap
         (snd (tryNodeResolve Workspace.workspace 10 "foo"
                 (Some "/p/src/app.ts") Workspace.options true None None
                 None emptyState))
       !! pr_id {| pr_id := "/p/node_modules/foo/foo.mjs";
                   pr_external := None; pr_moduleSideEffects := None |}
       = Some pkg.
Proof.
  apply (tryNodeResolve_links_package Workspace.workspace 10 "foo"
           (Some "/p/src/app.ts") Workspace.options true None None
           emptyState).
  - vm_compute. reflexivity.
  - discriminate.
Defined.

Lemma orElse_inv (step : M (option ResolutionResult))
    (next : M ResolutionResult) (st st' : State) (r : ResolutionResult) :
  orElse step next st = (Ok r, st') ->
  step st = (Ok (Some r), st')
  \/ exists st1, step st = (Ok None, st1) /\ next st1 = (Ok r, st').
Proof.
  unfold orElse. intros H. inv_bind H. destruct a as [x|].
  - injection H as <- <-. now left.
  - right. now exists st0.
Qed.

Lemma definedResult_inv (res r : ResolutionResult) :
  definedResult res = Some r -> r = res /\ res <> ResUndefined.
Proof. destruct res; simpl; intros [= <-]; split; congruence. Qed.

Lemma browserMapping_links (E : Env) (fuel : nat) (id : string)
    (importer : option string) (options : InternalResolveOptions)
    (isFilePath : bool) (externalize : option bool) (st st' : State)
    (r : ResolutionResult) :
  tryResolveBrowserMapping E fuel id importer options isFilePath externalize st
  = (Ok r, st') ->
  linkedResult r st'.
Proof.
  intros H. destruct r as [| |s|rec]; try exact I.
  apply tryResolveBrowserMapping_result in H; [|discriminate].
  destruct H as (i & pkg & browser & _ & _ & _ & [H|(rec' & Hrec & Hlink & _)]);
    [discriminate H|].
  injection Hrec as <-. intros _. now exists pkg.
Qed.

Lemma resolveRelative_links (E : Env) (fuel : nat)
    (resolveOptions options : InternalResolveOptions) (targetWeb ssr : bool)
    (id : string) (importer : option string) (st st' : State)
    (x : ResolutionResult) :
  o_getDepsOptimizer resolveOptions = None ->
  resolveRelative E fuel resolveOptions options targetWeb ssr id importer st
  = (Ok (Some x), st') ->
  linkedResult x st'.
Proof.
  intros Hopt H. unfold resolveRelative in H. cbv zeta in H.
  rewrite Hopt in H.
  match type of H with
  | (if ?c then _ else _) _ = _ => destruct c
  end; [|discriminate H].
  inv_bind H. destruct a as [r|].
  { injection H as <- <-.
    match type of Hm with
    | (if ?c then _ else _) _ = _ => destruct c
    end; [|discriminate Hm].
    inv_bind Hm. destruct a as [rec|]; [|discriminate Hm].
    match type of Hm with
    | (if ?c then _ else _) _ = _ => destruct c
    end; [|discriminate Hm].
    injection Hm as <- <-. intros Hext.
    destruct (tryNodeResolve_links _ _ _ _ _ _ _ _ _ _ _ Hm0 Hext)
      as (pkgId & pkg & basedir & _ & _ & Hlink).
    now exists pkg. }
  inv_bind H. destruct a as [r|].
  { injection H as <- <-. destruct targetWeb; [|discriminate Hm0].
    inv_bind Hm0. injection Hm0 as Hdef <-.
    apply definedResult_inv in Hdef. destruct Hdef as [-> _].
    exact (browserMapping_links _ _ _ _ _ _ _ _ _ _ Hm1). }
  inv_bind H. destruct a as [res|]; [|discriminate H]. simpl in H.
  destruct (Js.nonEmpty res); [|discriminate H].
  inv_bind H. destruct a as [pkg|].
  - inv_bind H. unfold idToPkgMap_set, modify in Hm3.
    injection Hm3 as _ <-. injection H as <- <-.
    intros _. exists pkg. cbn [idToPkgMap pr_id]. apply lookup_insert_eq.
  - injection H as <- _. exact I.
Qed.

Lemma string_step_links (s : option string) (st st' : State)
    (x : ResolutionResult) :
  (if Js.truthy s then ret (Some (ResString (default EmptyString s)))
   else ret None) st = (Ok (Some x), st') ->
  linkedResult x st'.
Proof.
  destruct (Js.truthy s); [|discriminate]. intros [= <- _]. exact I.
Qed.

(** X21. Without an optimizer, a structured result of the hook that is not
    marked external names a file that [idToPkgMap] links to a package when
    the call returns: this is what the browser-field mapping of an import
    from that file looks up. *)
Theorem resolveId_links_structured_results (E : Env) (fuel : nat)
    (resolveOptions : InternalResolveOptions) (id : string)
    (importer : option string) (resolveOpts : option ResolveIdOptions)
    (st st' : State) (rec : PartialResolvedId) :
  o_getDepsOptimizer resolveOptions = None ->
  resolveId E fuel resolveOptions id importer resolveOpts st
  = (Ok (ResRecord rec), st') ->
  pr_external rec <> Some true ->
  exists pkg, idToPkgMap st' !! pr_id rec = Some pkg.
Proof.
  intros Hopt H Hext.
  enough (Hlinked : linkedResult (ResRecord rec) st') by exact (Hlinked Hext).
  clear Hext. unfold resolveId in H. cbv zeta in H. rewrite Hopt in H.
  destruct (Js.startsWith id browserExternalId); [discriminate H|].
  match type of H with
  | (if ?c then _ else _) _ = _ => destruct c
  end; [discriminate H|].
  inv_bind H. rewrite andb_false_r in H.
  match type of H with
  | (if ?c then _ else _) _ = _ => destruct c
  end.
  { inv_bind H. discriminate H. }
  apply orElse_inv in H. destruct H as [H|(st1 & _ & H)].
  { unfold resolveRootUrl in H.
    match type of H with
    | (if ?c then _ else _) _ = _ => destruct c
    end; [|discriminate H].
    cbv zeta in H. inv_bind H. exact (string_step_links _ _ _ _ H). }
  apply orElse_inv in H. destruct H as [H|(st2 & _ & H)].
  { exact (resolveRelative_links _ _ _ _ _ _ _ _ _ _ _ Hopt H). }
  apply orElse_inv in H. destruct H as [H|(st3 & _ & H)].
  { unfold resolveAbsolute in H.
    destruct (Path.isAbsolute id); [|discriminate H].
    inv_bind H. exact (string_step_links _ _ _ _ H). }
  destruct (isExternalUrl E id).
  { injection H as <- _. intros Hext. now elim Hext. }
  destruct (isDataUrl E id); [discriminate H|].
  destruct (bareImportRE E id); [|discriminate H].
  apply orElse_inv in H. destruct H as [H|(st4 & _ & H)].
  { unfold resolveBareOptimized in H. rewrite Hopt in H. discriminate H. }
  apply orElse_inv in H. destruct H as [H|(st5 & _ & H)].
  { unfold resolveBareBrowser in H.
    match type of H with
    | (if ?c then _ else _) _ = _ => destruct c
    end; [|discriminate H].
    inv_bind H. injection H as Hdef <-.
    apply definedResult_inv in Hdef. destruct Hdef as [-> _].
    exact (browserMapping_links _ _ _ _ _ _ _ _ _ _ Hm0). }
  apply orElse_inv in H. destruct H as [H|(st6 & _ & H)].
  { unfold resolveBareNode in H. rewrite Hopt in H. inv_bind H.
    destruct a0 as [r|]; [|discriminate H]. injection H as <- <-.
    intros Hext.
    destruct (tryNodeResolve_links _ _ _ _ _ _ _ _ _ _ _ Hm0 Hext)
      as (pkgId & pkg & basedir & _ & _ & Hlink).
    now exists pkg. }
  destruct (isBuiltin E id); [|discriminate H].
  unfold resolveBuiltin in H. cbv zeta in H.
  destruct (ssrOf resolveOpts); [|discriminate H].
  destruct (match o_ssrConfig resolveOptions with
            | Some c => ssr_noExternal c
            | None => NoExternalUnset
            end); try discriminate H;
    injection H as <- _; intros Hext; now elim Hext.
Qed.

Lemma resolveId_links_structured_results_witness :
  exists pkg,
    idToPkgMap
      (snd (resolveId Workspace.workspace 10 Workspace.options "foo"
              (Some "/p/src/app.ts") None emptyState))
    !! pr_id {| pr_id := "/p/node_modules/foo/foo.mjs"; pr_external := None;
                pr_moduleSideEffects := None |}
    = Some pkg.
Proof.
  apply (resolveId_links_structured_results Workspace.workspace 10
           Workspace.options "foo" (Some "/p/src/app.ts") None emptyState).
  - reflexivity.
  - vm_compute. reflexivity.
  - discriminate.
Defined.

(** *** Directories *)

(** X22. A directory whose manifest fails to load with an error other than
    [ENOENT] is an error of the probe: with [tryIndex] and without
    [skipPackageJson], [tryResolveFile] throws that very error and leaves
    the state as it was; it does not go on to the index file. *)
Theorem tryResolveFile_manifest_error (E : Env) (fuel : nat)
    (file postfix : string) (options : InternalResolveOptions)
    (targetWeb : bool) (tryPrefix : option string) (st : State)
    (e : JsError) :
  isFileReadable E file = true -> isDirectory E file = true ->
  loadPackageData E (file +:+ "/package.json") (o_preserveSymlinks options)
  = Raises e ->
  isENOENT e = false ->
  tryResolveFile E (S fuel) file postfix options true targetWeb tryPrefix
    false st
  = (Throw e, st).
Proof.
  intros Hread Hdir Hload Hcode. cbn [tryResolveFile].
  unfold tryResolveFile_body, tryResolveFile_readable.
  rewrite Hread, Hdir. cbn [negb]. rewrite Hload.
  unfold bind, tryCatch, lift, throw. rewrite Hcode. reflexivity.
Qed.

Lemma tryResolveFile_manifest_error_witness :
  tryResolveFile Workspace.brokenManifests 1 "/p/node_modules/baz/sub" ""
    Workspace.options true true None false emptyState
  = (Throw (newError ("Unexpected token } in JSON, in "
                      +:+ "/p/node_modules/baz/sub/package.json")),
     emptyState).
Proof.
  apply (tryResolveFile_manifest_error Workspace.brokenManifests 0
           "/p/node_modules/baz/sub" "" Workspace.options true None
           emptyState); reflexivity.
Defined.

(** X23. A directory without a manifest, or probed with [skipPackageJson],
    resolves to what the probe of its [index] finds, with the postfix put
    back; the index is probed with the defaults of [tryFsResolve], whatever
    target the caller resolves for. *)
Theorem tryResolveFile_directory_index (E : Env) (fuel : nat)
    (file postfix : string) (options : InternalResolveOptions)
    (targetWeb : bool) (tryPrefix : option string) (skip : bool)
    (st st' : State) (index : string) :
  isFileReadable E file = true -> isDirectory E file = true ->
  (skip = true
   \/ exists e,
        loadPackageData E (file +:+ "/package.json")
          (o_preserveSymlinks options) = Raises e
        /\ isENOENT e = true) ->
  tryFsResolve E fuel (file +:+ "/index") options true true st
  = (Ok (Some index), st') ->
  Js.nonEmpty index = true ->
  tryResolveFile E (S fuel) file postfix options true targetWeb tryPrefix
    skip st
  = (Ok (Some (index +:+ postfix)), st').
Proof.
  intros Hread Hdir Hmanifest Hindex Hne. cbn [tryResolveFile].
  unfold tryResolveFile_body, tryResolveFile_readable.
  rewrite Hread, Hdir. cbn [negb].
  destruct Hmanifest as [->|(e & Hload & Hcode)].
  - cbn [negb]. unfold bind, ret. rewrite Hindex, Hne. reflexivity.
  - destruct skip; cbn [negb].
    + unfold bind, ret. rewrite Hindex, Hne. reflexivity.
    + rewrite Hload. unfold bind, tryCatch, lift, throw, ret.
      rewrite Hcode. cbn [negb]. rewrite Hindex, Hne. reflexivity.
Qed.

Lemma tryResolveFile_directory_index_witness :
  tryResolveFile Workspace.workspace 4 "/p/node_modules/baz/sub" "?x"
    Workspace.options true false None false emptyState
  = (Ok (Some ("/p/node_modules/baz/sub/index.js" +:+ "?x")), emptyState).
Proof.
  apply (tryResolveFile_directory_index Workspace.workspace 3
           "/p/node_modules/baz/sub" "?x" Workspace.options false None false
           emptyState emptyState "/p/node_modules/baz/sub/index.js").
  - reflexivity.
  - reflexivity.
  - right. eexists. split; reflexivity.
  - vm_compute. reflexivity.
  - reflexivity.
Defined.
